(** * doughmination.win backend: cache, upstream client, connection registry

    A shallow embedding of the Python backend
    ([backend/pluralkit.py], [backend/subsystems.py], [backend/main.py])
    and the properties of its caching and broadcast layer.

    Python objects that travel as JSON are values of [json]; dictionaries are
    finite maps ([gmap string _]), sets of sockets are [gset]s.  Effects
    (the cache, the clock, the upstream API, the JSON files of
    [dough-data/], the live sockets) are threaded through a state-and-exception
    monad [M]; every effect that leaves the process or touches the cache is
    also appended to an event [trace], so that ordering properties can be
    stated about what the code did, in the order it did it. *)

From stdpp Require Import base gmap strings list option pretty sorting.

Set Warnings "-register-all".
Open Scope string_scope.
Open Scope list_scope.

(** ** Python values *)

(** JSON-shaped Python objects ([None], [bool], [int], [str], [list], [dict]).
    Floats do not occur in the code paths modelled here. *)
Inductive json : Type :=
  | JNull
  | JBool (b : bool)
  | JNum (n : Z)
  | JStr (s : string)
  | JList (l : list json)
  | JDict (d : gmap string json).

Global Instance json_eq_dec : EqDecision json.
Proof.
  refine (fix go (x y : json) {struct x} : Decision (x = y) :=
    let _ : EqDecision json := @go in
    match x, y with
    | JNull, JNull => left _
    | JBool a, JBool b => cast_if (decide (a = b))
    | JNum a, JNum b => cast_if (decide (a = b))
    | JStr a, JStr b => cast_if (decide (a = b))
    | JList a, JList b => cast_if (decide (a = b))
    | JDict a, JDict b => cast_if (decide (a = b))
    | _, _ => right _
    end); congruence.
Defined.

(** Python truthiness, [bool(v)]: what [if v:] and [if (c := f()):] test. *)
Definition truthy (v : json) : bool :=
  match v with
  | JNull => false
  | JBool b => b
  | JNum n => bool_decide (n ≠ 0%Z)
  | JStr s => bool_decide (s ≠ "")
  | JList l => bool_decide (l ≠ [])
  | JDict d => bool_decide (d ≠ ∅)
  end.

(** Python's [==] identifies [True] with [1] and [False] with [0]; apart from
    that it is structural on JSON-shaped values. *)
Fixpoint py_norm (v : json) : json :=
  match v with
  | JBool b => JNum (if b then 1 else 0)
  | JList l => JList (py_norm <$> l)
  | JDict d => JDict (py_norm <$> d)
  | _ => v
  end.

Definition py_eq (x y : json) : bool := bool_decide (py_norm x = py_norm y).

(** The exceptions the modelled code raises or lets through.  All of them are
    subclasses of Python's [Exception], so [except Exception] catches each. *)
Inductive exn : Type :=
  | PyException (msg : string)
  | HTTPException (status_code : nat) (detail : string)
  | HTTPStatusError (status_code : nat)
  | TransportError (msg : string)
  | JSONDecodeError
  | KeyError (key : string)
  | TypeError
  | AttributeError
  | WebSocketDisconnect
  | RuntimeError (msg : string).

Global Instance exn_eq_dec : EqDecision exn.
Proof. solve_decision. Defined.

Inductive result (A : Type) : Type :=
  | Ok (a : A)
  | Exc (e : exn).
Arguments Ok {A} a.
Arguments Exc {A} e.

Definition is_ok {A} (r : result A) : bool :=
  match r with Ok _ => true | Exc _ => false end.

Fixpoint chars (s : string) : list string :=
  match s with
  | EmptyString => []
  | String a s' => String a EmptyString :: chars s'
  end.

(** [for x in v]: lists yield their items, dicts their keys, strings their
    characters; anything else is not iterable.  (A [gmap] does not keep the
    insertion order of a dict; the loops modelled here call [.get] on every
    item, which fails on the first key whatever the order.) *)
Definition py_iter (v : json) : result (list json) :=
  match v with
  | JList l => Ok l
  | JDict d => Ok (JStr <$> (map_to_list d).*1)
  | JStr s => Ok (JStr <$> chars s)
  | _ => Exc TypeError
  end.

(** [v.get(k, dflt)]: only dicts have [.get]. *)
Definition py_get_default (v : json) (k : string) (dflt : json) : result json :=
  match v with
  | JDict d => Ok (default dflt (d !! k))
  | _ => Exc AttributeError
  end.

(** [v.get(k)] *)
Definition py_get (v : json) (k : string) : result json :=
  py_get_default v k JNull.

(** [k in d] and [d[k]] for a dict [d] with string keys and an arbitrary
    Python value [k]: lists and dicts are unhashable, every other non-string
    is simply not a key. *)
Definition py_key {A} (d : gmap string A) (k : json) : result (option A) :=
  match k with
  | JStr s => Ok (d !! s)
  | JList _ | JDict _ => Exc TypeError
  | _ => Ok None
  end.

(** ** The environment of the process

    What lies outside the repository: the upstream HTTP API, the sockets of
    the subscribers, library functions, and the configuration constants that
    [main.py] imports but that are not defined under [backend/]. *)

Definition conn := nat.

Record http_request : Type := HttpRequest {
  req_method : string;
  req_url : string;
  req_json : option json
}.

Global Instance http_request_eq_dec : EqDecision http_request.
Proof. solve_decision. Defined.

Record response : Type := Response {
  status_code : nat;
  text : string
}.

Inductive send_outcome : Type :=
  | Sent
  | SendDisconnected   (* raises WebSocketDisconnect *)
  | SendFailed (e : exn). (* raises any other Exception *)

Global Instance send_outcome_eq_dec : EqDecision send_outcome.
Proof. solve_decision. Defined.

Class Env : Type := {
  (** state of the upstream service and of the network of subscribers *)
  Remote : Type;
  Net : Type;
  (** [httpx.AsyncClient] request: the answer (or a transport error), the new
      upstream state and the seconds that went by *)
  http_send : http_request → Remote → result response * Remote * nat;
  (** [websocket.send_text] *)
  ws_send_text : conn → string → Net → send_outcome * Net;
  (** [websocket.accept] *)
  ws_accept : conn → Net → result unit * Net;
  (** [resp.raise_for_status()] raises for these status codes *)
  is_error_status : nat → bool;
  (** [json.loads] on a response body, [json.dumps], [str(e)],
      [datetime.isoformat] *)
  json_loads : string → option json;
  json_dumps : json → string;
  str_exn : exn → string;
  isoformat : nat → string;
  (** [MAX_FRONTERS], imported by [main.py] from [pluralkit] *)
  MAX_FRONTERS : nat;
  (** [CACHE_TTL = int(os.getenv("CACHE_TTL", 30))] *)
  CACHE_TTL : nat
}.

(** ** Cache store *)

(** Modelled from the spec: [cache.py] ([get_from_cache], [set_in_cache]) is
    imported by [pluralkit.py] and [main.py] but is not among the sources.
    Section 3 of the specification: a cache entry has a key, a value and an
    absolute expiry; it is visible only while the current time is before the
    expiry, and an explicitly invalidated entry has expiry 0. *)
Record CacheEntry : Type := Entry {
  value : json;
  expiry : nat
}.

Module Cache.

(** Modelled from the spec: [get(key) -> value or absent] (section 4.1);
    an expired or invalidated entry is treated as absent. *)
Definition get (c : gmap string CacheEntry) (t : nat) (key : string)
  : option json :=
  match c !! key with
  | Some e => if bool_decide (t < expiry e) then Some (value e) else None
  | None => None
  end.

(** Modelled from the spec: [set(key, value, ttl_seconds)] (section 4.1);
    setting ttl=0 or value=null immediately invalidates. *)
Definition set (c : gmap string CacheEntry) (t : nat) (key : string)
    (v : json) (ttl : nat) : gmap string CacheEntry :=
  if bool_decide (ttl = 0 ∨ v = JNull)
  then <[key := Entry v 0]> c
  else <[key := Entry v (t + ttl)]> c.

End Cache.

(** ** Locally persisted data ([models.py], [subsystems.py]) *)

(** Modelled from the spec: the class [SubSystem] is imported from [models]
    but [models.py] does not define it.  The code only reads the [label] of a
    sub-system (section 3: a tag is valid only if it matches a configured
    subsystem label or the reserved label "host"). *)
Record SubSystem : Type := { label : string }.

Record MentalState : Type := {
  level : string;
  updated_at : nat;
  notes : option string
}.

Record User : Type := { is_admin : bool }.

(** [DEFAULT_SUBSYSTEMS = []] *)
Definition DEFAULT_SUBSYSTEMS : list SubSystem := [].

(** The initial value of the module global [DEFAULT_MEMBER_TAGS]. *)
Definition DEFAULT_MEMBER_TAGS : gmap string (list string) :=
  list_to_map [
    ("Jinx", ["Arcane"]); ("Vi", ["Arcane"]);
    ("Onyx", ["Cat"]); ("Pyzer", ["Cat"]); ("Pyzen", ["Cat"]);
    ("JS", ["Cyberpunk"]); ("V", ["Cyberpunk"]); ("Judy", ["Cyberpunk"]);
    ("Marin", ["DUD"]);
    ("Roxy", ["FNAF"]);
    ("Catrin", ["Fortnite"]); ("Hope", ["Fortnite"]); ("Meg", ["Fortnite"]);
    ("02", ["Franxx"]);
    ("C1", ["Host"]); ("Cleo", ["Host"]); ("Cwove", ["Host"]);
    ("abby", ["KPDH"]); ("baby", ["KPDH"]); ("Bobby", ["KPDH"]);
    ("jinu", ["KPDH"]); ("Mira", ["KPDH"]); ("mystery", ["KPDH"]);
    ("romance", ["KPDH"]); ("Rumi", ["KPDH"]); ("Zoey", ["KPDH"]);
    ("Dashie", ["MLP"]);
    ("D.Va", ["Overwatch"]); ("Tracer", ["Overwatch"]);
    ("Astra", ["Valorant"]); ("C2", ["Valorant"]); ("Cypher", ["Valorant"]);
    ("Deadlock", ["Valorant"]); ("Fade", ["Valorant"]); ("Jett", ["Valorant"]);
    ("KJ", ["Valorant"]); ("Neon", ["Valorant"]); ("Raze", ["Valorant"]);
    ("Reyna", ["Valorant"]); ("Sage", ["Valorant"]); ("Viper", ["Valorant"]);
    ("Vyse", ["Valorant"]);
    ("CMiku", ["Vocaloids"]); ("HMiku", ["Vocaloids"]); ("SMiku", ["Vocaloids"]);
    ("Anby", ["ZZZ"]); ("Belle", ["ZZZ"])
  ].

(** Paths of the JSON files below [dough-data/]. *)
Definition SUBSYSTEMS_FILE : string := "dough-data/subsystems.json".
Definition MEMBER_TAGS_FILE : string := "dough-data/member_tags.json".
Definition MENTAL_STATE_FILE : string := "dough-data/mental_state.json".

(** ** Events and the state of the process *)

Inductive event : Type :=
  | EvCacheRead (key : string)
  | EvCacheWrite (key : string) (v : json) (ttl : nat)
  | EvHttp (rq : http_request)
  | EvFileWrite (path : string)
  | EvBroadcast (group : string) (message : string)
  | EvSend (c : conn) (message : string) (o : send_outcome).

Global Instance event_eq_dec : EqDecision event.
Proof. solve_decision. Defined.

Section Process.
Context `{!Env}.

Record world : Type := World {
  now : nat;                                      (* time.time() *)
  cache : gmap string CacheEntry;                 (* cache.py's store *)
  remote : Remote;
  net : Net;
  active_connections : gmap string (gset conn);   (* manager.active_connections *)
  member_tags_file : option (gmap string (list string));
  default_member_tags : gmap string (list string);(* DEFAULT_MEMBER_TAGS, now *)
  subsystems_file : option (list SubSystem);
  mental_state_file : option json;
  trace : list event
}.

Definition with_now (t : nat) (w : world) : world :=
  World t (cache w) (remote w) (net w) (active_connections w)
    (member_tags_file w) (default_member_tags w) (subsystems_file w)
    (mental_state_file w) (trace w).
Definition with_cache (c : gmap string CacheEntry) (w : world) : world :=
  World (now w) c (remote w) (net w) (active_connections w)
    (member_tags_file w) (default_member_tags w) (subsystems_file w)
    (mental_state_file w) (trace w).
Definition with_remote (r : Remote) (w : world) : world :=
  World (now w) (cache w) r (net w) (active_connections w)
    (member_tags_file w) (default_member_tags w) (subsystems_file w)
    (mental_state_file w) (trace w).
Definition with_net (n : Net) (w : world) : world :=
  World (now w) (cache w) (remote w) n (active_connections w)
    (member_tags_file w) (default_member_tags w) (subsystems_file w)
    (mental_state_file w) (trace w).
Definition with_active_connections (a : gmap string (gset conn)) (w : world)
  : world :=
  World (now w) (cache w) (remote w) (net w) a
    (member_tags_file w) (default_member_tags w) (subsystems_file w)
    (mental_state_file w) (trace w).
Definition with_member_tags_file (f : option (gmap string (list string)))
    (w : world) : world :=
  World (now w) (cache w) (remote w) (net w) (active_connections w)
    f (default_member_tags w) (subsystems_file w)
    (mental_state_file w) (trace w).
Definition with_default_member_tags (d : gmap string (list string))
    (w : world) : world :=
  World (now w) (cache w) (remote w) (net w) (active_connections w)
    (member_tags_file w) d (subsystems_file w)
    (mental_state_file w) (trace w).
Definition with_subsystems_file (f : option (list SubSystem)) (w : world)
  : world :=
  World (now w) (cache w) (remote w) (net w) (active_connections w)
    (member_tags_file w) (default_member_tags w) f
    (mental_state_file w) (trace w).
Definition with_mental_state_file (f : option json) (w : world) : world :=
  World (now w) (cache w) (remote w) (net w) (active_connections w)
    (member_tags_file w) (default_member_tags w) (subsystems_file w)
    f (trace w).
Definition with_trace (t : list event) (w : world) : world :=
  World (now w) (cache w) (remote w) (net w) (active_connections w)
    (member_tags_file w) (default_member_tags w) (subsystems_file w)
    (mental_state_file w) t.

(** *** The monad: a computation may change the world and may raise *)

Definition M (A : Type) : Type := world → result A * world.

Global Instance M_ret : MRet M := λ A a w, (Ok a, w).
Global Instance M_bind : MBind M := λ A B f m w,
  match m w with
  | (Ok a, w') => f a w'
  | (Exc e, w') => (Exc e, w')
  end.

Definition raise {A} (e : exn) : M A := λ w, (Exc e, w).

(** [try: m  except Exception as e: h e] *)
Definition try_except {A} (m : M A) (h : exn → M A) : M A := λ w,
  match m w with
  | (Ok a, w') => (Ok a, w')
  | (Exc e, w') => h e w'
  end.

(** lift a pure computation that may raise *)
Definition lift {A} (r : result A) : M A := λ w, (r, w).

Definition gets {A} (f : world → A) : M A := λ w, (Ok (f w), w).
Definition modify (f : world → world) : M unit := λ w, (Ok tt, f w).
Definition log (e : event) : M unit :=
  modify (λ w, with_trace (trace w ++ [e]) w).

(** [for x in l: body x], stopping at the first exception *)
Fixpoint for_each {A} (l : list A) (body : A → M unit) : M unit :=
  match l with
  | [] => mret tt
  | x :: l' => _ ← body x; for_each l' body
  end.

(** a loop that builds a list with [.append] *)
Fixpoint for_collect {A B} (l : list A) (body : A → M B) : M (list B) :=
  match l with
  | [] => mret []
  | x :: l' => y ← body x; ys ← for_collect l' body; mret (y :: ys)
  end.

(** *** cache.py, as seen by its callers *)

Definition get_from_cache (key : string) : M (option json) :=
  _ ← log (EvCacheRead key);
  gets (λ w, Cache.get (cache w) (now w) key).

Definition set_in_cache (key : string) (v : json) (ttl : nat) : M unit :=
  _ ← log (EvCacheWrite key v ttl);
  modify (λ w, with_cache (Cache.set (cache w) (now w) key v ttl) w).

End Process.


(** Exceptions in pure helper code. *)
Global Instance result_ret : MRet result := λ A a, Ok a.
Global Instance result_bind : MBind result := λ A B f r,
  match r with
  | Ok a => f a
  | Exc e => Exc e
  end.

(** A pure loop over a list that stops at the first exception. *)
Fixpoint map_result {A B} (f : A → result B) (l : list A) : result (list B) :=
  match l with
  | [] => Ok []
  | x :: l' => y ← f x; ys ← map_result f l'; Ok (y :: ys)
  end.

(** ** pluralkit.py: the upstream client *)

Definition BASE_URL : string := "https://api.pluralkit.me/v2".

(** [SPECIAL_DISPLAY_NAMES] *)
Definition SPECIAL_DISPLAY_NAMES : gmap string string :=
  list_to_map [
    ("answer", "Answer Machine");
    ("system", "Unsure");
    ("sleeping", "I am sleeping")
  ].

(** The body of the loop of [get_members]: one upstream member record. *)
Definition process_member (member : json) : result json :=
  member_name ← py_get member "name";
  special ← py_key SPECIAL_DISPLAY_NAMES member_name;
  match special, member with
  | Some display, JDict d =>
      Ok (JDict (<["original_name" := member_name]>
                (<["is_special" := JBool true]>
                (<["display_name" := JStr display]> d))))
  | _, _ => Ok member
  end.

(** The loop of [get_members] that fills [processed_members]. *)
Definition process_members (data : json) : result (list json) :=
  items ← py_iter data;
  map_result process_member items.

(** The inner loop of [get_fronters]: the first processed member with the
    same [id], or [None]. *)
Fixpoint find_processed_member (all_members : list json) (member : json)
  : result json :=
  match all_members with
  | [] => Ok JNull
  | m :: rest =>
      m_id ← py_get m "id";
      member_id ← py_get member "id";
      if py_eq m_id member_id then Ok m else find_processed_member rest member
  end.

(** One round of the outer loop of [get_fronters]. *)
Definition resolve_fronter (all_members : json) (member : json) : result json :=
  ms ← py_iter all_members;
  processed_member ← find_processed_member ms member;
  if truthy processed_member then Ok processed_member else Ok member.

(** ["members" in data] *)
Definition has_members_key (data : json) : result bool :=
  match data with
  | JDict d => Ok (bool_decide (is_Some (d !! "members")))
  | JList l => Ok (existsb (py_eq (JStr "members")) l)
  | JStr s => Ok (bool_decide (is_Some (String.index 0 "members" s)))
  | _ => Exc TypeError
  end.

(** What a cache lookup is worth to [if (cached := get_from_cache(key)):]. *)
Definition cache_hit (cached : option json) : option json :=
  match cached with
  | Some v => if truthy v then Some v else None
  | None => None
  end.

Section Pluralkit.
Context `{!Env}.

(** One request through [httpx.AsyncClient]: it reaches the upstream
    service, and time goes by while the caller awaits the answer. *)
Definition client_request (rq : http_request) : M response := λ w,
  let '(r, rem, dt) := http_send rq (remote w) in
  (r, with_now (now w + dt) (with_remote rem (with_trace (trace w ++ [EvHttp rq]) w))).

Definition client_get (url : string) : M response :=
  client_request (HttpRequest "GET" url None).

Definition client_post (url : string) (payload : json) : M response :=
  client_request (HttpRequest "POST" url (Some payload)).

Definition raise_for_status (resp : response) : M unit :=
  if is_error_status (status_code resp)
  then raise (HTTPStatusError (status_code resp))
  else mret tt.

(** [resp.json()] *)
Definition resp_json (resp : response) : M json :=
  match json_loads (text resp) with
  | Some v => mret v
  | None => raise JSONDecodeError
  end.

Definition get_system : M json :=
  cached ← get_from_cache "system";
  match cache_hit cached with
  | Some v => mret v
  | None =>
      resp ← client_get (BASE_URL +:+ "/systems/@me");
      _ ← raise_for_status resp;
      data ← resp_json resp;
      _ ← set_in_cache "system" data CACHE_TTL;
      mret data
  end.

(** [get_members], from the lookup of ["members_raw"] on: taken when the
    processed tier misses. *)
Definition get_members_from_raw : M json :=
  cached_raw ← get_from_cache "members_raw";
  data ← match cache_hit cached_raw with
         | Some v => mret v
         | None =>
             resp ← client_get (BASE_URL +:+ "/systems/@me/members");
             _ ← raise_for_status resp;
             raw ← resp_json resp;
             _ ← set_in_cache "members_raw" raw CACHE_TTL;
             mret raw
         end;
  processed_members ← lift (process_members data);
  _ ← set_in_cache "members" (JList processed_members) CACHE_TTL;
  mret (JList processed_members).

Definition get_members : M json :=
  cached ← get_from_cache "members";
  match cache_hit cached with
  | Some v => mret v
  | None => get_members_from_raw
  end.

Definition get_fronters : M json :=
  cached ← get_from_cache "fronters";
  match cache_hit cached with
  | Some v => mret v
  | None =>
      resp ← client_get (BASE_URL +:+ "/systems/@me/fronters");
      _ ← raise_for_status resp;
      data ← resp_json resp;
      has ← lift (has_members_key data);
      data' ← (if has : bool then
                 all_members ← get_members;
                 match data with
                 | JDict d =>
                     items ← lift (py_iter (default JNull (d !! "members")));
                     processed_fronters ←
                       lift (map_result (resolve_fronter all_members) items);
                     mret (JDict (<["members" := JList processed_fronters]> d))
                 | _ => raise TypeError
                 end
               else mret data);
      _ ← set_in_cache "fronters" data' CACHE_TTL;
      mret data'
  end.

(** The tail of [set_front], once the answer to the POST is there. *)
Definition set_front_result (resp : response) : M json :=
  if bool_decide (status_code resp ∉ [200; 204])
  then raise (PyException ("Failed to set front: " +:+ pretty (status_code resp)
                           +:+ " - " +:+ text resp))
  else if bool_decide (text resp ≠ "") then resp_json resp else mret JNull.

Definition set_front (member_ids : json) : M json :=
  _ ← set_in_cache "fronters" JNull 0;
  resp ← client_post (BASE_URL +:+ "/systems/@me/switches")
                     (JDict {["members" := member_ids]});
  set_front_result resp.

End Pluralkit.

(** ** subsystems.py: tags persisted in [dough-data/] *)

(** [l.remove(x)]: drops the first occurrence ([x] is known to be in [l]
    wherever the code calls it). *)
Fixpoint list_remove_first (x : string) (l : list string) : list string :=
  match l with
  | [] => []
  | y :: l' => if decide (x = y) then l' else y :: list_remove_first x l'
  end.

(** The dict that [get_member_tags] hands out.  When the file is missing it
    is [DEFAULT_MEMBER_TAGS.copy()], a shallow copy: its lists are the very
    list objects of the module global, and [tags_shared] records that. *)
Record member_tags_view : Type := TagsView {
  tags_of : gmap string (list string);
  tags_shared : bool
}.

Section Subsystems.
Context `{!Env}.

Definition save_subsystems (subsystems_data : list SubSystem) : M unit :=
  _ ← log (EvFileWrite SUBSYSTEMS_FILE);
  modify (with_subsystems_file (Some subsystems_data)).

Definition get_subsystems : M (list SubSystem) :=
  file ← gets subsystems_file;
  match file with
  | None => _ ← save_subsystems DEFAULT_SUBSYSTEMS; mret DEFAULT_SUBSYSTEMS
  | Some subsystems_data => mret subsystems_data
  end.

Definition save_member_tags (member_tags : gmap string (list string)) : M unit :=
  _ ← log (EvFileWrite MEMBER_TAGS_FILE);
  modify (with_member_tags_file (Some member_tags)).

Definition get_member_tags : M member_tags_view :=
  file ← gets member_tags_file;
  match file with
  | None =>
      defaults ← gets default_member_tags;
      _ ← save_member_tags defaults;
      mret (TagsView defaults true)
  | Some member_tags => mret (TagsView member_tags false)
  end.

Definition get_member_tags_by_id (member_id member_name : json)
  : M (list string) :=
  member_tags ← get_member_tags;
  by_name ← lift (py_key (tags_of member_tags) member_name);
  match by_name with
  | Some tags => mret tags
  | None =>
      by_id ← lift (py_key (tags_of member_tags) member_id);
      match by_id with
      | Some tags => mret tags
      | None => mret []
      end
  end.

Definition update_member_tags (member_identifier : string) (tags : list string)
  : M bool :=
  member_tags ← get_member_tags;
  _ ← save_member_tags (<[member_identifier := tags]> (tags_of member_tags));
  mret true.

(** A list of the view was changed in place: when the view shares its lists
    with [DEFAULT_MEMBER_TAGS], the global sees the change too. *)
Definition mutate_shared_list (view : member_tags_view) (key : string)
    (l : list string) : M unit :=
  if tags_shared view
  then modify (λ w, with_default_member_tags
                      (<[key := l]> (default_member_tags w)) w)
  else mret tt.

Definition add_member_tag (member_identifier tag : string) : M bool :=
  member_tags ← get_member_tags;
  match tags_of member_tags !! member_identifier with
  | None =>
      (* member_tags[member_identifier] = [] : a fresh list, then append *)
      _ ← save_member_tags (<[member_identifier := [tag]]> (tags_of member_tags));
      mret true
  | Some l =>
      if bool_decide (tag ∉ l) then
        _ ← mutate_shared_list member_tags member_identifier (l ++ [tag]);
        _ ← save_member_tags
              (<[member_identifier := (l ++ [tag])]> (tags_of member_tags));
        mret true
      else mret false
  end.

Definition remove_member_tag (member_identifier tag : string) : M bool :=
  member_tags ← get_member_tags;
  match tags_of member_tags !! member_identifier with
  | Some l =>
      if bool_decide (tag ∈ l) then
        _ ← mutate_shared_list member_tags member_identifier
              (list_remove_first tag l);
        _ ← save_member_tags
              (<[member_identifier := list_remove_first tag l]>
                 (tags_of member_tags));
        mret true
      else mret false
  | None => mret false
  end.

Definition validate_subsystem_tag (tag : string) : M bool :=
  subsystems ← get_subsystems;
  mret (bool_decide (tag ∈ ((label <$> subsystems) ++ ["host"]))).

(** The body of the loop of [enrich_members_with_tags]. *)
Definition enrich_member (member : json) : M json :=
  member_name ← lift (py_get_default member "name" (JStr ""));
  member_id ← lift (py_get_default member "id" (JStr ""));
  tags ← get_member_tags_by_id member_id member_name;
  match member with
  | JDict d => mret (JDict (<["tags" := JList (JStr <$> tags)]> d))
  | _ => raise TypeError
  end.

Definition enrich_members_with_tags (members : list json) : M (list json) :=
  for_collect members enrich_member.

End Subsystems.

(** ** main.py: the connection registry *)

Module ConnectionManager.
Section Manager.
Context `{!Env}.

(** [ConnectionManager.__init__] *)
Definition init : gmap string (gset conn) :=
  {[ "all" := ∅; "authenticated" := ∅ ]}.

(** [self.active_connections[group]] *)
Definition group_set (group : string) : M (gset conn) :=
  a ← gets active_connections;
  match a !! group with
  | Some s => mret s
  | None => raise (KeyError group)
  end.

Definition accept (websocket : conn) : M unit := λ w,
  let '(r, n) := ws_accept websocket (net w) in (r, with_net n w).

Definition connect (websocket : conn) (group : string) : M unit :=
  _ ← accept websocket;
  s ← group_set group;
  modify (λ w, with_active_connections
                 (<[group := s ∪ {[websocket]}]> (active_connections w)) w).

Definition disconnect (websocket : conn) (group : string) : M unit :=
  s ← group_set group;
  _ ← modify (λ w, with_active_connections
                     (<[group := s ∖ {[websocket]}]> (active_connections w)) w);
  (* for group_set in self.active_connections.values(): discard *)
  modify (λ w, with_active_connections
                 ((λ group_set, group_set ∖ {[websocket]})
                    <$> active_connections w) w).

Definition send_text (connection : conn) (message : string) : M send_outcome :=
  λ w, let '(o, n) := ws_send_text connection message (net w) in
       (Ok o, with_net n (with_trace (trace w ++ [EvSend connection message o]) w)).

(** The first loop of [broadcast]: try every connection, remember the ones
    whose send raised. *)
Fixpoint broadcast_sends (connections : list conn) (message : string)
    (disconnected : gset conn) : M (gset conn) :=
  match connections with
  | [] => mret disconnected
  | connection :: rest =>
      o ← send_text connection message;
      match o with
      | Sent => broadcast_sends rest message disconnected
      | SendDisconnected | SendFailed _ =>
          broadcast_sends rest message (disconnected ∪ {[connection]})
      end
  end.

Definition broadcast (message : string) (group : string) : M unit :=
  _ ← log (EvBroadcast group message);
  s ← group_set group;
  disconnected ← broadcast_sends (elements s) message ∅;
  for_each (elements disconnected) (λ c, disconnect c group).

Definition broadcast_json (data : json) (group : string) : M unit :=
  broadcast (json_dumps data) group.

End Manager.
End ConnectionManager.

(** ** main.py: broadcast helpers and the mutating endpoints *)

Section Main.
Context `{!Env}.

(** [data or {}] *)
Definition or_empty_dict (data : json) : json :=
  if truthy data then data else JDict ∅.

Definition broadcast_frontend_update (data_type : string) (data : json)
  : M unit :=
  t ← gets now;
  ConnectionManager.broadcast_json
    (JDict {[ "type" := JStr data_type;
              "timestamp" := JStr (isoformat t);
              "data" := or_empty_dict data ]})
    "all".

Definition broadcast_fronting_update (fronters_data : json) : M unit :=
  broadcast_frontend_update "fronting_update" fronters_data.

Definition broadcast_mental_state_update (mental_state_data : json) : M unit :=
  broadcast_frontend_update "mental_state_update" mental_state_data.

(** [except Exception as e: raise HTTPException(status_code=500, detail=str(e))] *)
Definition reraise_as_500 {A} (e : exn) : M A :=
  raise (HTTPException 500 (str_exn e)).

(** [except HTTPException as http_exc: raise http_exc] followed by
    [except Exception as e: raise HTTPException(500, prefix + str(e))] *)
Definition reraise_http_or_500 {A} (prefix : string) (e : exn) : M A :=
  match e with
  | HTTPException _ _ => raise e
  | _ => raise (HTTPException 500 (prefix +:+ str_exn e))
  end.

(** [POST /api/switch].  [request] is what [await request.json()] yields. *)
Definition switch_front (request : result json) : M json :=
  try_except
    (body ← lift request;
     member_ids ← lift (py_get_default body "members" (JList []));
     match member_ids with
     | JList ids =>
         if bool_decide (MAX_FRONTERS < length ids) then
           raise (HTTPException 400
                    ("Cannot have more than " +:+ pretty MAX_FRONTERS
                     +:+ " members fronting at once"))
         else
           _ ← set_front member_ids;
           fronters_data ← get_fronters;
           _ ← broadcast_fronting_update fronters_data;
           mret (JDict {[ "status" := JStr "success";
                          "message" := JStr "Front updated successfully" ]})
     | _ =>
         raise (HTTPException 400 "'members' must be a list of member IDs")
     end)
    reraise_as_500.

(** [POST /api/switch_front] *)
Definition switch_single_front (request : result json) : M json :=
  try_except
    (body ← lift request;
     member_id ← lift (py_get body "member_id");
     if negb (truthy member_id) then
       raise (HTTPException 400 "member_id is required")
     else
       result ← set_front (JList [member_id]);
       fronters_data ← get_fronters;
       _ ← broadcast_fronting_update fronters_data;
       mret (JDict {[ "success" := JBool true;
                      "message" := JStr "Front updated";
                      "data" := result ]}))
    (reraise_http_or_500 "Failed to switch front: ").

(** The inner loop of [switch_multiple_fronters]: the first member with this
    id, reduced to id, name and display name. *)
Fixpoint find_switching_member (all_members : list json) (member_id : json)
  : result (option json) :=
  match all_members with
  | [] => Ok None
  | member :: rest =>
      m_id ← py_get member "id";
      if py_eq m_id member_id then
        name ← py_get member "name";
        display_name ← py_get_default member "display_name" name;
        Ok (Some (JDict {[ "id" := m_id; "name" := name;
                           "display_name" := display_name ]}))
      else find_switching_member rest member_id
  end.

(** The outer loop of [switch_multiple_fronters]. *)
Fixpoint switching_members_of (all_members : json) (member_ids : list json)
  : result (list json) :=
  match member_ids with
  | [] => Ok []
  | member_id :: rest =>
      ms ← py_iter all_members;
      found ← find_switching_member ms member_id;
      others ← switching_members_of all_members rest;
      Ok (from_option (λ m, [m]) [] found ++ others)
  end.

(** [POST /api/multi_switch]; FastAPI hands over [data] as a dict. *)
Definition switch_multiple_fronters (data : gmap string json) : M json :=
  try_except
    (match default (JList []) (data !! "member_ids") with
     | JList ids =>
         if bool_decide (MAX_FRONTERS < length ids) then
           raise (HTTPException 400
                    ("Cannot have more than " +:+ pretty MAX_FRONTERS
                     +:+ " members fronting at once"))
         else
           all_members ← get_members;
           switching_members ← lift (switching_members_of all_members ids);
           _ ← set_front (JList ids);
           fronters_data ← get_fronters;
           _ ← broadcast_fronting_update fronters_data;
           mret (JDict {[ "status" := JStr "success";
                          "message" := JStr "Fronters updated successfully";
                          "fronters" := JList switching_members;
                          "count" := JNum (Z.of_nat (length switching_members)) ]})
     | _ => raise (HTTPException 400 "'member_ids' must be a list")
     end)
    reraise_as_500.

(** [state.dict()] with [updated_at] turned into its ISO text *)
Definition mental_state_data (state : MentalState) : json :=
  JDict {[ "level" := JStr (level state);
           "updated_at" := JStr (isoformat (updated_at state));
           "notes" := from_option JStr JNull (notes state) ]}.

(** [POST /api/mental-state] *)
Definition update_mental_state (state : MentalState) (user : User) : M json :=
  if negb (is_admin user) then
    raise (HTTPException 403 "Admin privileges required")
  else
    try_except
      (_ ← log (EvFileWrite MENTAL_STATE_FILE);
       _ ← modify (with_mental_state_file (Some (mental_state_data state)));
       _ ← broadcast_mental_state_update (mental_state_data state);
       mret (JDict {[ "success" := JBool true;
                      "message" := JStr "Mental state updated" ]}))
      (λ e, raise (HTTPException 500
                     ("Failed to update mental state: " +:+ str_exn e))).

(** The validation loop of [update_member_tag_list]. *)
Fixpoint validate_tags (tags : list string) : M unit :=
  match tags with
  | [] => mret tt
  | tag :: rest =>
      valid ← validate_subsystem_tag tag;
      if valid : bool then validate_tags rest
      else raise (HTTPException 400
                    ("Invalid tag '" +:+ tag
                     +:+ "'. Must be one of: pets, valorant, vocaloids, host"))
  end.

(** [POST /api/member-tags/{member_identifier}] *)
Definition update_member_tag_list (member_identifier : string)
    (tags : list string) (user : User) : M json :=
  if negb (is_admin user) then
    raise (HTTPException 403 "Admin privileges required")
  else
    try_except
      (_ ← validate_tags tags;
       success ← update_member_tags member_identifier tags;
       if success : bool then
         (* Clear member cache to reflect changes *)
         _ ← set_in_cache "members_raw" JNull 0;
         mret (JDict {[ "status" := JStr "success";
                        "message" := JStr ("Updated tags for " +:+ member_identifier);
                        "tags" := JList (JStr <$> tags) ]})
       else raise (HTTPException 500 "Failed to update member tags"))
      (reraise_http_or_500 "Failed to update member tags: ").

(** [POST /api/member-tags/{member_identifier}/add] *)
Definition add_single_member_tag (member_identifier tag : string)
    (user : User) : M json :=
  if negb (is_admin user) then
    raise (HTTPException 403 "Admin privileges required")
  else
    try_except
      (valid ← validate_subsystem_tag tag;
       if negb valid then
         raise (HTTPException 400
                  ("Invalid tag '" +:+ tag
                   +:+ "'. Must be one of: pets, valorant, vocaloids, host"))
       else
         success ← add_member_tag member_identifier tag;
         if success : bool then
           (* Clear member cache to reflect changes *)
           _ ← set_in_cache "members_raw" JNull 0;
           mret (JDict {[ "status" := JStr "success";
                          "message" := JStr ("Added tag '" +:+ tag +:+ "' to "
                                             +:+ member_identifier) ]})
         else
           mret (JDict {[ "status" := JStr "info";
                          "message" := JStr ("Tag '" +:+ tag
                                             +:+ "' already exists for "
                                             +:+ member_identifier) ]}))
      (reraise_http_or_500 "Failed to add member tag: ").

(** [DELETE /api/member-tags/{member_identifier}/{tag}] *)
Definition remove_single_member_tag (member_identifier tag : string)
    (user : User) : M json :=
  if negb (is_admin user) then
    raise (HTTPException 403 "Admin privileges required")
  else
    try_except
      (success ← remove_member_tag member_identifier tag;
       if success : bool then
         (* Clear member cache to reflect changes *)
         _ ← set_in_cache "members_raw" JNull 0;
         mret (JDict {[ "status" := JStr "success";
                        "message" := JStr ("Removed tag '" +:+ tag +:+ "' from "
                                           +:+ member_identifier) ]})
       else
         raise (HTTPException 404
                  ("Tag '" +:+ tag +:+ "' not found for " +:+ member_identifier)))
      (reraise_http_or_500 "Failed to remove member tag: ").

End Main.

(** ** More of subsystems.py *)

Section SubsystemsViews.
Context `{!Env}.

(** [initialize_default_subsystems]: creates the two files when they are
    missing (the messages it prints are left out). *)
Definition initialize_default_subsystems : M unit :=
  sfile ← gets subsystems_file;
  _ ← (if sfile is None then save_subsystems DEFAULT_SUBSYSTEMS else mret tt);
  tfile ← gets member_tags_file;
  if tfile is None then
    defaults ← gets default_member_tags;
    save_member_tags defaults
  else mret tt.

(** [{**member, "tags": tags}] *)
Definition with_tags (member : json) (tags : list string) : M json :=
  match member with
  | JDict d => mret (JDict (<["tags" := JList (JStr <$> tags)]> d))
  | _ => raise TypeError
  end.

(** The loop of [filter_members_by_subsystem]. *)
Fixpoint filter_members_loop (members : list json) (subsystem_filter : string)
    (include_untagged : bool) : M (list json) :=
  match members with
  | [] => mret []
  | member :: rest =>
      member_name ← lift (py_get_default member "name" (JStr ""));
      member_id ← lift (py_get_default member "id" (JStr ""));
      tags ← get_member_tags_by_id member_id member_name;
      kept ← (if bool_decide (subsystem_filter ∈ tags) then
                member_with_tags ← with_tags member tags;
                mret [member_with_tags]
              else if include_untagged && bool_decide (tags = []) then
                member_with_tags ← with_tags member [];
                mret [member_with_tags]
              else mret []);
      filtered_members ← filter_members_loop rest subsystem_filter include_untagged;
      mret (kept ++ filtered_members)
  end.

(** [filter_members_by_subsystem]; the filter is [None] or a string. *)
Definition filter_members_by_subsystem (members : list json)
    (subsystem_filter : option string) (include_untagged : bool)
  : M (list json) :=
  match subsystem_filter with
  | None => mret members
  | Some f =>
      if decide (f = "") then mret members
      else
        _ ← get_member_tags;
        filter_members_loop members f include_untagged
  end.

(** [result[key].append(x)] *)
Definition group_append (result : gmap string (list json)) (key : string)
    (x : json) : M (gmap string (list json)) :=
  match result !! key with
  | Some l => mret (<[key := l ++ [x]]> result)
  | None => raise (KeyError key)
  end.

(** The loop over the tags of one member in [get_members_by_subsystem]. *)
Fixpoint group_by_tags (tags : list string) (member_with_tags : json)
    (result : gmap string (list json)) : gmap string (list json) :=
  match tags with
  | [] => result
  | tag :: rest =>
      group_by_tags rest member_with_tags
        match result !! tag with
        | Some l => <[tag := l ++ [member_with_tags]]> result
        | None =>
            if decide (tag = "host")
            then <["host" := [member_with_tags]]> result
            else result
        end
  end.

(** The loop over the members in [get_members_by_subsystem]. *)
Fixpoint group_members_loop (members : list json)
    (result : gmap string (list json)) : M (gmap string (list json)) :=
  match members with
  | [] => mret result
  | member :: rest =>
      member_name ← lift (py_get_default member "name" (JStr ""));
      member_id ← lift (py_get_default member "id" (JStr ""));
      tags ← get_member_tags_by_id member_id member_name;
      member_with_tags ← with_tags member tags;
      result' ← (if bool_decide (tags = [])
                 then group_append result "untagged" member_with_tags
                 else mret (group_by_tags tags member_with_tags result));
      group_members_loop rest result'
  end.

(** [result = {}; for subsystem in subsystems: result[subsystem.label] = [];
    result["untagged"] = []] *)
Definition empty_groups (subsystems : list SubSystem)
  : gmap string (list json) :=
  <["untagged" := []]>
    (foldl (λ result subsystem, <[label subsystem := []]> result) ∅ subsystems).

Definition get_members_by_subsystem (members : list json)
  : M (gmap string (list json)) :=
  _ ← get_member_tags;
  subsystems ← get_subsystems;
  group_members_loop members (empty_groups subsystems).

End SubsystemsViews.

(** ** More of main.py *)

(** The value of [raise] for a send that did not go through. *)
Definition outcome_exn (o : send_outcome) : option exn :=
  match o with
  | Sent => None
  | SendDisconnected => Some WebSocketDisconnect
  | SendFailed e => Some e
  end.

Section Sockets.
Context `{!Env}.
Import ConnectionManager.

(** [ConnectionManager.send_personal_message] *)
Definition send_personal_message (message : string) (websocket : conn)
  : M unit :=
  o ← send_text websocket message;
  match o with
  | Sent => mret tt
  | SendDisconnected | SendFailed _ => disconnect websocket "all"
  end.

(** The loop of [broadcast_to_interested_clients]: a connection whose send
    raises is disconnected on the spot. *)
Fixpoint interested_sends (connections : list conn) (json_message : string)
  : M unit :=
  match connections with
  | [] => mret tt
  | connection :: rest =>
      o ← send_text connection json_message;
      _ ← match o with
          | Sent => mret tt
          | SendDisconnected | SendFailed _ =>
              disconnect connection "authenticated"
          end;
      interested_sends rest json_message
  end.

(** [ConnectionManager.broadcast_to_interested_clients] *)
Definition broadcast_to_interested_clients (member_ids : list string)
    (message_type : string) (data : json) : M unit :=
  t ← gets now;
  s ← group_set "authenticated";
  interested_sends (elements s)
    (json_dumps
       (JDict {[ "type" := JStr message_type;
                 "timestamp" := JStr (isoformat t);
                 "data" := or_empty_dict data;
                 "related_members" := JList (JStr <$> member_ids) ]})).

(** [await websocket.send_text(text)], as a statement that may raise. *)
Definition send_or_raise (websocket : conn) (message : string) : M unit :=
  o ← send_text websocket message;
  match outcome_exn o with
  | None => mret tt
  | Some e => raise e
  end.

(** The [while True] loop of [websocket_endpoint].  [incoming] are the texts
    that [receive_text] yields, one after the other, before it raises
    [ending]; the loop has no other way to end than an exception. *)
Fixpoint receive_loop (websocket : conn) (incoming : list string)
    (ending : exn) : M unit :=
  match incoming with
  | [] => raise ending
  | data :: rest =>
      _ ← (if decide (data = "ping") then send_or_raise websocket "pong"
           else mret tt);
      receive_loop websocket rest ending
  end.

(** [websocket_endpoint]: both handlers call [manager.disconnect(websocket)]. *)
Definition websocket_endpoint (websocket : conn) (incoming : list string)
    (ending : exn) : M unit :=
  _ ← connect websocket "all";
  try_except (receive_loop websocket incoming ending)
    (λ _, disconnect websocket "all").

(** [GET /api/fronters] *)
Definition fronters : M json :=
  try_except get_fronters
    (λ e, raise (HTTPException 500 ("Failed to fetch fronters: " +:+ str_exn e))).

(** [POST /api/admin/refresh] *)
Definition admin_refresh (user : User) : M json :=
  if negb (is_admin user) then
    raise (HTTPException 403 "Admin privileges required")
  else
    try_except
      (_ ← broadcast_frontend_update "force_refresh"
             (JDict {[ "message" := JStr "Admin initiated refresh" ]});
       mret (JDict {[ "success" := JBool true;
                      "message" := JStr "Refresh broadcast sent" ]}))
      (λ e, raise (HTTPException 500
                     ("Failed to broadcast refresh: " +:+ str_exn e))).

End Sockets.

(** [member[key]]: a dict without the key raises [KeyError]; nothing else
    can be subscripted with a string. *)
Definition py_getitem (v : json) (k : string) : result json :=
  match v with
  | JDict d => from_option Ok (Exc (KeyError k)) (d !! k)
  | _ => Exc TypeError
  end.

Section MemberDetail.
Context `{!Env}.
(** [str.lower], Python's own *)
Variable str_lower : string → string.

(** [v.lower()]: only strings have it. *)
Definition py_lower (v : json) : result string :=
  match v with
  | JStr s => Ok (str_lower s)
  | _ => Exc AttributeError
  end.

(** The loop of [member_detail]. *)
Fixpoint find_member_detail (members : list json) (member_id : string)
  : result (option json) :=
  match members with
  | [] => Ok None
  | member :: rest =>
      m_id ← py_getitem member "id";
      if py_eq m_id (JStr member_id) then Ok (Some member)
      else
        m_name ← py_getitem member "name";
        lowered ← py_lower m_name;
        if decide (lowered = str_lower member_id) then Ok (Some member)
        else find_member_detail rest member_id
  end.

(** [GET /api/member/{member_id}] *)
Definition member_detail (member_id : string) : M json :=
  try_except
    (members ← get_members;
     items ← lift (py_iter members);
     found ← lift (find_member_detail items member_id);
     match found with
     | Some member => mret member
     | None => raise (HTTPException 404 "Member not found")
     end)
    (λ e, raise (HTTPException 500
                   ("Failed to fetch member details: " +:+ str_exn e))).

End MemberDetail.

(** *** [normalize_hex], the helper of [serve_member_page] *)

(** the character "#" (code 35) *)
Definition hash_char : Ascii.ascii :=
  Ascii.Ascii true true false false false true false false.

(** [color.lstrip("#")] *)
Fixpoint lstrip_hash (s : string) : string :=
  match s with
  | String a s' => if decide (a = hash_char) then lstrip_hash s' else s
  | EmptyString => EmptyString
  end.

(** [ch in "0123456789abcdefABCDEF"] *)
Definition is_hex_digit (a : Ascii.ascii) : bool :=
  bool_decide (a ∈ String.list_ascii_of_string "0123456789abcdefABCDEF").

(** [ch.upper()] on ASCII *)
Definition ascii_upper (a : Ascii.ascii) : Ascii.ascii :=
  let n := Ascii.nat_of_ascii a in
  if bool_decide (97 ≤ n ≤ 122)%nat then Ascii.ascii_of_nat (n - 32) else a.

Fixpoint string_upper (s : string) : string :=
  match s with
  | EmptyString => EmptyString
  | String a s' => String (ascii_upper a) (string_upper s')
  end.

Definition DEFAULT_COLOR : string := "#FF69B4".

(** [normalize_hex(color, default)]; [color] is any Python value. *)
Definition normalize_hex (color : json) (default : string) : string :=
  match color with
  | JStr s =>
      if decide (s = "") then default
      else
        let c := lstrip_hash s in
        if bool_decide (String.length c = 6)
           && forallb is_hex_digit (String.list_ascii_of_string c)
        then String hash_char (string_upper c)
        else default
  | _ => default
  end.

(** ** A small concrete environment

    An upstream service that knows two members and answers the switch
    request with a status code of its own choosing, and a network on which
    the sockets listed in its state are dead.  The examples below run the
    code in this environment. *)

Module Demo.

Definition members_doc : json :=
  JList [ JDict {[ "id" := JStr "abcde"; "name" := JStr "system" ]};
          JDict {[ "id" := JStr "fghij"; "name" := JStr "Jinx" ]} ].

Definition fronters_doc : json :=
  JDict {[ "id" := JStr "sw1";
           "members" := JList [ JDict {[ "id" := JStr "abcde";
                                         "name" := JStr "system" ]} ] ]}.

(** The upstream answers every GET with status 200 and the name of the
    document as its body; the POST is answered with the status held in the
    upstream state, and an empty body. *)
Definition upstream (rq : http_request) (st : nat)
  : result response * nat * nat :=
  if decide (req_method rq = "POST") then (Ok (Response st ""), st, 1)
  else if decide (req_url rq = BASE_URL +:+ "/systems/@me/members")
  then (Ok (Response 200 "members"), st, 1)
  else if decide (req_url rq = BASE_URL +:+ "/systems/@me/fronters")
  then (Ok (Response 200 "fronters"), st, 1)
  else (Ok (Response 404 ""), st, 1).

Definition loads (body : string) : option json :=
  if decide (body = "members") then Some members_doc
  else if decide (body = "fronters") then Some fronters_doc
  else None.

(** Only the ["type"] of an envelope is kept as its text. *)
Definition dumps (v : json) : string :=
  match v with
  | JDict d => match d !! "type" with Some (JStr t) => t | _ => "" end
  | _ => ""
  end.

Definition exn_text (e : exn) : string :=
  match e with
  | PyException msg => msg
  | HTTPException s d => pretty s +:+ ": " +:+ d
  | _ => "error"
  end.

Definition socket_send (c : conn) (message : string) (dead : gset conn)
  : send_outcome * gset conn :=
  if decide (c ∈ dead) then (SendFailed (RuntimeError "closed"), dead)
  else (Sent, dead).

Definition socket_accept (c : conn) (dead : gset conn) : result unit * gset conn :=
  (Ok tt, dead).

Definition env : Env := {|
  Remote := nat;
  Net := gset conn;
  http_send := upstream;
  ws_send_text := socket_send;
  ws_accept := socket_accept;
  is_error_status := λ s, bool_decide (400 ≤ s)%nat;
  json_loads := loads;
  json_dumps := dumps;
  str_exn := exn_text;
  isoformat := pretty;
  MAX_FRONTERS := 5;
  CACHE_TTL := 30
|}.

(** The process right after start-up, at time 1000: empty cache, no
    subscriber, no file yet below [dough-data/]; the upstream will answer a
    switch with [post_status]. *)
Definition start (post_status : nat) : @world env :=
  @World env 1000 ∅ post_status ∅ ConnectionManager.init
    None DEFAULT_MEMBER_TAGS None None [].

End Demo.

(** ** Vocabulary of the properties *)

(** The events a run added to the trace. *)
Definition new_events `{!Env} (before after : world) : list event :=
  drop (length (trace before)) (trace after).

(** The tag map a call of [get_member_tags] works on: the content of the
    file, or the defaults when there is no file yet. *)
Definition loaded_member_tags `{!Env} (w : world) : gmap string (list string) :=
  default (default_member_tags w) (member_tags_file w).

(** [member_identifier in member_tags and tag in member_tags[member_identifier]] *)
Definition has_tag (m : gmap string (list string)) (member_identifier tag : string)
  : bool :=
  match m !! member_identifier with
  | Some l => bool_decide (tag ∈ l)
  | None => false
  end.

(** The request that [set_front] sends. *)
Definition switch_request (member_ids : json) : http_request :=
  HttpRequest "POST" (BASE_URL +:+ "/systems/@me/switches")
    (Some (JDict {["members" := member_ids]})).

(** The request with which [get_members] asks for the member list. *)
Definition members_request : http_request :=
  HttpRequest "GET" (BASE_URL +:+ "/systems/@me/members") None.

(** A member record as the upstream sends it: a dict whose ["name"], if any,
    is not itself a list or a dict. *)
Definition is_member_record (m : json) : bool :=
  match m with
  | JDict d =>
      match default JNull (d !! "name") with
      | JList _ | JDict _ => false
      | _ => true
      end
  | _ => false
  end.

(** Where [get_members] takes the raw member list from when the processed
    tier misses: the raw tier of the cache, or else the upstream. *)
Inductive members_source `{!Env} (w : world) (data : json) : Prop :=
  | raw_cached :
      cache_hit (Cache.get (cache w) (now w) "members_raw") = Some data →
      members_source w data
  | raw_fetched resp rem dt :
      cache_hit (Cache.get (cache w) (now w) "members_raw") = None →
      http_send members_request (remote w) = (Ok resp, rem, dt) →
      is_error_status (status_code resp) = false →
      json_loads (text resp) = Some data →
      members_source w data.

(** What the sockets answer when a message is sent to a list of connections
    one after the other, and the network afterwards. *)
Fixpoint send_all `{!Env} (connections : list conn) (message : string)
    (n : Net) : list (conn * send_outcome) * Net :=
  match connections with
  | [] => ([], n)
  | c :: rest =>
      let '(o, n1) := ws_send_text c message n in
      let '(os, n2) := send_all rest message n1 in
      ((c, o) :: os, n2)
  end.

(** The connections whose send raised. *)
Definition failed_of (outcomes : list (conn * send_outcome)) : gset conn :=
  list_to_set (filter (λ p, p.2 ≠ Sent) outcomes).*1.

Definition send_event (message : string) (p : conn * send_outcome) : event :=
  EvSend p.1 message p.2.

(** The four kinds of step of a state-mutating operation, read off the
    events: a mutation of the source of truth (a request to the upstream that
    is not a GET, or a write to a local file), a cache invalidation (a cache
    write with ttl 0 or value null), a step of a read (a cache lookup, a GET,
    a cache fill), a step of a broadcast. *)
Definition is_mutation (e : event) : bool :=
  match e with
  | EvHttp rq => bool_decide (req_method rq ≠ "GET")
  | EvFileWrite _ => true
  | _ => false
  end.


Definition is_reread (e : event) : bool :=
  match e with
  | EvCacheRead _ => true
  | EvCacheWrite _ _ _ => true
  | EvHttp rq => bool_decide (req_method rq = "GET")
  | _ => false
  end.

Definition is_broadcast (e : event) : bool :=
  match e with
  | EvBroadcast _ _ => true
  | EvSend _ _ _ => true
  | _ => false
  end.

Definition all_events (P : event → bool) (evs : list event) : Prop :=
  Forall (λ e, P e = true) evs.




(** [emits P w w']: from [w] to [w'] the trace grew by events that all
    satisfy [P]. *)
Definition emits `{!Env} (P : event → bool) (w w' : world) : Prop :=
  ∃ evs, trace w' = trace w ++ evs ∧ all_events P evs.

(** [keeps R m]: the world after a run of [m] is related by [R] to the world
    before it, whatever the outcome. *)
Definition keeps `{!Env} {A} (R : relation world) (m : M A) : Prop :=
  ∀ w, R w (m w).2.

(** From [w] to [w'] only local files were written: the clock and the cache
    are as before. *)
Definition local_write_only `{!Env} (w w' : world) : Prop :=
  now w' = now w ∧ cache w' = cache w ∧ emits is_mutation w w'.

(** What a run of one of the tag endpoints does to the cache: after writes to
    the local files, either its one cache write, the invalidation of
    ["members_raw"], or no cache write at all. *)
Definition tag_write_outcome `{!Env} (w w' : world) : Prop :=
  now w' = now w
  ∧ ∃ mu,
      all_events is_mutation mu
      ∧ ((new_events w w' = mu ++ [EvCacheWrite "members_raw" JNull 0]
          ∧ cache w' = Cache.set (cache w) (now w) "members_raw" JNull 0)
         ∨ (new_events w w' = mu ∧ cache w' = cache w)).

(** The raw tier of the member cache is absent, now and later. *)
Definition raw_tier_invalidated `{!Env} (w : world) : Prop :=
  ∀ t, Cache.get (cache w) t "members_raw" = None.

(** The processed list [v] is visible in the cache, and [get_members] returns
    it from there: one cache lookup, no request to the upstream. *)
Definition processed_tier_serves `{!Env} (w : world) (v : json) : Prop :=
  cache_hit (Cache.get (cache w) (now w) "members") = Some v
  ∧ (get_members w).1 = Ok v
  ∧ new_events w (get_members w).2 = [EvCacheRead "members"].



(** The request with which [get_fronters] asks for the current front. *)
Definition fronters_request : http_request :=
  HttpRequest "GET" (BASE_URL +:+ "/systems/@me/fronters") None.

(** The exception that [switch_front] and [switch_multiple_fronters] raise
    for a list that is too long. *)
Definition too_many_fronters `{!Env} : exn :=
  HTTPException 400
    ("Cannot have more than " +:+ pretty MAX_FRONTERS
     +:+ " members fronting at once").

(** *** Vocabulary of the further properties *)

(** The world once [get_member_tags] has been called: the tag file exists. *)
Definition tags_file_ensured `{!Env} (w : world) : world :=
  (get_member_tags w).2.

(** The labels that [validate_subsystem_tag] accepts besides "host". *)
Definition subsystem_labels `{!Env} (w : world) : list string :=
  label <$> default DEFAULT_SUBSYSTEMS (subsystems_file w).

Definition valid_tag `{!Env} (w : world) (tag : string) : Prop :=
  tag ∈ subsystem_labels w ++ ["host"].

(** [d.get(k, "")] *)
Definition key_of (d : gmap string json) (k : string) : json :=
  default (JStr "") (d !! k).

(** A value that can be looked up in a dict without [TypeError]. *)
Definition hashable (v : json) : bool :=
  match v with
  | JList _ | JDict _ => false
  | _ => true
  end.

(** A member that the tag functions can handle: a dict whose name and
    identifier are hashable. *)
Definition taggable (m : json) : bool :=
  match m with
  | JDict d => hashable (key_of d "name") && hashable (key_of d "id")
  | _ => false
  end.

(** The entry of the tag map [tm] under the Python value [k], if any. *)
Definition tag_entry (tm : gmap string (list string)) (k : json)
  : option (list string) :=
  match k with
  | JStr s => tm !! s
  | _ => None
  end.

(** The tags of the member [d] in the tag map [tm]: those under its name,
    else those under its identifier, else none. *)
Definition tags_for (tm : gmap string (list string)) (d : gmap string json)
  : list string :=
  match tag_entry tm (key_of d "name") with
  | Some tags => tags
  | None => default [] (tag_entry tm (key_of d "id"))
  end.

(** [{**member, "tags": tags}] for the tags of the member in [tm] *)
Definition tagged (tm : gmap string (list string)) (d : gmap string json)
  : json :=
  JDict (<["tags" := JList (JStr <$> tags_for tm d)]> d).

(** The world once [get_subsystems] has been called: the sub-system file
    exists. *)
Definition subsystems_file_ensured `{!Env} (w : world) : world :=
  (get_subsystems w).2.

(** The detail of the error for a tag that is not valid. *)
Definition invalid_tag_detail (tag : string) : string :=
  "Invalid tag '" +:+ tag
  +:+ "'. Must be one of: pets, valorant, vocaloids, host".

(** The tags of a member in the tag map [tm], and the member with its tags
    attached. *)
Definition member_tags_of (tm : gmap string (list string)) (member : json)
  : list string :=
  match member with
  | JDict d => tags_for tm d
  | _ => []
  end.

Definition with_tags_of (tm : gmap string (list string)) (member : json)
  : json :=
  match member with
  | JDict d => tagged tm d
  | _ => member
  end.

(** The test of [filter_members_by_subsystem]: the member has the tag of the
    filter, or it has no tag at all and untagged members are asked for. *)
Definition passes_filter (tm : gmap string (list string))
    (subsystem_filter : string) (include_untagged : bool) (member : json)
  : bool :=
  bool_decide (subsystem_filter ∈ member_tags_of tm member)
  || include_untagged && bool_decide (member_tags_of tm member = []).

(** How many times [get_members_by_subsystem] puts a member into the group
    [key]: once for every occurrence of [key] among its tags, and once into
    "untagged" when it has no tag. *)
Definition times_in_group (tm : gmap string (list string)) (key : string)
    (member : json) : nat :=
  length (filter (λ tag, tag = key) (member_tags_of tm member))
  + (if bool_decide (key = "untagged" ∧ member_tags_of tm member = [])
     then 1 else 0).

(** The content of the group [key], in the order of the member list. *)
Definition group_content (tm : gmap string (list string)) (key : string)
    (members : list json) : list json :=
  members ≫= λ member,
    replicate (times_in_group tm key member) (with_tags_of tm member).

(** The keys of the result of [get_members_by_subsystem]: the labels of the
    sub-systems, "untagged", and "host" once a member has that tag. *)
Definition is_group (tm : gmap string (list string)) (labels : list string)
    (members : list json) (key : string) : Prop :=
  key ∈ labels ∨ key = "untagged"
  ∨ (key = "host" ∧ Exists (λ member, "host" ∈ member_tags_of tm member) members).

(** The request with which [get_system] asks the upstream. *)
Definition system_request : http_request :=
  HttpRequest "GET" (BASE_URL +:+ "/systems/@me") None.

(** The world in which the caller goes on once the upstream has answered the
    request [rq]: [dt] seconds later, with the upstream in the state [rem]. *)
Definition answered `{!Env} (rq : http_request) (rem : Remote) (dt : nat)
    (w : world) : world :=
  with_now (now w + dt)
    (with_remote rem (with_trace (trace w ++ [EvHttp rq]) w)).

(** The upstream answers the request [rq] with the JSON value [data]. *)
Definition fetched `{!Env} (w : world) (rq : http_request) (data : json)
    (rem : Remote) (dt : nat) : Prop :=
  ∃ resp,
    http_send rq (remote w) = (Ok resp, rem, dt)
    ∧ is_error_status (status_code resp) = false
    ∧ json_loads (text resp) = Some data.

(** The request [rq] does not yield a JSON value: the transport fails, the
    status is an error status, or the body is not JSON. *)
Inductive fetch_fails `{!Env} (w : world) (rq : http_request) (e : exn)
    (rem : Remote) (dt : nat) : Prop :=
  | transport_fails :
      http_send rq (remote w) = (Exc e, rem, dt) →
      fetch_fails w rq e rem dt
  | status_is_error resp :
      http_send rq (remote w) = (Ok resp, rem, dt) →
      is_error_status (status_code resp) = true →
      e = HTTPStatusError (status_code resp) →
      fetch_fails w rq e rem dt
  | body_is_not_json resp :
      http_send rq (remote w) = (Ok resp, rem, dt) →
      is_error_status (status_code resp) = false →
      json_loads (text resp) = None →
      e = JSONDecodeError →
      fetch_fails w rq e rem dt.

(** The three readers of [pluralkit.py], the request each one sends and the
    cache keys it looks up before sending it. *)
Inductive reader : Type := ReadSystem | ReadMembers | ReadFronters.

Definition read `{!Env} (r : reader) : M json :=
  match r with
  | ReadSystem => get_system
  | ReadMembers => get_members
  | ReadFronters => get_fronters
  end.

Definition request_of (r : reader) : http_request :=
  match r with
  | ReadSystem => system_request
  | ReadMembers => members_request
  | ReadFronters => fronters_request
  end.

Definition keys_of (r : reader) : list string :=
  match r with
  | ReadSystem => ["system"]
  | ReadMembers => ["members"; "members_raw"]
  | ReadFronters => ["fronters"]
  end.

(** The cache has nothing to offer under [key]: no visible entry, or one
    whose value is falsy. *)
Definition misses `{!Env} (w : world) (key : string) : Prop :=
  cache_hit (Cache.get (cache w) (now w) key) = None.

(** [v.get(k)] for a dict. *)
Definition field (v : json) (k : string) : json :=
  match v with
  | JDict d => default JNull (d !! k)
  | _ => JNull
  end.

Definition is_dict (v : json) : bool :=
  match v with
  | JDict _ => true
  | _ => false
  end.

(** [m.get("id") == member.get("id")] *)
Definition same_id (member m : json) : bool :=
  py_eq (field m "id") (field member "id").

(** What [get_fronters] puts in the place of the fronter [member]: the first
    processed member with the same identifier, if there is one and it is
    truthy, else the record of the upstream. *)
Definition resolved (all_members : list json) (member : json) : json :=
  match find (same_id member) all_members with
  | Some m => if truthy m then m else member
  | None => member
  end.

(** The message that [broadcast_to_interested_clients] sends. *)
Definition interested_message `{!Env} (t : nat) (member_ids : list string)
    (message_type : string) (data : json) : string :=
  json_dumps
    (JDict {[ "type" := JStr message_type;
              "timestamp" := JStr (isoformat t);
              "data" := or_empty_dict data;
              "related_members" := JList (JStr <$> member_ids) ]}).

(** From [w] to [w'] the registry has the same groups, and no group has a
    connection that it did not have before. *)
Definition registry_shrinks `{!Env} (w w' : world) : Prop :=
  ∀ g,
    match active_connections w !! g, active_connections w' !! g with
    | Some s, Some s' => s' ⊆ s
    | None, None => True
    | _, _ => False
    end.

(** What [main.py] does with the registry, [connect] on its own apart: the
    methods of the manager, the WebSocket endpoint and the broadcast
    helper. *)
Inductive registry_op : Type :=
  | OpDisconnect (websocket : conn) (group : string)
  | OpSendPersonalMessage (message : string) (websocket : conn)
  | OpBroadcast (message : string) (group : string)
  | OpBroadcastJson (data : json) (group : string)
  | OpBroadcastToInterestedClients (member_ids : list string)
      (message_type : string) (data : json)
  | OpWebsocketEndpoint (websocket : conn) (incoming : list string)
      (ending : exn)
  | OpBroadcastFrontendUpdate (data_type : string) (data : json).

Definition run_op `{!Env} (op : registry_op) : M unit :=
  match op with
  | OpDisconnect websocket group => ConnectionManager.disconnect websocket group
  | OpSendPersonalMessage message websocket =>
      send_personal_message message websocket
  | OpBroadcast message group => ConnectionManager.broadcast message group
  | OpBroadcastJson data group => ConnectionManager.broadcast_json data group
  | OpBroadcastToInterestedClients member_ids message_type data =>
      broadcast_to_interested_clients member_ids message_type data
  | OpWebsocketEndpoint websocket incoming ending =>
      websocket_endpoint websocket incoming ending
  | OpBroadcastFrontendUpdate data_type data =>
      broadcast_frontend_update data_type data
  end.

(** The message that [broadcast_frontend_update] sends at time [t]. *)
Definition frontend_message `{!Env} (t : nat) (data_type : string)
    (data : json) : string :=
  json_dumps
    (JDict {[ "type" := JStr data_type;
              "timestamp" := JStr (isoformat t);
              "data" := or_empty_dict data ]}).

(** The exception that [set_front] raises for an answer it does not
    accept. *)
Definition switch_refused (resp : response) : exn :=
  PyException ("Failed to set front: " +:+ pretty (status_code resp)
               +:+ " - " +:+ text resp).

(** The name of a member record, when it is a string. *)
Definition name_of (member : json) : string :=
  match field member "name" with
  | JStr n => n
  | _ => ""
  end.

(** A member record that [member_detail] can test: a dict with an "id" and
    with a "name" that is a string. *)
Definition has_id_and_name (member : json) : bool :=
  match member with
  | JDict d =>
      bool_decide (is_Some (d !! "id"))
      && match d !! "name" with
         | Some (JStr _) => true
         | _ => false
         end
  | _ => false
  end.

(** [member["id"] == member_id or member["name"].lower() == member_id.lower()] *)
Definition is_asked_for (str_lower : string → string) (member_id : string)
    (member : json) : bool :=
  py_eq (field member "id") (JStr member_id)
  || bool_decide (str_lower (name_of member) = str_lower member_id).

(** A colour as the member page wants it: "#" and six upper-case
    hexadecimal digits. *)
Definition is_upper_hex (a : Ascii.ascii) : bool :=
  bool_decide (a ∈ String.list_ascii_of_string "0123456789ABCDEF").

Definition is_canonical_color (s : string) : bool :=
  match s with
  | String a c =>
      bool_decide (a = hash_char)
      && bool_decide (String.length c = 6)
      && forallb is_upper_hex (String.list_ascii_of_string c)
  | EmptyString => false
  end.

(** *** A second concrete environment

    An upstream whose system has no member yet: it answers the request for
    the system with a small document and the request for the members with
    the empty list.  The sockets are those of [Demo]. *)

Module EmptySystem.

Definition system_doc : json :=
  JDict {[ "id" := JStr "sys"; "name" := JStr "Doughmination" ]}.

Definition empty_upstream (rq : http_request) (st : nat)
  : result response * nat * nat :=
  if decide (req_method rq = "POST") then (Ok (Response st ""), st, 1)
  else if decide (req_url rq = BASE_URL +:+ "/systems/@me")
  then (Ok (Response 200 "system"), st, 2)
  else if decide (req_url rq = BASE_URL +:+ "/systems/@me/members")
  then (Ok (Response 200 "nobody"), st, 2)
  else (Ok (Response 404 ""), st, 2).

Definition empty_loads (body : string) : option json :=
  if decide (body = "system") then Some system_doc
  else if decide (body = "nobody") then Some (JList [])
  else None.

Definition empty_env : Env := {|
  Remote := nat;
  Net := gset conn;
  http_send := empty_upstream;
  ws_send_text := Demo.socket_send;
  ws_accept := Demo.socket_accept;
  is_error_status := λ s, bool_decide (400 ≤ s)%nat;
  json_loads := empty_loads;
  json_dumps := Demo.dumps;
  str_exn := Demo.exn_text;
  isoformat := pretty;
  MAX_FRONTERS := 5;
  CACHE_TTL := 30
|}.

(** The process right after start-up, at time 1000. *)
Definition empty_start : @world empty_env :=
  @World empty_env 1000 ∅ 200 ∅ ConnectionManager.init
    None DEFAULT_MEMBER_TAGS None None [].

End EmptySystem.

(** ** Properties *)

Section TagStore.
Context `{!Env}.

Lemma get_member_tags_run w :
  get_member_tags w =
  match member_tags_file w with
  | Some m => (Ok (TagsView m false), w)
  | None =>
      (Ok (TagsView (default_member_tags w) true),
       with_member_tags_file (Some (default_member_tags w))
         (with_trace (trace w ++ [EvFileWrite MEMBER_TAGS_FILE]) w))
  end.
Proof.
  unfold get_member_tags, mbind, M_bind, gets.
  destruct (member_tags_file w); reflexivity.
Qed.

(** What [get_member_tags_by_id] returns, for string arguments: the list
    under the name if there is one, else the list under the identifier, else
    the empty list. *)
Lemma get_member_tags_by_id_value w member_id member_name :
  (get_member_tags_by_id (JStr member_id) (JStr member_name) w).1 =
  Ok match loaded_member_tags w !! member_name with
     | Some tags => tags
     | None => default [] (loaded_member_tags w !! member_id)
     end.
Proof.
  unfold get_member_tags_by_id, mbind at 1, M_bind.
  rewrite get_member_tags_run. unfold loaded_member_tags.
  destruct (member_tags_file w) as [m|]; simpl;
    unfold mbind, M_bind, lift, py_key; simpl.
  - destruct (m !! member_name); [done|]. by destruct (m !! member_id).
  - destruct (default_member_tags w !! member_name); [done|].
    by destruct (default_member_tags w !! member_id).
Qed.

(** C7 (as amended).  When both the member's identifier and the member's name
    are keys of the tag map, [get_member_tags_by_id] returns the list stored
    under the name, and [enrich_members_with_tags] attaches that list: the
    name takes precedence over the identifier. *)
Theorem tags_resolved_by_name_first w (d : gmap string json)
    member_id member_name tags_id tags_name :
  loaded_member_tags w !! member_id = Some tags_id →
  loaded_member_tags w !! member_name = Some tags_name →
  (get_member_tags_by_id (JStr member_id) (JStr member_name) w).1
    = Ok tags_name
  ∧ (d !! "id" = Some (JStr member_id) →
     d !! "name" = Some (JStr member_name) →
     (enrich_member (JDict d) w).1
       = Ok (JDict (<["tags" := JList (JStr <$> tags_name)]> d))).
Proof.
  intros Hid Hname.
  pose proof (get_member_tags_by_id_value w member_id member_name) as Hv.
  rewrite Hname in Hv. split; [exact Hv|].
  intros Hdi Hdn.
  unfold enrich_member, mbind, M_bind, lift, py_get_default.
  rewrite Hdn, Hdi. simpl.
  fold (@mbind M _).
  destruct (get_member_tags_by_id (JStr member_id) (JStr member_name) w)
    as [[tags|e] w'] eqn:Hrun; simpl in Hv; by simplify_eq.
Qed.

(** The whole run of [remove_member_tag], by cases on the file. *)
Lemma remove_member_tag_run w member_identifier tag :
  remove_member_tag member_identifier tag w =
  match member_tags_file w with
  | Some m =>
      match m !! member_identifier with
      | Some l =>
          if bool_decide (tag ∈ l)
          then (Ok true,
                with_member_tags_file
                  (Some (<[member_identifier := list_remove_first tag l]> m))
                  (with_trace (trace w ++ [EvFileWrite MEMBER_TAGS_FILE]) w))
          else (Ok false, w)
      | None => (Ok false, w)
      end
  | None =>
      let w1 := with_member_tags_file (Some (default_member_tags w))
                  (with_trace (trace w ++ [EvFileWrite MEMBER_TAGS_FILE]) w) in
      match default_member_tags w !! member_identifier with
      | Some l =>
          if bool_decide (tag ∈ l)
          then (Ok true,
                with_member_tags_file
                  (Some (<[member_identifier := list_remove_first tag l]>
                           (default_member_tags w)))
                  (with_trace (trace w1 ++ [EvFileWrite MEMBER_TAGS_FILE])
                     (with_default_member_tags
                        (<[member_identifier := list_remove_first tag l]>
                           (default_member_tags w)) w1)))
          else (Ok false, w1)
      | None => (Ok false, w1)
      end
  end.
Proof.
  unfold remove_member_tag, mbind at 1, M_bind.
  rewrite get_member_tags_run.
  destruct (member_tags_file w) as [m|]; simpl.
  - destruct (m !! member_identifier) as [l|]; [|done].
    by case_bool_decide.
  - destruct (default_member_tags w !! member_identifier) as [l|]; [|done].
    by case_bool_decide.
Qed.

(** C10 (as amended).  [remove_member_tag] returns [True] exactly when the
    identifier is a key of the loaded tag map and the tag is in its list, and
    then persists the map with the first occurrence of the tag removed, the
    write being the last thing it does.  Otherwise it returns [False] and the loaded map is the same afterwards:
    when the file exists nothing at all has changed; when it does not,
    [get_member_tags] has created it with the defaults, which is the one
    write of the failure path. *)
Theorem remove_member_tag_outcome w member_identifier tag :
  let m := loaded_member_tags w in
  let out := remove_member_tag member_identifier tag w in
  out.1 = Ok (has_tag m member_identifier tag)
  ∧ if has_tag m member_identifier tag
    then member_tags_file out.2
         = Some (<[member_identifier :=
                     list_remove_first tag (default [] (m !! member_identifier))]> m)
         ∧ last (trace out.2) = Some (EvFileWrite MEMBER_TAGS_FILE)
    else loaded_member_tags out.2 = m
         ∧ match member_tags_file w with
           | Some _ => out.2 = w
           | None =>
               out.2 = with_member_tags_file (Some (default_member_tags w))
                         (with_trace (trace w ++ [EvFileWrite MEMBER_TAGS_FILE]) w)
           end.
Proof.
  cbv zeta. rewrite remove_member_tag_run.
  unfold loaded_member_tags, has_tag.
  destruct (member_tags_file w) as [m|] eqn:Hf; simpl.
  - destruct (m !! member_identifier) as [l|] eqn:Hl; simpl.
    + case_bool_decide; simpl; [by rewrite last_snoc|]. by rewrite Hf.
    + by rewrite Hf.
  - destruct (default_member_tags w !! member_identifier) as [l|] eqn:Hl; simpl.
    + case_bool_decide; simpl; [by rewrite last_snoc|done].
    + done.
Qed.

End TagStore.

(** *** Reasoning about runs *)

Section Runs.
Context `{!Env}.

Lemma new_events_app (w w' : world) evs :
  trace w' = trace w ++ evs → new_events w w' = evs.
Proof. intros Ht. unfold new_events. rewrite Ht. apply drop_app_length. Qed.


Lemma keeps_modify (R : relation world) (f : world → world) :
  (∀ w, R w (f w)) → keeps R (modify f).
Proof. intros Hf w. apply Hf. Qed.


Context (R : relation world) `{!PreOrder R}.

Lemma bind_run {A B} (m : M A) (f : A → M B) (w : world) :
  (m ≫= f) w =
  match m w with
  | (Ok a, w') => f a w'
  | (Exc e, w') => (Exc e, w')
  end.
Proof. reflexivity. Qed.

Lemma keeps_ret {A} (a : A) : keeps R (mret a).
Proof. intros w. simpl. reflexivity. Qed.

Lemma keeps_raise {A} e : keeps R (raise (A:=A) e).
Proof. intros w. simpl. reflexivity. Qed.

Lemma keeps_lift {A} (r : result A) : keeps R (lift r).
Proof. intros w. simpl. reflexivity. Qed.

Lemma keeps_gets {A} (f : world → A) : keeps R (gets f).
Proof. intros w. simpl. reflexivity. Qed.

Lemma keeps_bind {A B} (m : M A) (f : A → M B) :
  keeps R m → (∀ a, keeps R (f a)) → keeps R (m ≫= f).
Proof.
  intros Hm Hf w. unfold mbind, M_bind. specialize (Hm w).
  destruct (m w) as [[a|e] w1]; simpl in *; [|done].
  transitivity w1; [done|apply Hf].
Qed.

Lemma keeps_try_except {A} (m : M A) (h : exn → M A) :
  keeps R m → (∀ e, keeps R (h e)) → keeps R (try_except m h).
Proof.
  intros Hm Hh w. unfold try_except. specialize (Hm w).
  destruct (m w) as [[a|e] w1]; simpl in *; [done|].
  transitivity w1; [done|apply Hh].
Qed.


End Runs.

(** *** The cache store *)

Section CacheStore.
Context `{!Env}.

(** An invalidated key is absent at every later instant. *)
Lemma cache_get_invalidated (c : gmap string CacheEntry) t t' key :
  Cache.get (Cache.set c t key JNull 0) t' key = None.
Proof.
  unfold Cache.get.
  replace (Cache.set c t key JNull 0) with (<[key := Entry JNull 0]> c)
    by reflexivity.
  rewrite lookup_insert_eq. cbn [value expiry].
  by rewrite bool_decide_eq_false_2 by lia.
Qed.

(** Every key is its own unit of consistency: a write to one key leaves the
    others as they were. *)
Lemma cache_get_set_ne (c : gmap string CacheEntry) t t' key key' v ttl :
  key ≠ key' → Cache.get (Cache.set c t key v ttl) t' key' = Cache.get c t' key'.
Proof.
  intros Hne. unfold Cache.get, Cache.set.
  case_bool_decide; by rewrite lookup_insert_ne.
Qed.

Lemma set_in_cache_run key v ttl (w : world) :
  set_in_cache key v ttl w =
  (Ok tt, with_cache (Cache.set (cache w) (now w) key v ttl)
            (with_trace (trace w ++ [EvCacheWrite key v ttl]) w)).
Proof. reflexivity. Qed.

Lemma get_from_cache_run key (w : world) :
  get_from_cache key w =
  (Ok (Cache.get (cache w) (now w) key),
   with_trace (trace w ++ [EvCacheRead key]) w).
Proof. reflexivity. Qed.

End CacheStore.

(** *** The upstream client *)

Section Upstream.
Context `{!Env}.

Lemma client_request_run rq (w : world) :
  client_request rq w =
  let '(r, rem, dt) := http_send rq (remote w) in
  (r, with_now (now w + dt)
        (with_remote rem (with_trace (trace w ++ [EvHttp rq]) w))).
Proof. reflexivity. Qed.

Lemma set_front_result_keeps_world resp (w : world) :
  (set_front_result resp w).2 = w.
Proof.
  unfold set_front_result, resp_json.
  repeat case_bool_decide; try done. by destruct (json_loads (text resp)).
Qed.

Lemma not_200_204 (s : nat) :
  bool_decide (s ∉ [200; 204]) = negb (bool_decide (s = 200 ∨ s = 204)).
Proof.
  rewrite <- bool_decide_not. apply bool_decide_ext.
  rewrite !elem_of_cons, elem_of_nil. tauto.
Qed.

(** C6 (as amended).  Once the upstream has answered the switch request,
    [set_front] raises an error carrying the status and the body unless the
    status is 200 or 204; for these two it returns the decoded body when the
    body is not empty, else [None]. *)
Theorem set_front_outcome (w : world) member_ids resp rem dt :
  http_send (switch_request member_ids) (remote w) = (Ok resp, rem, dt) →
  (set_front member_ids w).1 =
  if bool_decide (status_code resp = 200 ∨ status_code resp = 204)
  then if bool_decide (text resp = "") then Ok JNull
       else match json_loads (text resp) with
            | Some body => Ok body
            | None => Exc JSONDecodeError
            end
  else Exc (PyException ("Failed to set front: " +:+ pretty (status_code resp)
                         +:+ " - " +:+ text resp)).
Proof.
  intros Hsend.
  unfold set_front. unfold mbind at 1, M_bind. rewrite set_in_cache_run.
  unfold mbind, M_bind.
  change (client_post _ _) with (client_request (switch_request member_ids)).
  rewrite client_request_run. cbn [remote with_cache with_trace].
  rewrite Hsend.
  unfold set_front_result, resp_json.
  rewrite not_200_204.
  destruct (bool_decide (status_code resp = 200 ∨ status_code resp = 204));
    cbn [negb]; [|done].
  rewrite bool_decide_not.
  destruct (bool_decide (text resp = "")); cbn [negb]; [done|].
  by destruct (json_loads (text resp)).
Qed.

(** **** The member list *)

Lemma map_result_lookup {A B} (f : A → result B) l out i x :
  map_result f l = Ok out → l !! i = Some x →
  ∃ y, f x = Ok y ∧ out !! i = Some y.
Proof.
  revert out i. induction l as [|a l IH]; intros out i Hm Hi; [done|].
  simpl in Hm. unfold mbind, result_bind in Hm.
  destruct (f a) as [b|] eqn:Hfa; [|done].
  destruct (map_result f l) as [bs|] eqn:Hrest; [|done].
  simplify_eq. destruct i as [|i]; simpl in *.
  - simplify_eq. eauto.
  - eapply IH; eauto.
Qed.

Lemma map_result_total {A B} (f : A → result B) l :
  Forall (λ x, is_ok (f x) = true) l →
  ∃ out, map_result f l = Ok out ∧ length out = length l.
Proof.
  induction 1 as [|a l Ha _ (out & Hout & Hlen)]; [by exists []|].
  simpl. unfold mbind, result_bind.
  destruct (f a) as [b|]; [|done]. rewrite Hout.
  exists (b :: out). simpl. by rewrite Hlen.
Qed.

Lemma process_member_record m :
  is_member_record m = true → is_ok (process_member m) = true.
Proof.
  destruct m as [| | | | |d]; try done. unfold is_member_record.
  unfold process_member, py_get, py_get_default, mbind, result_bind.
  destruct (default JNull (d !! "name")) as [| | |s| |]; try done.
  simpl. by destruct (SPECIAL_DISPLAY_NAMES !! s).
Qed.

Lemma process_member_system (d : gmap string json) :
  d !! "name" = Some (JStr "system") →
  process_member (JDict d)
  = Ok (JDict (<["original_name" := JStr "system"]>
              (<["is_special" := JBool true]>
              (<["display_name" := JStr "Unsure"]> d)))).
Proof.
  intros Hn. unfold process_member, py_get, py_get_default, mbind, result_bind.
  by rewrite Hn.
Qed.

(** On a miss of the processed tier [get_members] returns the processed raw
    list, whichever tier the raw list came from. *)
Lemma get_members_processes_raw (w : world) data :
  cache_hit (Cache.get (cache w) (now w) "members") = None →
  members_source w data →
  (get_members w).1 =
  match process_members data with
  | Ok l => Ok (JList l)
  | Exc e => Exc e
  end.
Proof.
  intros Hmiss Hsrc.
  unfold get_members. unfold mbind at 1, M_bind.
  rewrite get_from_cache_run, Hmiss.
  unfold get_members_from_raw. unfold mbind at 1, M_bind.
  rewrite get_from_cache_run. cbn [cache now with_trace].
  destruct Hsrc as [Hraw | resp rem dt Hraw Hsend Herr Hjson]; rewrite Hraw.
  - unfold mbind, M_bind, mret, M_ret, lift. cbn.
    destruct (process_members data); [|done]. by rewrite set_in_cache_run.
  - unfold mbind at 1, M_bind. unfold mbind at 1, M_bind.
    unfold client_get. fold members_request.
    rewrite client_request_run. cbn [remote with_trace]. rewrite Hsend.
    unfold raise_for_status. rewrite Herr.
    unfold resp_json. rewrite Hjson.
    unfold mbind, M_bind, mret, M_ret, lift. cbn.
    rewrite set_in_cache_run.
    destruct (process_members data); [|done]. by rewrite set_in_cache_run.
Qed.

(** C9 (as amended).  When the processed tier misses and every record of the
    raw list is a member record, the list that [get_members] returns has, at
    the place of a record named "system", that record with display name
    "Unsure", [is_special] true and [original_name] "system"; every other
    field of the record is unchanged. *)
Theorem system_member_shown_as_Unsure (w : world) items i
    (d : gmap string json) :
  cache_hit (Cache.get (cache w) (now w) "members") = None →
  members_source w (JList items) →
  Forall (λ m, is_member_record m = true) items →
  items !! i = Some (JDict d) →
  d !! "name" = Some (JStr "system") →
  ∃ l (d' : gmap string json),
    (get_members w).1 = Ok (JList l)
    ∧ length l = length items
    ∧ l !! i = Some (JDict d')
    ∧ d' !! "display_name" = Some (JStr "Unsure")
    ∧ d' !! "is_special" = Some (JBool true)
    ∧ d' !! "original_name" = Some (JStr "system")
    ∧ ∀ k, k ∉ ["display_name"; "is_special"; "original_name"] →
           d' !! k = d !! k.
Proof.
  intros Hmiss Hsrc Hrec Hi Hname.
  destruct (map_result_total process_member items) as (l & Hl & Hlen).
  { eapply Forall_impl; [exact Hrec|]. intros m. apply process_member_record. }
  destruct (map_result_lookup _ _ _ _ _ Hl Hi) as (y & Hy & Hli).
  rewrite (process_member_system d Hname) in Hy. simplify_eq.
  eexists l, _. split.
  { rewrite (get_members_processes_raw w (JList items) Hmiss Hsrc).
    unfold process_members, py_iter, mbind, result_bind. by rewrite Hl. }
  split; [done|]. split; [exact Hli|].
  split; [by rewrite lookup_insert_ne, lookup_insert_ne, lookup_insert_eq|].
  split; [by rewrite lookup_insert_ne, lookup_insert_eq|].
  split; [by rewrite lookup_insert_eq|].
  intros k Hk. rewrite !not_elem_of_cons in Hk. destruct Hk as (?&?&?&_).
  by rewrite !lookup_insert_ne.
Qed.

End Upstream.

(** *** The connection registry *)

Section Registry.
Context `{!Env}.
Import ConnectionManager.

Lemma group_set_run group (w : world) :
  group_set group w =
  match active_connections w !! group with
  | Some s => (Ok s, w)
  | None => (Exc (KeyError group), w)
  end.
Proof.
  unfold group_set. rewrite bind_run. cbn.
  by destruct (active_connections w !! group).
Qed.

Lemma with_active_connections_id (w : world) :
  with_active_connections (active_connections w) w = w.
Proof. by destruct w. Qed.

Lemma discard_all_after_discard (a : gmap string (gset conn)) g s (c : conn) :
  a !! g = Some s →
  (λ x : gset conn, x ∖ {[c]}) <$> <[g := s ∖ {[c]}]> a
  = (λ x : gset conn, x ∖ {[c]}) <$> a.
Proof.
  intros Hg. apply map_eq. intros k. rewrite !lookup_fmap.
  destruct (decide (g = k)) as [->|Hne].
  - rewrite lookup_insert_eq, Hg. simpl. by rewrite difference_twice_L.
  - by rewrite lookup_insert_ne.
Qed.

Lemma disconnect_run (w : world) c g s :
  active_connections w !! g = Some s →
  disconnect c g w
  = (Ok tt, with_active_connections
              ((λ x : gset conn, x ∖ {[c]}) <$> active_connections w) w).
Proof.
  intros Hg. unfold disconnect. rewrite bind_run, group_set_run, Hg.
  rewrite bind_run. unfold modify. cbn.
  by rewrite (discard_all_after_discard _ _ _ _ Hg).
Qed.

Lemma disconnect_unregistered_group (w : world) c g :
  active_connections w !! g = None →
  disconnect c g w = (Exc (KeyError g), w).
Proof.
  intros Hg. unfold disconnect. by rewrite bind_run, group_set_run, Hg.
Qed.



(** **** Broadcast *)

Lemma send_all_conns l message (n : Net) : (send_all l message n).1.*1 = l.
Proof.
  revert n. induction l as [|c l IH]; intros n; [done|]. simpl.
  destruct (ws_send_text c message n) as [o n1]. specialize (IH n1).
  destruct (send_all l message n1) as [os n2]. cbn [fst snd] in *.
  rewrite fmap_cons. cbn [fst]. by rewrite IH.
Qed.

Lemma failed_of_cons c o os :
  failed_of ((c, o) :: os)
  = if decide (o = Sent) then failed_of os else {[c]} ∪ failed_of os.
Proof.
  unfold failed_of. rewrite filter_cons. simpl.
  destruct (decide (o = Sent)) as [->|Hne].
  - by rewrite decide_False by (by intros []).
  - by rewrite decide_True by done.
Qed.

Lemma elem_of_failed_of c os :
  c ∈ failed_of os ↔ ∃ o, o ≠ Sent ∧ (c, o) ∈ os.
Proof.
  unfold failed_of. rewrite elem_of_list_to_set, list_elem_of_fmap. split.
  - intros ([c' o] & -> & Hin). apply list_elem_of_filter in Hin as [Hne Hin].
    by exists o.
  - intros (o & Hne & Hin). exists (c, o). split; [done|].
    by apply list_elem_of_filter.
Qed.

Lemma outcome_unique (os : list (conn * send_outcome)) c o o' :
  NoDup os.*1 → (c, o) ∈ os → (c, o') ∈ os → o = o'.
Proof.
  induction os as [|[c0 o0] os IH]; intros Hnd Ho Ho'.
  - by apply elem_of_nil in Ho.
  - simpl in Hnd. apply NoDup_cons in Hnd as [Hnotin Hnd].
    apply elem_of_cons in Ho as [Ho|Ho], Ho' as [Ho'|Ho']; simplify_eq.
    + done.
    + exfalso. apply Hnotin. apply list_elem_of_fmap. by exists (c0, o').
    + exfalso. apply Hnotin. apply list_elem_of_fmap. by exists (c0, o).
    + by apply IH.
Qed.

Lemma broadcast_sends_run l message acc (w : world) :
  broadcast_sends l message acc w =
  (Ok (acc ∪ failed_of (send_all l message (net w)).1),
   with_net (send_all l message (net w)).2
     (with_trace
        (trace w ++ (send_event message <$> (send_all l message (net w)).1)) w)).
Proof.
  revert acc w. induction l as [|c l IH]; intros acc w.
  - simpl. unfold failed_of. simpl. rewrite (right_id_L ∅ (∪)), app_nil_r.
    by destruct w.
  - simpl. rewrite bind_run. unfold send_text.
    destruct (ws_send_text c message (net w)) as [o n1] eqn:Hsend.
    assert (∀ acc',
      broadcast_sends l message acc'
        (with_net n1 (with_trace (trace w ++ [EvSend c message o]) w))
      = (Ok (acc' ∪ failed_of (send_all l message n1).1),
         with_net (send_all l message n1).2
           (with_trace
              (trace w ++ EvSend c message o
                 :: (send_event message <$> (send_all l message n1).1)) w)))
      as Hrest.
    { intros acc'. rewrite IH. cbn. by rewrite <- app_assoc. }
    destruct (send_all l message n1) as [os n2] eqn:Hall.
    cbn [fst snd] in *. rewrite failed_of_cons.
    destruct o; rewrite Hrest; cbn; f_equal; f_equal.
    + rewrite decide_False by done. by rewrite (assoc_L (∪)).
    + rewrite decide_False by done. by rewrite (assoc_L (∪)).
Qed.

Lemma for_each_disconnect l g (w : world) :
  is_Some (active_connections w !! g) →
  for_each l (λ c, disconnect c g) w
  = (Ok tt, with_active_connections
              ((λ x : gset conn, x ∖ list_to_set l) <$> active_connections w) w).
Proof.
  revert w. induction l as [|c l IH]; intros w [s Hg].
  - simpl. f_equal. rewrite <- (with_active_connections_id w) at 1. f_equal.
    apply map_eq. intros k. rewrite lookup_fmap.
    destruct (active_connections w !! k); [|done]. simpl.
    by rewrite difference_empty_L.
  - simpl. rewrite bind_run, (disconnect_run w c g s Hg). rewrite IH.
    + cbn [active_connections with_active_connections list_to_set foldr].
      replace ((λ x : gset conn, x ∖ list_to_set l)
                 <$> ((λ x : gset conn, x ∖ {[c]}) <$> active_connections w))
        with ((λ x : gset conn, x ∖ ({[c]} ∪ list_to_set l))
                <$> active_connections w); [done|].
      apply map_eq. intros k. rewrite !lookup_fmap.
      destruct (active_connections w !! k) as [x|]; [|done]. simpl.
      f_equal. by rewrite difference_difference_l_L.
    + cbn. rewrite lookup_fmap, Hg. by eexists.
Qed.

(** The whole run of [broadcast] on a group the registry holds. *)
Lemma broadcast_run message g s (w : world) :
  active_connections w !! g = Some s →
  broadcast message g w =
  let os := (send_all (elements s) message (net w)).1 in
  (Ok tt,
   with_active_connections
     ((λ x : gset conn, x ∖ failed_of os) <$> active_connections w)
     (with_net (send_all (elements s) message (net w)).2
        (with_trace
           (trace w ++ EvBroadcast g message :: (send_event message <$> os))
           w))).
Proof.
  intros Hg. unfold broadcast. rewrite bind_run. cbn.
  rewrite bind_run, group_set_run. cbn. rewrite Hg.
  rewrite bind_run, broadcast_sends_run. cbn.
  rewrite for_each_disconnect by (cbn; by rewrite Hg).
  cbn. rewrite (left_id_L ∅ (∪)), list_to_set_elements_L.
  by rewrite <- app_assoc.
Qed.

(** C4.  A broadcast to a group the registry holds returns normally.  Every
    connection of the group is sent the message, whatever happened to the
    sends before it: either its send succeeds, and it stays in every group it
    was in, or its send raises, and it is removed from every group. *)
Theorem broadcast_isolates_failures (w : world) message group s :
  active_connections w !! group = Some s →
  let run := broadcast message group w in
  let evs := new_events w run.2 in
  run.1 = Ok tt
  ∧ evs = EvBroadcast group message
          :: (send_event message
                <$> (send_all (elements s) message (net w)).1)
  ∧ ∀ c, c ∈ s →
      (EvSend c message Sent ∈ evs
       ∧ ∀ g s0, active_connections w !! g = Some s0 → c ∈ s0 →
                 ∃ s1, active_connections run.2 !! g = Some s1 ∧ c ∈ s1)
      ∨ (∃ o, o ≠ Sent ∧ EvSend c message o ∈ evs
         ∧ ∀ g s1, active_connections run.2 !! g = Some s1 → c ∉ s1).
Proof.
  intros Hg. cbv zeta. rewrite (broadcast_run message group s w Hg).
  cbv zeta. cbn [fst snd].
  set (os := (send_all (elements s) message (net w)).1).
  assert (os.*1 = elements s) as Hconns by apply send_all_conns.
  assert (NoDup os.*1) as Hnd by (rewrite Hconns; apply NoDup_elements).
  split; [done|].
  match goal with |- ?e = _ ∧ _ =>
    assert (e = EvBroadcast group message :: (send_event message <$> os))
      as Hevs by (by apply new_events_app) end.
  split; [exact Hevs|]. rewrite Hevs.
  intros c Hc.
  assert (∃ o, (c, o) ∈ os) as [o Ho].
  { apply elem_of_elements in Hc. rewrite <- Hconns in Hc.
    apply list_elem_of_fmap in Hc as ([c' o] & -> & Hin). by exists o. }
  assert (EvSend c message o
          ∈ EvBroadcast group message :: (send_event message <$> os)) as Hev.
  { apply elem_of_cons. right. apply list_elem_of_fmap. by exists (c, o). }
  destruct (decide (o = Sent)) as [->|Hne].
  - left. split; [exact Hev|]. intros g s0 Hs0 Hin.
    exists (s0 ∖ failed_of os). cbn. rewrite lookup_fmap, Hs0. split; [done|].
    apply elem_of_difference. split; [done|].
    rewrite elem_of_failed_of. intros (o' & Hne & Ho').
    apply Hne. symmetry. by eapply outcome_unique.
  - right. exists o. split; [done|]. split; [exact Hev|].
    intros g s1. cbn. rewrite lookup_fmap.
    destruct (active_connections w !! g) as [s0|]; [|done]. simpl.
    intros [= <-]. apply not_elem_of_difference. right.
    apply elem_of_failed_of. by exists o.
Qed.

End Registry.

(** *** The order of the steps of the mutating endpoints *)

Section Order.
Context `{!Env}.
Import ConnectionManager.

Global Instance emits_preorder P : PreOrder (emits P).
Proof.
  split.
  - intros w. exists []. split; [by rewrite app_nil_r|constructor].
  - intros w1 w2 w3 (e1 & H1 & F1) (e2 & H2 & F2). exists (e1 ++ e2).
    split; [by rewrite H2, H1, app_assoc|by apply Forall_app].
Qed.

Lemma emits_silent P (w w' : world) : trace w' = trace w → emits P w w'.
Proof. intros Ht. exists []. split; [by rewrite app_nil_r|constructor]. Qed.

Lemma emits_one P e (w w' : world) :
  P e = true → trace w' = trace w ++ [e] → emits P w w'.
Proof. intros HP Ht. exists [e]. split; [done|]. by repeat constructor. Qed.

(** One step of the proof that a computation only [emits P]: through the
    monad operations and the case distinctions of the code, down to the
    primitives, which are looked up among the hints. *)
Ltac keeps_step R db :=
  first
    [ solve [auto with db nocore]
    | apply (keeps_ret R) | apply (keeps_raise R) | apply (keeps_lift R)
    | apply (keeps_gets R)
    | apply (keeps_bind R); [|intros ?]
    | apply (keeps_try_except R); [|intros ?]
    | match goal with
      | |- keeps _ (match ?x with _ => _ end) => destruct x
      end ].


(** **** Reads *)

Lemma reads_get_from_cache key : keeps (emits is_reread) (get_from_cache key).
Proof.
  intros w. rewrite get_from_cache_run.
  by apply (emits_one _ (EvCacheRead key)).
Qed.

Lemma reads_set_in_cache key v ttl :
  keeps (emits is_reread) (set_in_cache key v ttl).
Proof.
  intros w. rewrite set_in_cache_run.
  by apply (emits_one _ (EvCacheWrite key v ttl)).
Qed.

Lemma reads_client_get url : keeps (emits is_reread) (client_get url).
Proof.
  intros w. unfold client_get. rewrite client_request_run.
  destruct (http_send _ _) as [[r rem] dt].
  by apply (emits_one _ (EvHttp (HttpRequest "GET" url None))).
Qed.

Lemma reads_raise_for_status resp :
  keeps (emits is_reread) (raise_for_status resp).
Proof. unfold raise_for_status. repeat keeps_step (emits is_reread) core. Qed.

Lemma reads_resp_json resp : keeps (emits is_reread) (resp_json resp).
Proof. unfold resp_json. repeat keeps_step (emits is_reread) core. Qed.

Create HintDb reads discriminated.
Hint Resolve reads_get_from_cache reads_set_in_cache reads_client_get
  reads_raise_for_status reads_resp_json : reads.

Lemma reads_get_members_from_raw : keeps (emits is_reread) get_members_from_raw.
Proof. unfold get_members_from_raw. repeat keeps_step (emits is_reread) reads. Qed.

Lemma reads_get_members : keeps (emits is_reread) get_members.
Proof.
  unfold get_members. pose proof reads_get_members_from_raw.
  repeat keeps_step (emits is_reread) reads; done.
Qed.

Hint Resolve reads_get_members : reads.

(** [get_fronters] starts with the lookup of ["fronters"] and does nothing
    but reading after it. *)
Lemma get_fronters_trace (w : world) :
  ∃ rest,
    trace (get_fronters w).2 = trace w ++ EvCacheRead "fronters" :: rest
    ∧ all_events is_reread rest.
Proof.
  unfold get_fronters. rewrite bind_run, get_from_cache_run.
  set (w1 := with_trace _ w).
  set (k := match cache_hit _ with Some v => _ | None => _ end).
  assert (keeps (emits is_reread) k) as Hk.
  { subst k. repeat keeps_step (emits is_reread) reads. }
  destruct (Hk w1) as (rest & Ht & Hrest). exists rest. split; [|done].
  rewrite Ht. subst w1. cbn. by rewrite <- app_assoc.
Qed.

(** **** Broadcasts *)






(** **** The switch of the front *)

Lemma set_front_trace member_ids (w : world) :
  trace (set_front member_ids w).2
  = trace w ++ [EvCacheWrite "fronters" JNull 0;
                EvHttp (switch_request member_ids)].
Proof.
  unfold set_front. rewrite bind_run, set_in_cache_run, bind_run.
  change (client_post _ _) with (client_request (switch_request member_ids)).
  rewrite client_request_run. cbn [remote with_cache with_trace].
  destruct (http_send _ _) as [[[resp|e] rem] dt].
  - rewrite (surjective_pairing (set_front_result resp _)).
    rewrite set_front_result_keeps_world. cbn. by rewrite <- app_assoc.
  - cbn. by rewrite <- app_assoc.
Qed.






Lemma try_except_http_or_500 {A} prefix (m : M A) (w : world) :
  (try_except m (reraise_http_or_500 prefix) w).2 = (m w).2
  ∧ is_ok (try_except m (reraise_http_or_500 prefix) w).1 = is_ok (m w).1.
Proof. unfold try_except. destruct (m w) as [[a|e] w']; [done|by destruct e]. Qed.




(** **** The local stores *)

Global Instance local_write_only_preorder : PreOrder local_write_only.
Proof.
  split.
  - intros w. repeat split. reflexivity.
  - intros w1 w2 w3 (Hn1 & Hc1 & He1) (Hn2 & Hc2 & He2).
    repeat split; [congruence|congruence|by transitivity w2].
Qed.

Lemma local_log_file path : keeps local_write_only (log (EvFileWrite path)).
Proof.
  apply keeps_modify. intros w. repeat split.
  by apply (emits_one _ (EvFileWrite path)).
Qed.

Lemma local_modify (f : world → world) :
  (∀ w, now (f w) = now w ∧ cache (f w) = cache w ∧ trace (f w) = trace w) →
  keeps local_write_only (modify f).
Proof.
  intros Hf. apply keeps_modify. intros w.
  destruct (Hf w) as (Hn & Hc & Ht). repeat split; [done|done|].
  by apply emits_silent.
Qed.

Lemma local_save_subsystems d : keeps local_write_only (save_subsystems d).
Proof.
  unfold save_subsystems.
  apply (keeps_bind local_write_only); [apply local_log_file|].
  intros _. by apply local_modify.
Qed.

Lemma local_save_member_tags m : keeps local_write_only (save_member_tags m).
Proof.
  unfold save_member_tags.
  apply (keeps_bind local_write_only); [apply local_log_file|].
  intros _. by apply local_modify.
Qed.

Lemma local_mutate_shared_list view key l :
  keeps local_write_only (mutate_shared_list view key l).
Proof.
  unfold mutate_shared_list.
  destruct (tags_shared view); [by apply local_modify|].
  apply (keeps_ret local_write_only).
Qed.

Create HintDb local discriminated.
Hint Resolve local_save_subsystems local_save_member_tags
  local_mutate_shared_list : local.

Lemma local_get_member_tags : keeps local_write_only get_member_tags.
Proof. unfold get_member_tags. repeat keeps_step local_write_only local. Qed.

Lemma local_validate_subsystem_tag tag :
  keeps local_write_only (validate_subsystem_tag tag).
Proof.
  unfold validate_subsystem_tag, get_subsystems.
  repeat keeps_step local_write_only local.
Qed.

Hint Resolve local_get_member_tags local_validate_subsystem_tag : local.

Lemma local_validate_tags tags : keeps local_write_only (validate_tags tags).
Proof.
  induction tags as [|tag tags IH]; [apply (keeps_ret local_write_only)|].
  simpl. repeat keeps_step local_write_only local.
Qed.

Lemma local_update_member_tags member_identifier tags :
  keeps local_write_only (update_member_tags member_identifier tags).
Proof. unfold update_member_tags. repeat keeps_step local_write_only local. Qed.

Lemma local_add_member_tag member_identifier tag :
  keeps local_write_only (add_member_tag member_identifier tag).
Proof. unfold add_member_tag. repeat keeps_step local_write_only local. Qed.

Lemma local_remove_member_tag member_identifier tag :
  keeps local_write_only (remove_member_tag member_identifier tag).
Proof. unfold remove_member_tag. repeat keeps_step local_write_only local. Qed.





(** The sibling endpoint lets its own client error through. *)
Lemma switch_single_front_keeps_400 (w : world) (d : gmap string json) :
  d !! "member_id" = None →
  switch_single_front (Ok (JDict d)) w
  = (Exc (HTTPException 400 "member_id is required"), w).
Proof.
  intros Hd. unfold switch_single_front, try_except.
  rewrite bind_run. cbn [lift]. rewrite bind_run.
  cbn [lift py_get py_get_default]. by rewrite Hd.
Qed.

(** C5 (what the code does).  A request to [POST /api/switch] or to
    [POST /api/multi_switch] with more than [MAX_FRONTERS] members is turned
    down before anything else happens: the world, and with it the upstream,
    is untouched.  The client error 400 that the code raises is however
    caught by the handler of the endpoint and answered as a server error
    500. *)
Theorem over_limit_switch_is_500 (w : world) ids :
  MAX_FRONTERS < length ids →
  (∀ d : gmap string json,
     d !! "members" = Some (JList ids) →
     switch_front (Ok (JDict d)) w
     = (Exc (HTTPException 500 (str_exn too_many_fronters)), w))
  ∧ (∀ data : gmap string json,
       data !! "member_ids" = Some (JList ids) →
       switch_multiple_fronters data w
       = (Exc (HTTPException 500 (str_exn too_many_fronters)), w)).
Proof.
  intros Hlen. split.
  - intros d Hd. unfold switch_front, try_except.
    rewrite bind_run. cbn [lift]. rewrite bind_run. cbn [lift py_get_default].
    rewrite Hd. cbn [default from_option id].
    by rewrite bool_decide_true by done.
  - intros data Hd. unfold switch_multiple_fronters, try_except.
    rewrite Hd. cbn [default from_option id].
    by rewrite bool_decide_true by done.
Qed.

End Order.

(** *** The write paths of the tag endpoints *)

Section TagEndpoints.
Context `{!Env}.

Lemma tag_write_stop (w w1 : world) :
  local_write_only w w1 → tag_write_outcome w w1.
Proof.
  intros (Hn & Hc & mu & Ht & Hmu). split; [done|]. exists mu.
  split; [done|]. right. split; [by apply new_events_app|done].
Qed.

Lemma tag_write_invalidate (w w1 : world) (x : json) :
  local_write_only w w1 →
  let run := (set_in_cache "members_raw" JNull 0 ≫= λ _, mret x) w1 in
  tag_write_outcome w run.2 ∧ raw_tier_invalidated run.2.
Proof.
  intros (Hn & Hc & mu & Ht & Hmu). cbv zeta.
  rewrite bind_run, set_in_cache_run. cbn. split.
  - split; [done|]. exists mu. split; [done|]. left.
    split; [apply new_events_app; cbn; by rewrite Ht, <- app_assoc|].
    by rewrite Hn, Hc.
  - intros t. apply cache_get_invalidated.
Qed.

Lemma tag_write_keeps_processed (w w' : world) v :
  tag_write_outcome w w' →
  cache_hit (Cache.get (cache w) (now w) "members") = Some v →
  processed_tier_serves w' v.
Proof.
  intros (Hn & mu & _ & Hcache) Hhit.
  assert (cache_hit (Cache.get (cache w') (now w') "members") = Some v)
    as Hstill.
  { rewrite Hn. destruct Hcache as [[_ ->]|[_ ->]]; [|done].
    by rewrite cache_get_set_ne. }
  split; [exact Hstill|].
  unfold get_members. rewrite bind_run, get_from_cache_run, Hstill.
  split; [done|]. by apply new_events_app.
Qed.

Lemma update_member_tag_list_cache (w : world) member_identifier tags user :
  let run := update_member_tag_list member_identifier tags user w in
  tag_write_outcome w run.2
  ∧ (is_ok run.1 = true → raw_tier_invalidated run.2).
Proof.
  cbv zeta. unfold update_member_tag_list.
  destruct (negb (is_admin user)); [split; [by apply tag_write_stop|done]|].
  match goal with |- context [try_except ?m _ w] =>
    destruct (try_except_http_or_500 "Failed to update member tags: " m w)
      as [-> ->] end.
  rewrite bind_run.
  pose proof (local_validate_tags tags w) as H1.
  destruct (validate_tags tags w) as [[[]|e] w1]; cbn [snd] in H1;
    [|split; [by apply tag_write_stop|done]].
  rewrite bind_run.
  pose proof (local_update_member_tags member_identifier tags w1) as H2.
  destruct (update_member_tags member_identifier tags w1) as [[[|]|e] w2];
    cbn [snd] in H2;
    assert (local_write_only w w2) as H12 by (by transitivity w1);
    try (split; [by apply tag_write_stop|done]).
  destruct (tag_write_invalidate w w2
              (JDict {[ "status" := JStr "success";
                        "message" := JStr ("Updated tags for " +:+ member_identifier);
                        "tags" := JList (JStr <$> tags) ]}) H12) as [Ho Hr].
  by split.
Qed.

Lemma add_single_member_tag_cache (w : world) member_identifier tag user :
  tag_write_outcome w (add_single_member_tag member_identifier tag user w).2.
Proof.
  unfold add_single_member_tag.
  destruct (negb (is_admin user)); [by apply tag_write_stop|].
  match goal with |- context [try_except ?m _ w] =>
    destruct (try_except_http_or_500 "Failed to add member tag: " m w)
      as [-> _] end.
  rewrite bind_run.
  pose proof (local_validate_subsystem_tag tag w) as H1.
  destruct (validate_subsystem_tag tag w) as [[valid|e] w1]; cbn [snd] in H1;
    [|by apply tag_write_stop].
  destruct valid; cbn [negb]; [|by apply tag_write_stop].
  rewrite bind_run.
  pose proof (local_add_member_tag member_identifier tag w1) as H2.
  destruct (add_member_tag member_identifier tag w1) as [[[|]|e] w2];
    cbn [snd] in H2;
    assert (local_write_only w w2) as H12 by (by transitivity w1);
    try (by apply tag_write_stop).
  apply (tag_write_invalidate w w2 (JDict _) H12).
Qed.

Lemma remove_single_member_tag_cache (w : world) member_identifier tag user :
  let run := remove_single_member_tag member_identifier tag user w in
  tag_write_outcome w run.2
  ∧ (is_ok run.1 = true → raw_tier_invalidated run.2).
Proof.
  cbv zeta. unfold remove_single_member_tag.
  destruct (negb (is_admin user)); [split; [by apply tag_write_stop|done]|].
  match goal with |- context [try_except ?m _ w] =>
    destruct (try_except_http_or_500 "Failed to remove member tag: " m w)
      as [-> ->] end.
  rewrite bind_run.
  pose proof (local_remove_member_tag member_identifier tag w) as H1.
  destruct (remove_member_tag member_identifier tag w) as [[[|]|e] w1];
    cbn [snd] in H1; try (split; [by apply tag_write_stop|done]).
  destruct (tag_write_invalidate w w1
              (JDict {[ "status" := JStr "success";
                        "message" := JStr ("Removed tag '" +:+ tag +:+ "' from "
                                           +:+ member_identifier) ]}) H1)
    as [Ho Hr].
  by split.
Qed.

(** C1 (what the code does).  The three write paths of the tag endpoints
    write at most one cache entry, the invalidation of the raw tier
    ["members_raw"]; a successful update or removal does write it.  None of
    them invalidates the processed tier ["members"]: a processed list that
    was visible before is still visible afterwards, and the next
    [get_members] returns it from the cache, without looking at the raw tier
    and without asking the upstream. *)
Theorem tag_updates_leave_processed_members (w : world) v :
  cache_hit (Cache.get (cache w) (now w) "members") = Some v →
  (∀ member_identifier tags user,
     let run := update_member_tag_list member_identifier tags user w in
     tag_write_outcome w run.2
     ∧ (is_ok run.1 = true → raw_tier_invalidated run.2)
     ∧ processed_tier_serves run.2 v)
  ∧ (∀ member_identifier tag user,
       let run := add_single_member_tag member_identifier tag user w in
       tag_write_outcome w run.2 ∧ processed_tier_serves run.2 v)
  ∧ (∀ member_identifier tag user,
       let run := remove_single_member_tag member_identifier tag user w in
       tag_write_outcome w run.2
       ∧ (is_ok run.1 = true → raw_tier_invalidated run.2)
       ∧ processed_tier_serves run.2 v).
Proof.
  intros Hhit. split; [|split].
  - intros member_identifier tags user run.
    destruct (update_member_tag_list_cache w member_identifier tags user)
      as [Ho Hr].
    split; [exact Ho|]. split; [exact Hr|].
    by apply (tag_write_keeps_processed w).
  - intros member_identifier tag user run.
    pose proof (add_single_member_tag_cache w member_identifier tag user) as Ho.
    split; [exact Ho|]. by apply (tag_write_keeps_processed w).
  - intros member_identifier tag user run.
    destruct (remove_single_member_tag_cache w member_identifier tag user)
      as [Ho Hr].
    split; [exact Ho|]. split; [exact Hr|].
    by apply (tag_write_keeps_processed w).
Qed.

End TagEndpoints.

(** ** Further properties *)

(** *** The tag store *)

Section TagStoreMore.
Context `{!Env}.

Lemma tags_file_ensured_spec (w : world) :
  get_member_tags w
  = (Ok (TagsView (loaded_member_tags w)
           (bool_decide (member_tags_file w = None))),
     tags_file_ensured w)
  ∧ member_tags_file (tags_file_ensured w) = Some (loaded_member_tags w)
  ∧ default_member_tags (tags_file_ensured w) = default_member_tags w
  ∧ subsystems_file (tags_file_ensured w) = subsystems_file w
  ∧ (is_Some (member_tags_file w) → tags_file_ensured w = w).
Proof.
  unfold tags_file_ensured, loaded_member_tags.
  rewrite get_member_tags_run.
  destruct (member_tags_file w) as [m|] eqn:Hf; cbn.
  - repeat split; done.
  - repeat split; try done.
Qed.

Lemma loaded_ensured (w : world) :
  loaded_member_tags (tags_file_ensured w) = loaded_member_tags w.
Proof.
  destruct (tags_file_ensured_spec w) as (_ & Hf & _).
  unfold loaded_member_tags at 1. by rewrite Hf.
Qed.

Lemma ensured_ensured (w : world) :
  tags_file_ensured (tags_file_ensured w) = tags_file_ensured w.
Proof.
  destruct (tags_file_ensured_spec w) as (_ & Hf & _).
  destruct (tags_file_ensured_spec (tags_file_ensured w)) as (_ & _ & _ & _ & Hsame).
  apply Hsame. rewrite Hf. by eexists.
Qed.

(** The whole run of [add_member_tag], by cases on the file. *)
Lemma add_member_tag_run w member_identifier tag :
  add_member_tag member_identifier tag w =
  let m := loaded_member_tags w in
  let w1 := tags_file_ensured w in
  let stored := default [] (m !! member_identifier) ++ [tag] in
  if has_tag m member_identifier tag then (Ok false, w1)
  else
    (Ok true,
     with_member_tags_file (Some (<[member_identifier := stored]> m))
       (with_trace (trace w1 ++ [EvFileWrite MEMBER_TAGS_FILE])
          (if bool_decide (member_tags_file w = None)
              && bool_decide (is_Some (m !! member_identifier))
           then with_default_member_tags
                  (<[member_identifier := stored]> (default_member_tags w)) w1
           else w1))).
Proof.
  cbv zeta. unfold add_member_tag. rewrite bind_run.
  destruct (tags_file_ensured_spec w) as (-> & _ & Hd & _).
  cbn [tags_of tags_shared]. unfold has_tag.
  destruct (loaded_member_tags w !! member_identifier) as [l|] eqn:Hl.
  - rewrite (bool_decide_not (tag ∈ l)).
    destruct (bool_decide (tag ∈ l)); cbn [negb]; [done|].
    rewrite bind_run. unfold mutate_shared_list. cbn [default from_option id].
    rewrite (bool_decide_true (is_Some (Some l))) by (by eexists).
    rewrite andb_true_r.
    destruct (bool_decide (member_tags_file w = None)); cbn.
    + by rewrite Hd.
    + done.
  - rewrite andb_false_r. done.
Qed.

(** X1.  [add_member_tag] returns [True] exactly when the tag is not yet in
    the list of the identifier (an identifier without a list counts as
    having none), and then persists the map with the tag appended to that
    list; when the tag is already there it returns [False] and leaves the
    map as it is.  Adding the same tag again is therefore refused. *)
Theorem add_member_tag_outcome w member_identifier tag :
  let m := loaded_member_tags w in
  let out := add_member_tag member_identifier tag w in
  out.1 = Ok (negb (has_tag m member_identifier tag))
  ∧ loaded_member_tags out.2
    = (if has_tag m member_identifier tag then m
       else <[member_identifier :=
                default [] (m !! member_identifier) ++ [tag]]> m)
  ∧ has_tag (loaded_member_tags out.2) member_identifier tag = true
  ∧ (add_member_tag member_identifier tag out.2).1 = Ok false.
Proof.
  cbv zeta.
  assert (add_member_tag member_identifier tag w
          = add_member_tag member_identifier tag w) as Hrun by done.
  rewrite add_member_tag_run in Hrun at 2. cbv zeta in Hrun.
  assert (loaded_member_tags (add_member_tag member_identifier tag w).2
          = if has_tag (loaded_member_tags w) member_identifier tag
            then loaded_member_tags w
            else <[member_identifier :=
                     default [] (loaded_member_tags w !! member_identifier)
                     ++ [tag]]> (loaded_member_tags w)) as Hloaded.
  { rewrite Hrun.
    destruct (has_tag (loaded_member_tags w) member_identifier tag);
      cbn [snd]; [apply loaded_ensured|done]. }
  assert (has_tag (loaded_member_tags (add_member_tag member_identifier tag w).2)
            member_identifier tag = true) as Hhas.
  { rewrite Hloaded.
    destruct (has_tag (loaded_member_tags w) member_identifier tag) eqn:Hh;
      [done|].
    unfold has_tag. rewrite lookup_insert_eq. apply bool_decide_eq_true.
    apply elem_of_app. right. by apply list_elem_of_singleton. }
  split; [|split; [exact Hloaded|split; [exact Hhas|]]].
  - rewrite Hrun.
    by destruct (has_tag (loaded_member_tags w) member_identifier tag).
  - rewrite add_member_tag_run. cbv zeta. by rewrite Hhas.
Qed.

Lemma list_remove_first_snoc tag (l : list string) :
  tag ∉ l → list_remove_first tag (l ++ [tag]) = l.
Proof.
  induction l as [|x l IH]; intros Hnotin; simpl.
  - by rewrite decide_True.
  - apply not_elem_of_cons in Hnotin as [Hne Hnotin].
    rewrite decide_False by done. by rewrite IH.
Qed.

Lemma remove_member_tag_file_exists w m member_identifier tag :
  member_tags_file w = Some m →
  remove_member_tag member_identifier tag w =
  if has_tag m member_identifier tag
  then (Ok true,
        with_member_tags_file
          (Some (<[member_identifier :=
                     list_remove_first tag (default [] (m !! member_identifier))]> m))
          (with_trace (trace w ++ [EvFileWrite MEMBER_TAGS_FILE]) w))
  else (Ok false, w).
Proof.
  intros Hf. rewrite remove_member_tag_run, Hf. unfold has_tag.
  destruct (m !! member_identifier) as [l|]; [|done]. by case_bool_decide.
Qed.

Lemma add_member_tag_file w member_identifier tag :
  has_tag (loaded_member_tags w) member_identifier tag = false →
  (add_member_tag member_identifier tag w).1 = Ok true
  ∧ member_tags_file (add_member_tag member_identifier tag w).2
    = Some (<[member_identifier :=
                default [] (loaded_member_tags w !! member_identifier) ++ [tag]]>
              (loaded_member_tags w)).
Proof. intros Hh. rewrite add_member_tag_run. cbv zeta. by rewrite Hh. Qed.

(** X2.  Removing a tag right after it was added undoes the addition: the
    identifier has the list it had before.  An identifier that had no list
    before keeps an empty one, it does not disappear from the map. *)
Theorem add_then_remove_member_tag w member_identifier tag :
  has_tag (loaded_member_tags w) member_identifier tag = false →
  let m := loaded_member_tags w in
  let w1 := (add_member_tag member_identifier tag w).2 in
  let out := remove_member_tag member_identifier tag w1 in
  out.1 = Ok true
  ∧ loaded_member_tags out.2
    = <[member_identifier := default [] (m !! member_identifier)]> m
  ∧ (is_Some (m !! member_identifier) → loaded_member_tags out.2 = m).
Proof.
  intros Hh. cbv zeta.
  destruct (add_member_tag_file w member_identifier tag Hh) as [_ Hfile].
  rewrite (remove_member_tag_file_exists _ _ _ _ Hfile).
  assert (tag ∉ default [] (loaded_member_tags w !! member_identifier))
    as Hnotin.
  { unfold has_tag in Hh.
    destruct (loaded_member_tags w !! member_identifier) as [l|];
      cbn; [by apply bool_decide_eq_false in Hh|apply not_elem_of_nil]. }
  assert (has_tag
            (<[member_identifier :=
                 default [] (loaded_member_tags w !! member_identifier) ++ [tag]]>
               (loaded_member_tags w)) member_identifier tag = true) as ->.
  { unfold has_tag. rewrite lookup_insert_eq. apply bool_decide_eq_true.
    apply elem_of_app. right. by apply list_elem_of_singleton. }
  cbn [fst snd]. split; [done|].
  assert (loaded_member_tags
            (with_member_tags_file
               (Some (<[member_identifier :=
                          list_remove_first tag
                            (default []
                               (<[member_identifier :=
                                    default []
                                      (loaded_member_tags w !! member_identifier)
                                    ++ [tag]]> (loaded_member_tags w)
                                !! member_identifier))]>
                        (<[member_identifier :=
                             default []
                               (loaded_member_tags w !! member_identifier)
                             ++ [tag]]> (loaded_member_tags w))))
               (with_trace
                  (trace (add_member_tag member_identifier tag w).2
                   ++ [EvFileWrite MEMBER_TAGS_FILE])
                  (add_member_tag member_identifier tag w).2))
          = <[member_identifier :=
                default [] (loaded_member_tags w !! member_identifier)]>
              (loaded_member_tags w)) as ->.
  { unfold loaded_member_tags at 1. cbn.
    rewrite lookup_insert_eq. cbn.
    rewrite list_remove_first_snoc by done. by rewrite insert_insert_eq. }
  split; [done|]. intros [l Hl]. rewrite Hl. cbn. by apply insert_id.
Qed.

(** **** Start-up *)

Lemma subsystems_file_ensured_spec (w : world) :
  get_subsystems w
  = (Ok (default DEFAULT_SUBSYSTEMS (subsystems_file w)),
     subsystems_file_ensured w)
  ∧ subsystems_file (subsystems_file_ensured w)
    = Some (default DEFAULT_SUBSYSTEMS (subsystems_file w))
  ∧ member_tags_file (subsystems_file_ensured w) = member_tags_file w
  ∧ default_member_tags (subsystems_file_ensured w) = default_member_tags w
  ∧ cache (subsystems_file_ensured w) = cache w
  ∧ (is_Some (subsystems_file w) → subsystems_file_ensured w = w).
Proof.
  unfold subsystems_file_ensured, get_subsystems. rewrite bind_run. cbn [gets].
  destruct (subsystems_file w) as [l|] eqn:Hf; cbn.
  - repeat split; done.
  - repeat split; done.
Qed.

(** X3.  [initialize_default_subsystems] creates whichever of the two files
    is missing and touches neither an existing file nor the tag map that is
    loaded.  It is idempotent, and once it has run, reading the tags or the
    sub-systems no longer writes anything. *)
Theorem initialize_default_subsystems_outcome (w : world) :
  let out := initialize_default_subsystems w in
  out.1 = Ok tt
  ∧ subsystems_file out.2
    = Some (default DEFAULT_SUBSYSTEMS (subsystems_file w))
  ∧ member_tags_file out.2 = Some (loaded_member_tags w)
  ∧ initialize_default_subsystems out.2 = (Ok tt, out.2)
  ∧ get_member_tags out.2 = (Ok (TagsView (loaded_member_tags w) false), out.2)
  ∧ get_subsystems out.2
    = (Ok (default DEFAULT_SUBSYSTEMS (subsystems_file w)), out.2).
Proof.
  cbv zeta.
  assert (∀ w0 sf tf,
            subsystems_file w0 = Some sf → member_tags_file w0 = Some tf →
            initialize_default_subsystems w0 = (Ok tt, w0)
            ∧ get_member_tags w0 = (Ok (TagsView tf false), w0)
            ∧ get_subsystems w0 = (Ok sf, w0)) as Hdone.
  { intros w0 sf tf Hs Ht. split; [|split].
    - unfold initialize_default_subsystems.
      rewrite bind_run. cbn [gets]. rewrite Hs, bind_run.
      unfold mret at 1, M_ret. rewrite bind_run. cbn [gets]. by rewrite Ht.
    - by rewrite get_member_tags_run, Ht.
    - unfold get_subsystems. rewrite bind_run. cbn [gets]. by rewrite Hs. }
  assert (∃ w1, initialize_default_subsystems w = (Ok tt, w1)
                ∧ subsystems_file w1
                  = Some (default DEFAULT_SUBSYSTEMS (subsystems_file w))
                ∧ member_tags_file w1 = Some (loaded_member_tags w))
    as (w1 & -> & Hs1 & Ht1).
  { unfold initialize_default_subsystems, loaded_member_tags, save_subsystems,
      save_member_tags, log, mbind, M_bind, mret, M_ret, gets, modify.
    destruct (subsystems_file w) as [sf|] eqn:Hs;
      destruct (member_tags_file w) as [tf|] eqn:Ht;
      cbn; rewrite ?Ht; cbn; eauto. }
  cbn [fst snd].
  destruct (Hdone w1 _ _ Hs1 Ht1) as (-> & -> & ->). done.
Qed.

End TagStoreMore.

(** *** The tag endpoints *)

Section TagEndpointsMore.
Context `{!Env}.

Lemma validate_subsystem_tag_run w tag :
  validate_subsystem_tag tag w
  = (Ok (bool_decide (tag ∈ subsystem_labels w ++ ["host"])),
     subsystems_file_ensured w).
Proof.
  unfold validate_subsystem_tag. rewrite bind_run.
  destruct (subsystems_file_ensured_spec w) as (-> & _). done.
Qed.

Lemma subsystems_ensured_ensured w :
  subsystems_file_ensured (subsystems_file_ensured w)
  = subsystems_file_ensured w.
Proof.
  destruct (subsystems_file_ensured_spec w) as (_ & Hs & _).
  destruct (subsystems_file_ensured_spec (subsystems_file_ensured w))
    as (_ & _ & _ & _ & _ & Hid).
  apply Hid. by rewrite Hs.
Qed.

Lemma valid_tag_ensured w tag :
  valid_tag (subsystems_file_ensured w) tag ↔ valid_tag w tag.
Proof.
  unfold valid_tag, subsystem_labels.
  destruct (subsystems_file_ensured_spec w) as (_ & -> & _). done.
Qed.

Lemma validate_tags_accepts w tags :
  Forall (valid_tag w) tags →
  validate_tags tags w
  = (Ok tt, if tags is [] then w else subsystems_file_ensured w).
Proof.
  revert w. induction tags as [|tag tags IH]; intros w Hall; [done|].
  apply Forall_cons in Hall as [Htag Hall]. cbn [validate_tags].
  rewrite bind_run, validate_subsystem_tag_run.
  rewrite bool_decide_eq_true_2 by done.
  rewrite IH by (eapply Forall_impl; [done|]; intros ?; apply valid_tag_ensured).
  destruct tags; [done|]. by rewrite subsystems_ensured_ensured.
Qed.

Lemma validate_tags_rejects w pre tag post :
  Forall (valid_tag w) pre → ¬ valid_tag w tag →
  validate_tags (pre ++ tag :: post) w
  = (Exc (HTTPException 400 (invalid_tag_detail tag)),
     subsystems_file_ensured w).
Proof.
  revert w. induction pre as [|t pre IH]; intros w Hall Hbad; cbn [app validate_tags].
  - rewrite bind_run, validate_subsystem_tag_run.
    by rewrite bool_decide_eq_false_2.
  - apply Forall_cons in Hall as [Ht Hall].
    rewrite bind_run, validate_subsystem_tag_run.
    rewrite bool_decide_eq_true_2 by done.
    rewrite IH.
    + by rewrite subsystems_ensured_ensured.
    + eapply Forall_impl; [done|]. intros ?; apply valid_tag_ensured.
    + by rewrite valid_tag_ensured.
Qed.

Lemma update_member_tags_run w member_identifier tags :
  let out := update_member_tags member_identifier tags w in
  out.1 = Ok true
  ∧ member_tags_file out.2
    = Some (<[member_identifier := tags]> (loaded_member_tags w))
  ∧ cache out.2 = cache w
  ∧ subsystems_file out.2 = subsystems_file w.
Proof.
  cbv zeta. unfold update_member_tags. rewrite bind_run, get_member_tags_run.
  unfold loaded_member_tags. by destruct (member_tags_file w).
Qed.

Lemma get_member_tags_by_name w member_id member_name tags :
  loaded_member_tags w !! member_name = Some tags →
  (get_member_tags_by_id member_id (JStr member_name) w).1 = Ok tags.
Proof.
  intros Hl. unfold get_member_tags_by_id. rewrite bind_run, get_member_tags_run.
  unfold loaded_member_tags in Hl.
  destruct (member_tags_file w) as [m|]; cbn in Hl;
    rewrite bind_run; cbn [lift py_key tags_of]; by rewrite Hl.
Qed.

(** X4.  [update_member_tag_list] with a tag that is not valid: the answer is
    400 and names the first tag that is neither the label of a sub-system nor
    "host"; the tags that are stored and the cache are left as they were (the
    valid tags that come before it are not stored either). *)
Theorem update_member_tag_list_rejects_invalid_tag
    w member_identifier pre tag post user :
  is_admin user = true →
  Forall (valid_tag w) pre → ¬ valid_tag w tag →
  let run := update_member_tag_list member_identifier (pre ++ tag :: post)
               user w in
  run.1 = Exc (HTTPException 400 (invalid_tag_detail tag))
  ∧ member_tags_file run.2 = member_tags_file w
  ∧ default_member_tags run.2 = default_member_tags w
  ∧ cache run.2 = cache w.
Proof.
  intros Hadmin Hpre Hbad. cbv zeta. unfold update_member_tag_list.
  rewrite Hadmin. cbn [negb]. unfold try_except.
  rewrite bind_run, (validate_tags_rejects w pre tag post Hpre Hbad).
  cbn [reraise_http_or_500 raise fst snd].
  by destruct (subsystems_file_ensured_spec w) as (_ & _ & -> & -> & -> & _).
Qed.

(** X5.  [update_member_tag_list] with valid tags only: the identifier gets
    exactly the list of the request in place of what it had, the other
    entries are kept, and a later look-up under that identifier as a name
    returns the list of the request. *)
Theorem update_member_tag_list_stores_tags w member_identifier tags user :
  is_admin user = true →
  Forall (valid_tag w) tags →
  let run := update_member_tag_list member_identifier tags user w in
  run.1 = Ok (JDict {[ "status" := JStr "success";
                       "message" := JStr ("Updated tags for "
                                          +:+ member_identifier);
                       "tags" := JList (JStr <$> tags) ]})
  ∧ loaded_member_tags run.2
    = <[member_identifier := tags]> (loaded_member_tags w)
  ∧ ∀ member_id,
      (get_member_tags_by_id member_id (JStr member_identifier) run.2).1
      = Ok tags.
Proof.
  intros Hadmin Hvalid. cbv zeta.
  assert (∀ w0, loaded_member_tags (subsystems_file_ensured w0)
                = loaded_member_tags w0) as Hens.
  { intros w0. unfold loaded_member_tags.
    by destruct (subsystems_file_ensured_spec w0) as (_ & _ & -> & -> & _). }
  assert (∃ w1, validate_tags tags w = (Ok tt, w1)
                ∧ loaded_member_tags w1 = loaded_member_tags w)
    as (w1 & Hv & Hl1).
  { rewrite validate_tags_accepts by done. destruct tags; eauto. }
  unfold update_member_tag_list. rewrite Hadmin. cbn [negb]. unfold try_except.
  rewrite bind_run, Hv, bind_run.
  destruct (update_member_tags_run w1 member_identifier tags)
    as (Hr & Hf & _).
  destruct (update_member_tags member_identifier tags w1) as [r w2].
  cbn [fst snd] in Hr, Hf. subst r.
  rewrite bind_run, set_in_cache_run. cbn [mret M_ret fst snd].
  assert (loaded_member_tags
            (with_cache (Cache.set (cache w2) (now w2) "members_raw" JNull 0)
               (with_trace
                  (trace w2 ++ [EvCacheWrite "members_raw" JNull 0]) w2))
          = <[member_identifier := tags]> (loaded_member_tags w)) as Hl.
  { unfold loaded_member_tags at 1. cbn. rewrite Hf. cbn. by rewrite Hl1. }
  split; [done|]. split; [done|].
  intros member_id. apply get_member_tags_by_name.
  rewrite Hl. apply lookup_insert_eq.
Qed.

Lemma add_member_tag_loaded w member_identifier tag :
  let m := loaded_member_tags w in
  let out := add_member_tag member_identifier tag w in
  out.1 = Ok (negb (has_tag m member_identifier tag))
  ∧ loaded_member_tags out.2
    = (if has_tag m member_identifier tag then m
       else <[member_identifier :=
                default [] (m !! member_identifier) ++ [tag]]> m).
Proof.
  cbv zeta. rewrite add_member_tag_run. cbv zeta.
  destruct (has_tag (loaded_member_tags w) member_identifier tag);
    cbn [fst snd negb]; split; try done.
  apply loaded_ensured.
Qed.

Lemma loaded_subsystems_ensured w :
  loaded_member_tags (subsystems_file_ensured w) = loaded_member_tags w.
Proof.
  unfold loaded_member_tags.
  by destruct (subsystems_file_ensured_spec w) as (_ & _ & -> & -> & _).
Qed.

Lemma loaded_after_invalidation w key :
  loaded_member_tags
    (with_cache (Cache.set (cache w) (now w) key JNull 0)
       (with_trace (trace w ++ [EvCacheWrite key JNull 0]) w))
  = loaded_member_tags w.
Proof. done. Qed.

(** X6.  [add_single_member_tag], called by an administrator.  A tag that is
    not valid is refused with 400 and nothing is stored.  A valid tag that
    the identifier already has is answered with status "info": the stored
    tags and the cache stay as they are.  A valid tag that the identifier
    does not have is answered with status "success": it is appended to the
    identifier's list and the raw member list is dropped from the cache. *)
Theorem add_single_member_tag_outcome w member_identifier tag user :
  is_admin user = true →
  let m := loaded_member_tags w in
  let run := add_single_member_tag member_identifier tag user w in
  (¬ valid_tag w tag →
   run.1 = Exc (HTTPException 400 (invalid_tag_detail tag))
   ∧ loaded_member_tags run.2 = m ∧ cache run.2 = cache w)
  ∧ (valid_tag w tag → has_tag m member_identifier tag = true →
     run.1 = Ok (JDict {[ "status" := JStr "info";
                          "message" := JStr ("Tag '" +:+ tag
                                             +:+ "' already exists for "
                                             +:+ member_identifier) ]})
     ∧ loaded_member_tags run.2 = m ∧ cache run.2 = cache w)
  ∧ (valid_tag w tag → has_tag m member_identifier tag = false →
     run.1 = Ok (JDict {[ "status" := JStr "success";
                          "message" := JStr ("Added tag '" +:+ tag +:+ "' to "
                                             +:+ member_identifier) ]})
     ∧ loaded_member_tags run.2
       = <[member_identifier := default [] (m !! member_identifier) ++ [tag]]> m
     ∧ raw_tier_invalidated run.2).
Proof.
  intros Hadmin. cbv zeta. unfold add_single_member_tag.
  rewrite Hadmin. cbn [negb]. unfold try_except.
  rewrite bind_run, validate_subsystem_tag_run.
  pose proof (loaded_subsystems_ensured w) as Hl1.
  destruct (subsystems_file_ensured_spec w) as (_ & _ & _ & _ & Hc1 & _).
  set (w1 := subsystems_file_ensured w) in *.
  split; [|split].
  - intros Hbad. rewrite bool_decide_eq_false_2 by done. done.
  - intros Hvalid Hhas. rewrite bool_decide_eq_true_2 by done. cbn [negb].
    rewrite bind_run.
    destruct (add_member_tag_loaded w1 member_identifier tag) as [Hr Hl2].
    destruct (local_add_member_tag member_identifier tag w1) as (_ & Hc2 & _).
    rewrite Hl1, Hhas in Hr, Hl2.
    destruct (add_member_tag member_identifier tag w1) as [r w2].
    cbn [fst snd negb] in *. subst r. cbn. by rewrite Hl2, Hc2.
  - intros Hvalid Hhas. rewrite bool_decide_eq_true_2 by done. cbn [negb].
    rewrite bind_run.
    destruct (add_member_tag_loaded w1 member_identifier tag) as [Hr Hl2].
    rewrite Hl1, Hhas in Hr, Hl2.
    destruct (add_member_tag member_identifier tag w1) as [r w2].
    cbn [fst snd negb] in *. subst r.
    rewrite bind_run, set_in_cache_run. cbn [mret M_ret fst snd].
    rewrite loaded_after_invalidation. split; [done|]. split; [done|].
    intros t. apply cache_get_invalidated.
Qed.

(** X7.  [remove_single_member_tag], called by an administrator: when the
    identifier does not have the tag the answer is 404, not 500, and the
    stored tags and the cache stay as they are; when it has the tag, the
    first occurrence is removed from the identifier's list, the raw member
    list is dropped from the cache and the answer is a success.  The tag is
    not validated: a tag that is no sub-system label can be removed too. *)
Theorem remove_single_member_tag_outcome w member_identifier tag user :
  is_admin user = true →
  let m := loaded_member_tags w in
  let run := remove_single_member_tag member_identifier tag user w in
  (has_tag m member_identifier tag = false →
   run.1 = Exc (HTTPException 404
                  ("Tag '" +:+ tag +:+ "' not found for "
                   +:+ member_identifier))
   ∧ loaded_member_tags run.2 = m ∧ cache run.2 = cache w)
  ∧ (has_tag m member_identifier tag = true →
     run.1 = Ok (JDict {[ "status" := JStr "success";
                          "message" := JStr ("Removed tag '" +:+ tag
                                             +:+ "' from "
                                             +:+ member_identifier) ]})
     ∧ loaded_member_tags run.2
       = <[member_identifier :=
             list_remove_first tag (default [] (m !! member_identifier))]> m
     ∧ raw_tier_invalidated run.2).
Proof.
  intros Hadmin. cbv zeta. unfold remove_single_member_tag.
  rewrite Hadmin. cbn [negb]. unfold try_except.
  rewrite bind_run.
  split.
  - intros Hhas.
    assert (∃ w2, remove_member_tag member_identifier tag w = (Ok false, w2)
                  ∧ loaded_member_tags w2 = loaded_member_tags w
                  ∧ cache w2 = cache w) as (w2 & -> & Hl2 & Hc2).
    { rewrite remove_member_tag_run. unfold has_tag, loaded_member_tags in *.
      destruct (member_tags_file w) as [m0|] eqn:Hm; cbn in *.
      - exists w. rewrite Hm.
        destruct (m0 !! member_identifier) as [l|]; rewrite ?Hhas; eauto.
      - eexists.
        destruct (default_member_tags w !! member_identifier) as [l|];
          rewrite ?Hhas; (split; [reflexivity|done]). }
    done.
  - intros Hhas.
    assert (∃ w2, remove_member_tag member_identifier tag w = (Ok true, w2)
                  ∧ loaded_member_tags w2
                    = <[member_identifier :=
                          list_remove_first tag
                            (default [] (loaded_member_tags w
                                         !! member_identifier))]>
                        (loaded_member_tags w)) as (w2 & -> & Hl2).
    { rewrite remove_member_tag_run. unfold has_tag, loaded_member_tags in *.
      destruct (member_tags_file w) as [m0|] eqn:Hm; cbn in *.
      - destruct (m0 !! member_identifier) as [l|]; [|done].
        rewrite Hhas. eexists. split; [reflexivity|done].
      - destruct (default_member_tags w !! member_identifier) as [l|]; [|done].
        rewrite Hhas. eexists. split; [reflexivity|done]. }
    rewrite bind_run, set_in_cache_run. cbn [mret M_ret fst snd].
    rewrite loaded_after_invalidation. split; [done|]. split; [done|].
    intros t. apply cache_get_invalidated.
Qed.

End TagEndpointsMore.

(** *** Members and their tags *)

Section TaggedMembers.
Context `{!Env}.

Lemma get_member_tags_by_id_run w member_id member_name :
  hashable member_name = true → hashable member_id = true →
  get_member_tags_by_id member_id member_name w
  = (Ok match tag_entry (loaded_member_tags w) member_name with
        | Some tags => tags
        | None => default [] (tag_entry (loaded_member_tags w) member_id)
        end,
     tags_file_ensured w).
Proof.
  intros Hname Hid. unfold get_member_tags_by_id. rewrite bind_run.
  destruct (tags_file_ensured_spec w) as (-> & _). cbn [tags_of].
  rewrite bind_run. unfold lift at 1.
  assert (∀ k : json, hashable k = true →
            py_key (loaded_member_tags w) k
            = Ok (tag_entry (loaded_member_tags w) k)) as Hkey.
  { intros k Hk. by destruct k. }
  rewrite (Hkey _ Hname).
  destruct (tag_entry (loaded_member_tags w) member_name) as [tags|]; [done|].
  rewrite bind_run. unfold lift at 1. rewrite (Hkey _ Hid).
  by destruct (tag_entry (loaded_member_tags w) member_id).
Qed.

Lemma enrich_member_run w member :
  taggable member = true →
  enrich_member member w
  = (Ok (with_tags_of (loaded_member_tags w) member), tags_file_ensured w).
Proof.
  intros Ht. destruct member as [| | | | |d]; try done.
  apply andb_true_iff in Ht as [Hn Hi].
  unfold enrich_member.
  rewrite bind_run. cbn [lift py_get_default].
  rewrite bind_run. cbn [lift py_get_default].
  by rewrite bind_run, get_member_tags_by_id_run.
Qed.

(** X8.  [enrich_members_with_tags] on members that are dicts with hashable
    names and identifiers: the result has the same members in the same
    order, each with its "tags" set to the tags that the stored map has for
    it (under its name, else under its identifier, else none) and nothing
    else changed; the stored map itself is not changed. *)
Theorem enrich_members_with_tags_outcome w members :
  Forall (λ member, taggable member = true) members →
  let run := enrich_members_with_tags members w in
  run.1 = Ok (with_tags_of (loaded_member_tags w) <$> members)
  ∧ loaded_member_tags run.2 = loaded_member_tags w.
Proof.
  intros Hall. cbv zeta. unfold enrich_members_with_tags.
  revert w. induction Hall as [|member members Ht _ IH]; intros w; [done|].
  cbn [for_collect]. rewrite bind_run, (enrich_member_run _ _ Ht), bind_run.
  destruct (IH (tags_file_ensured w)) as [Hr Hl]. rewrite loaded_ensured in Hr, Hl.
  destruct (for_collect members enrich_member (tags_file_ensured w)) as [r w'].
  cbn [fst snd] in Hr, Hl. subst r. done.
Qed.

Lemma tags_of_member_run w d :
  taggable (JDict d) = true →
  get_member_tags_by_id (default (JStr "") (d !! "id"))
    (default (JStr "") (d !! "name")) w
  = (Ok (tags_for (loaded_member_tags w) d), tags_file_ensured w).
Proof.
  intros [Hn Hi]%andb_true_iff. by rewrite get_member_tags_by_id_run.
Qed.

Lemma filter_members_loop_run w members subsystem_filter include_untagged :
  Forall (λ member, taggable member = true) members →
  let tm := loaded_member_tags w in
  let run := filter_members_loop members subsystem_filter include_untagged w in
  run.1 = Ok (with_tags_of tm
              <$> filter (λ member, passes_filter tm subsystem_filter
                                      include_untagged member) members)
  ∧ loaded_member_tags run.2 = tm.
Proof.
  intros Hall. cbv zeta.
  revert w. induction Hall as [|member members Ht _ IH]; intros w; [done|].
  destruct member as [| | | | |d]; try done.
  cbn [filter_members_loop].
  rewrite bind_run. cbn [lift py_get_default].
  rewrite bind_run. cbn [lift py_get_default].
  rewrite bind_run, (tags_of_member_run w d Ht).
  destruct (IH (tags_file_ensured w)) as [Hr Hl].
  rewrite loaded_ensured in Hr, Hl.
  destruct (filter_members_loop members subsystem_filter include_untagged
              (tags_file_ensured w)) as [r w'] eqn:Hloop.
  cbn [fst snd] in Hr, Hl. subst r.
  assert (passes_filter (loaded_member_tags w) subsystem_filter
            include_untagged (JDict d)
          = bool_decide (subsystem_filter ∈ tags_for (loaded_member_tags w) d)
            || include_untagged
               && bool_decide (tags_for (loaded_member_tags w) d = []))
    as Hpass by done.
  set (tags := tags_for (loaded_member_tags w) d) in *.
  rewrite bind_run.
  destruct (decide (subsystem_filter ∈ tags)) as [Hin|Hin].
  - rewrite (bool_decide_eq_true_2 _ Hin) in Hpass |- *. cbn [with_tags].
    rewrite filter_cons_True by (by rewrite Hpass).
    rewrite bind_run. cbn [mret M_ret].
    by rewrite bind_run, Hloop.
  - rewrite (bool_decide_eq_false_2 _ Hin) in Hpass |- *. cbn [orb] in Hpass.
    destruct include_untagged; cbn [andb] in Hpass |- *.
    + destruct (decide (tags = [])) as [Hnil|Hnil].
      * rewrite (bool_decide_eq_true_2 _ Hnil) in Hpass |- *. cbn [with_tags].
        rewrite filter_cons_True by (by rewrite Hpass).
        rewrite bind_run. cbn [mret M_ret].
        rewrite bind_run, Hloop. cbn. unfold tagged. fold tags. by rewrite Hnil.
      * rewrite (bool_decide_eq_false_2 _ Hnil) in Hpass |- *.
        rewrite filter_cons_False by (rewrite Hpass; by intros []).
        cbn [mret M_ret]. by rewrite bind_run, Hloop.
    + rewrite filter_cons_False by (rewrite Hpass; by intros []).
      cbn [mret M_ret]. by rewrite bind_run, Hloop.
Qed.

(** X9.  [filter_members_by_subsystem].  Without a filter ([None] or the
    empty string) the members come back as they are, with no "tags" added
    and nothing read.  With a filter, the result holds, in the order of the
    input and with their tags attached, exactly the members that have the
    tag of the filter and, when [include_untagged] is set, those that have
    no tag at all; a member that only has other tags is left out. *)
Theorem filter_members_by_subsystem_outcome w members subsystem_filter
    include_untagged :
  Forall (λ member, taggable member = true) members →
  let tm := loaded_member_tags w in
  filter_members_by_subsystem members None include_untagged w = (Ok members, w)
  ∧ filter_members_by_subsystem members (Some "") include_untagged w
    = (Ok members, w)
  ∧ (subsystem_filter ≠ "" →
     (filter_members_by_subsystem members (Some subsystem_filter)
        include_untagged w).1
     = Ok (with_tags_of tm
           <$> filter (λ member, passes_filter tm subsystem_filter
                                   include_untagged member) members)).
Proof.
  intros Hall. cbv zeta. split; [done|]. split; [done|]. intros Hne.
  unfold filter_members_by_subsystem. rewrite decide_False by done.
  rewrite bind_run. destruct (tags_file_ensured_spec w) as (-> & _).
  destruct (filter_members_loop_run (tags_file_ensured w) members
              subsystem_filter include_untagged Hall) as [Hr _].
  by rewrite loaded_ensured in Hr.
Qed.

Lemma filter_absent (key : string) (tags : list string) :
  key ∉ tags → filter (λ tag, tag = key) tags = [].
Proof.
  induction tags as [|tag tags IH]; [done|].
  intros [Hne Hnotin]%not_elem_of_cons.
  rewrite filter_cons_False by done. by apply IH.
Qed.

(** The groups after the tags of one member were gone through. *)
Lemma group_by_tags_lookup tags x result key :
  group_by_tags tags x result !! key
  = match result !! key with
    | Some l => Some (l ++ replicate (length (filter (λ tag, tag = key) tags)) x)
    | None =>
        if decide (key = "host" ∧ "host" ∈ tags)
        then Some (replicate (length (filter (λ tag, tag = key) tags)) x)
        else None
    end.
Proof.
  revert result. induction tags as [|tag tags IH]; intros result.
  { cbn. destruct (result !! key) as [l|]; [by rewrite app_nil_r|].
    rewrite decide_False; [done|]. intros [_ Hin]. by apply elem_of_nil in Hin. }
  cbn [group_by_tags]. rewrite IH. clear IH.
  destruct (decide (tag = key)) as [->|Hne].
  - rewrite filter_cons_True by done. cbn [length replicate].
    destruct (result !! key) as [l|] eqn:Hl.
    + rewrite lookup_insert_eq. by rewrite <- app_assoc.
    + destruct (decide (key = "host")) as [->|Hh].
      * rewrite lookup_insert_eq.
        rewrite decide_True; [done|]. split; [done|]. apply elem_of_cons. by left.
      * rewrite Hl. rewrite !decide_False; [done| |]; by intros [? _].
  - rewrite filter_cons_False by done.
    assert (match result !! tag with
            | Some l => <[tag := l ++ [x]]> result
            | None => if decide (tag = "host") then <["host" := [x]]> result
                      else result
            end !! key = result !! key) as ->.
    { destruct (result !! tag) as [l|].
      - by rewrite lookup_insert_ne.
      - destruct (decide (tag = "host")) as [->|]; [|done].
        by rewrite lookup_insert_ne. }
    destruct (result !! key) as [l|]; [done|].
    destruct (decide (key = "host" ∧ "host" ∈ tags)) as [[-> Hin]|Hno].
    + rewrite decide_True; [done|]. split; [done|]. apply elem_of_cons. by right.
    + rewrite decide_False; [done|]. intros [-> Hin]. apply Hno. split; [done|].
      apply elem_of_cons in Hin as [Heq|Hin]; [by subst|done].
Qed.

Lemma group_content_cons tm key member members :
  group_content tm key (member :: members)
  = replicate (times_in_group tm key member) (with_tags_of tm member)
    ++ group_content tm key members.
Proof. done. Qed.

(** The loop over the members: every group gets its members appended, and
    the only group that may appear is "host". *)
Lemma group_members_loop_run w members result :
  Forall (λ member, taggable member = true) members →
  is_Some (result !! "untagged") →
  let tm := loaded_member_tags w in
  ∃ result',
    (group_members_loop members result w).1 = Ok result'
    ∧ ∀ key,
        result' !! key
        = match result !! key with
          | Some l => Some (l ++ group_content tm key members)
          | None =>
              if decide (key = "host"
                         ∧ Exists (λ member, "host" ∈ member_tags_of tm member)
                             members)
              then Some (group_content tm key members)
              else None
          end.
Proof.
  intros Hall. cbv zeta. revert w result.
  induction Hall as [|member members Ht _ IH]; intros w result Hun.
  { exists result. split; [done|]. intros key.
    destruct (result !! key) as [l|]; [by rewrite app_nil_r|].
    rewrite decide_False; [done|]. intros [_ Hex]. by apply Exists_nil in Hex. }
  destruct member as [| | | | |d]; try done.
  cbn [group_members_loop].
  rewrite bind_run. cbn [lift py_get_default].
  rewrite bind_run. cbn [lift py_get_default].
  rewrite bind_run, (tags_of_member_run w d Ht).
  rewrite bind_run. cbn [with_tags mret M_ret].
  set (tags := tags_for (loaded_member_tags w) d).
  set (x := JDict (<["tags" := JList (JStr <$> tags)]> d)).
  assert (with_tags_of (loaded_member_tags w) (JDict d) = x) as Hx by done.
  assert (member_tags_of (loaded_member_tags w) (JDict d) = tags) as Htags
    by done.
  rewrite bind_run.
  destruct (decide (tags = [])) as [Hnil|Hnil].
  - rewrite (bool_decide_eq_true_2 _ Hnil). unfold group_append.
    destruct Hun as [lu Hlu]. rewrite Hlu. cbn [mret M_ret].
    destruct (IH (tags_file_ensured w) (<["untagged" := lu ++ [x]]> result))
      as (result' & Hr & Hlook).
    { rewrite lookup_insert_eq. by eexists. }
    exists result'. split; [done|]. intros key. rewrite Hlook.
    rewrite loaded_ensured, group_content_cons, Hx.
    unfold times_in_group. rewrite Htags, Hnil. cbn [filter length Nat.add].
    destruct (decide (key = "untagged")) as [->|Hne].
    + rewrite lookup_insert_eq, Hlu.
      rewrite bool_decide_eq_true_2 by done. by rewrite <- app_assoc.
    + rewrite lookup_insert_ne by done.
      rewrite (bool_decide_eq_false_2 (key = "untagged" ∧ _)) by (by intros [? _]).
      cbn [replicate app].
      destruct (result !! key) as [l|]; [done|].
      destruct (decide (key = "host" ∧ _)) as [[-> Hex]|Hno].
      * rewrite decide_True; [done|]. split; [done|]. by apply Exists_cons_tl.
      * rewrite decide_False; [done|]. intros [-> Hex]. apply Hno. split; [done|].
        apply Exists_cons in Hex as [Hin|Hex]; [|done].
        rewrite Htags, Hnil in Hin. by apply elem_of_nil in Hin.
  - rewrite (bool_decide_eq_false_2 _ Hnil). cbn [mret M_ret].
    destruct (IH (tags_file_ensured w) (group_by_tags tags x result))
      as (result' & Hr & Hlook).
    { rewrite group_by_tags_lookup. destruct Hun as [lu ->]. by eexists. }
    exists result'. split; [done|]. intros key. rewrite Hlook.
    rewrite loaded_ensured, group_content_cons, Hx, group_by_tags_lookup.
    unfold times_in_group. rewrite Htags.
    rewrite (bool_decide_eq_false_2 (key = "untagged" ∧ _)) by (by intros [_ ?]).
    rewrite Nat.add_0_r.
    destruct (result !! key) as [l|]; [by rewrite <- app_assoc|].
    destruct (decide (key = "host" ∧ "host" ∈ tags)) as [[-> Hin]|Hno].
    + rewrite decide_True; [done|]. split; [done|]. apply Exists_cons_hd.
      by rewrite Htags.
    + destruct (decide (key = "host" ∧ _)) as [[-> Hex]|Hno'].
      * rewrite decide_True by (split; [done|by apply Exists_cons_tl]).
        assert (filter (λ tag, tag = "host") tags = []) as ->; [|done].
        apply filter_absent. intros Hin. apply Hno. by split.
      * rewrite decide_False; [done|]. intros [-> Hex].
        apply Exists_cons in Hex as [Hin|Hex].
        -- apply Hno. split; [done|]. by rewrite Htags in Hin.
        -- apply Hno'. by split.
Qed.

Lemma empty_groups_lookup subsystems key :
  empty_groups subsystems !! key
  = if decide (key ∈ label <$> subsystems ∨ key = "untagged")
    then Some [] else None.
Proof.
  unfold empty_groups.
  assert (∀ result : gmap string (list json),
            foldl (λ result subsystem, <[label subsystem := []]> result)
              result subsystems !! key
            = if decide (key ∈ label <$> subsystems) then Some []
              else result !! key) as Hfold.
  { induction subsystems as [|s subsystems IH]; intros result; [done|].
    cbn [foldl]. rewrite IH.
    destruct (decide (key ∈ label <$> subsystems)) as [Hin|Hnotin].
    - rewrite decide_True; [done|]. rewrite fmap_cons. apply elem_of_cons.
      by right.
    - destruct (decide (key = label s)) as [->|Hne].
      + rewrite lookup_insert_eq, decide_True; [done|]. rewrite fmap_cons.
        apply elem_of_cons. by left.
      + rewrite lookup_insert_ne by done. rewrite decide_False; [done|].
        rewrite fmap_cons. intros [?|?]%elem_of_cons; done. }
  destruct (decide (key = "untagged")) as [->|Hne].
  - rewrite lookup_insert_eq, decide_True; [done|by right].
  - rewrite lookup_insert_ne, Hfold by done. rewrite lookup_empty.
    destruct (decide (key ∈ label <$> subsystems)) as [Hin|Hnotin].
    + rewrite decide_True; [done|by left].
    + rewrite decide_False; [done|]. by intros [?|?].
Qed.

(** X10.  [get_members_by_subsystem] on members that are dicts with hashable
    names and identifiers.  The result has a group for every sub-system
    label and for "untagged", and one for "host" once a member has that
    tag, and no other group.  Each group holds, in the order of the input
    and with their tags attached, the members that have its label among their
    tags (once per occurrence of the label), "untagged" also those that have
    no tag; so a member whose tags are all unknown labels is in no group. *)
Theorem get_members_by_subsystem_outcome w members :
  Forall (λ member, taggable member = true) members →
  let tm := loaded_member_tags w in
  ∃ result,
    (get_members_by_subsystem members w).1 = Ok result
    ∧ ∀ key,
        (is_group tm (subsystem_labels w) members key →
         result !! key = Some (group_content tm key members))
        ∧ (¬ is_group tm (subsystem_labels w) members key →
           result !! key = None).
Proof.
  intros Hall. cbv zeta. unfold get_members_by_subsystem.
  rewrite bind_run. destruct (tags_file_ensured_spec w) as (-> & _ & _ & Hs & _).
  rewrite bind_run.
  destruct (subsystems_file_ensured_spec (tags_file_ensured w)) as (-> & _).
  rewrite Hs.
  destruct (group_members_loop_run (subsystems_file_ensured (tags_file_ensured w))
              members
              (empty_groups (default DEFAULT_SUBSYSTEMS (subsystems_file w)))
              Hall) as (result & Hr & Hlook).
  { rewrite empty_groups_lookup, decide_True; [by eexists|by right]. }
  rewrite loaded_subsystems_ensured, loaded_ensured in Hlook.
  exists result. split; [done|]. intros key. rewrite Hlook, empty_groups_lookup.
  unfold is_group, subsystem_labels.
  destruct (decide (key ∈ label <$> default DEFAULT_SUBSYSTEMS (subsystems_file w)
                    ∨ key = "untagged")) as [Hk|Hk].
  - split; [done|]. intros Hno. exfalso. apply Hno. tauto.
  - destruct (decide (key = "host" ∧ _)) as [Hh|Hh].
    + split; [done|]. intros Hno. exfalso. apply Hno. tauto.
    + split; [|done]. intros Hg. exfalso. tauto.
Qed.

End TaggedMembers.

(** *** The upstream client, further *)

Section UpstreamMore.
Context `{!Env}.

(** The three steps from the request to the decoded body. *)
Lemma fetch_run {A} (w : world) url data rem dt (k : json → M A) :
  fetched w (HttpRequest "GET" url None) data rem dt →
  (resp ← client_get url; _ ← raise_for_status resp;
   data ← resp_json resp; k data) w
  = k data (answered (HttpRequest "GET" url None) rem dt w).
Proof.
  intros (resp & Hsend & Herr & Hjson).
  rewrite bind_run. unfold client_get. rewrite client_request_run, Hsend.
  rewrite bind_run. unfold raise_for_status at 1. rewrite Herr.
  cbn [mret M_ret]. rewrite bind_run. unfold resp_json at 1.
  by rewrite Hjson.
Qed.

Lemma fetch_fails_run {A} (w : world) url e rem dt (k : json → M A) :
  fetch_fails w (HttpRequest "GET" url None) e rem dt →
  (resp ← client_get url; _ ← raise_for_status resp;
   data ← resp_json resp; k data) w
  = (Exc e, answered (HttpRequest "GET" url None) rem dt w).
Proof.
  intros [Hsend|resp Hsend Herr ->|resp Hsend Herr Hjson ->];
    rewrite bind_run; unfold client_get; rewrite client_request_run, Hsend;
    [done| |].
  - rewrite bind_run. unfold raise_for_status at 1. by rewrite Herr.
  - rewrite bind_run. unfold raise_for_status at 1. rewrite Herr.
    cbn [mret M_ret]. rewrite bind_run. unfold resp_json at 1.
    by rewrite Hjson.
Qed.

Lemma cache_get_fresh (c : gmap string CacheEntry) t t' key v ttl :
  v ≠ JNull → 0 < ttl →
  Cache.get (Cache.set c t key v ttl) t' key
  = if bool_decide (t' < t + ttl) then Some v else None.
Proof.
  intros Hv Httl. unfold Cache.set, Cache.get.
  rewrite bool_decide_eq_false_2 by (intros [?|?]; [lia|done]).
  by rewrite lookup_insert_eq.
Qed.

(** X11.  [get_system] reads through the cache.  On a miss it asks the
    upstream, returns the decoded answer and stores it; a truthy answer is
    then served from the cache for [CACHE_TTL] seconds, with one cache
    look-up and no request, and from then on the upstream is asked again. *)
Theorem get_system_reads_through (w : world) data rem dt :
  misses w "system" →
  fetched w system_request data rem dt →
  let run := get_system w in
  run.1 = Ok data
  ∧ new_events w run.2
    = [EvCacheRead "system"; EvHttp system_request;
       EvCacheWrite "system" data CACHE_TTL]
  ∧ (truthy data = true → (0 < CACHE_TTL)%nat →
     ∀ w', cache w' = cache run.2 →
       ((now w' < now run.2 + CACHE_TTL)%nat →
        get_system w'
        = (Ok data, with_trace (trace w' ++ [EvCacheRead "system"]) w'))
       ∧ ((now run.2 + CACHE_TTL ≤ now w')%nat →
          ∃ evs, new_events w' (get_system w').2
                 = EvCacheRead "system" :: EvHttp system_request :: evs)).
Proof.
  intros Hmiss Hfetch. cbv zeta. unfold misses in Hmiss.
  assert (get_system w
          = (Ok data,
             with_cache
               (Cache.set (cache w) (now w + dt) "system" data CACHE_TTL)
               (with_trace
                  (trace w ++ [EvCacheRead "system"; EvHttp system_request;
                               EvCacheWrite "system" data CACHE_TTL])
                  (answered system_request rem dt w)))) as Hrun.
  { unfold get_system. rewrite bind_run, get_from_cache_run.
    cbn [cache now with_trace]. rewrite Hmiss.
    rewrite (fetch_run _ _ data rem dt) by exact Hfetch.
    rewrite bind_run, set_in_cache_run. cbn.
    by rewrite <- !app_assoc. }
  rewrite Hrun. cbn [fst snd]. split; [done|]. split.
  { unfold new_events. cbn. by rewrite drop_app_length. }
  intros Htruthy Httl w' Hcache. cbn in Hcache.
  assert (data ≠ JNull) as Hnn by (by intros ->).
  split.
  - intros Hnow. cbn in Hnow.
    unfold get_system. rewrite bind_run, get_from_cache_run.
    cbn [cache now with_trace]. rewrite Hcache, cache_get_fresh by done.
    rewrite bool_decide_eq_true_2 by done. cbn [cache_hit].
    by rewrite Htruthy.
  - intros Hnow. cbn in Hnow.
    unfold get_system. rewrite bind_run, get_from_cache_run.
    cbn [cache now with_trace]. rewrite Hcache, cache_get_fresh by done.
    rewrite bool_decide_eq_false_2 by lia. cbn [cache_hit].
    rewrite bind_run. unfold client_get. rewrite client_request_run.
    cbn [remote with_trace]. fold system_request.
    destruct (http_send system_request (remote w')) as [[[resp|e] rem'] dt'].
    + rewrite bind_run. unfold raise_for_status.
      destruct (is_error_status (status_code resp)).
      * exists []. unfold new_events. cbn. rewrite <- app_assoc.
        by rewrite drop_app_length.
      * cbn [mret M_ret]. rewrite bind_run. unfold resp_json.
        destruct (json_loads (text resp)) as [data'|].
        -- exists [EvCacheWrite "system" data' CACHE_TTL].
           cbn [mret M_ret]. rewrite bind_run, set_in_cache_run.
           unfold new_events. cbn.
           rewrite <- !app_assoc. by rewrite drop_app_length.
        -- exists []. unfold new_events. cbn. rewrite <- app_assoc.
           by rewrite drop_app_length.
    + exists []. unfold new_events. cbn. rewrite <- app_assoc.
      by rewrite drop_app_length.
Qed.

Lemma fetch_fails_later (w w' : world) rq e rem dt :
  remote w' = remote w →
  fetch_fails w rq e rem dt → fetch_fails w' rq e rem dt.
Proof.
  intros Hrem [Hsend|resp Hsend Herr ->|resp Hsend Herr Hjson ->];
    rewrite <- Hrem in Hsend.
  - by apply transport_fails.
  - by eapply status_is_error.
  - by eapply body_is_not_json.
Qed.

(** X12.  A read that fails is not cached.  When the cache has nothing for
    [get_system], [get_members] or [get_fronters] and the request to the
    upstream fails (transport error, error status, or a body that is not
    JSON), the function raises that error after its cache look-ups and the
    one request, and the cache is left as it was: the next call asks again. *)
Theorem failed_read_is_not_cached (w : world) (r : reader) e rem dt :
  Forall (misses w) (keys_of r) →
  fetch_fails w (request_of r) e rem dt →
  let run := read r w in
  run.1 = Exc e
  ∧ cache run.2 = cache w
  ∧ new_events w run.2 = (EvCacheRead <$> keys_of r) ++ [EvHttp (request_of r)].
Proof.
  intros Hmiss Hfail. cbv zeta. unfold misses in Hmiss.
  destruct r; cbn [read keys_of request_of] in *.
  - apply Forall_cons in Hmiss as [Hm _].
    unfold get_system. rewrite bind_run, get_from_cache_run.
    cbn [cache now with_trace]. rewrite Hm.
    rewrite (fetch_fails_run _ _ e rem dt)
      by (by apply (fetch_fails_later w)).
    cbn [fst snd]. split; [done|]. split; [done|].
    unfold new_events. cbn. rewrite <- app_assoc. by rewrite drop_app_length.
  - apply Forall_cons in Hmiss as [Hm [Hraw _]%Forall_cons].
    unfold get_members. rewrite bind_run, get_from_cache_run.
    cbn [cache now with_trace]. rewrite Hm.
    unfold get_members_from_raw. rewrite bind_run, get_from_cache_run.
    cbn [cache now with_trace]. rewrite Hraw. rewrite bind_run.
    rewrite (fetch_fails_run _ _ e rem dt)
      by (by apply (fetch_fails_later w)).
    cbn [fst snd]. split; [done|]. split; [done|].
    unfold new_events. cbn. rewrite <- !app_assoc. by rewrite drop_app_length.
  - apply Forall_cons in Hmiss as [Hm _].
    unfold get_fronters. rewrite bind_run, get_from_cache_run.
    cbn [cache now with_trace]. rewrite Hm.
    rewrite (fetch_fails_run _ _ e rem dt)
      by (by apply (fetch_fails_later w)).
    cbn [fst snd]. split; [done|]. split; [done|].
    unfold new_events. cbn. rewrite <- app_assoc. by rewrite drop_app_length.
Qed.

(** One step of the proof that a computation only reads. *)
Ltac reads_step :=
  first
    [ apply reads_get_from_cache | apply reads_set_in_cache
    | apply reads_client_get | apply reads_raise_for_status
    | apply reads_resp_json | apply reads_get_members
    | apply (keeps_ret (emits is_reread))
    | apply (keeps_raise (emits is_reread))
    | apply (keeps_lift (emits is_reread))
    | apply (keeps_gets (emits is_reread))
    | apply (keeps_bind (emits is_reread)); [|intros ?]
    | match goal with
      | |- keeps _ (match ?x with _ => _ end) => destruct x
      end ].

(** A computation that starts with a request and goes on reading. *)
Lemma request_starts {A} url (k : response → M A) (w : world) :
  (∀ resp, keeps (emits is_reread) (k resp)) →
  ∃ rest,
    trace ((client_get url ≫= k) w).2
    = trace w ++ EvHttp (HttpRequest "GET" url None) :: rest.
Proof.
  intros Hk. rewrite bind_run. unfold client_get. rewrite client_request_run.
  destruct (http_send _ (remote w)) as [[[resp|e] rem] dt].
  - set (w1 := with_now _ _). destruct (Hk resp w1) as (rest & Ht & _).
    exists rest. rewrite Ht. subst w1. cbn. by rewrite <- app_assoc.
  - exists []. done.
Qed.

Lemma bind_starts {A B} (m : M A) (k : A → M B) (w : world) pre :
  (∃ rest, trace (m w).2 = trace w ++ pre ++ rest) →
  (∀ a, keeps (emits is_reread) (k a)) →
  ∃ rest, trace ((m ≫= k) w).2 = trace w ++ pre ++ rest.
Proof.
  intros [rest Hm] Hk. rewrite bind_run.
  destruct (m w) as [[a|e] w1]; cbn [snd] in *; [|by exists rest].
  destruct (Hk a w1) as (rest' & Ht & _). exists (rest ++ rest').
  by rewrite Ht, Hm, <- !app_assoc.
Qed.

Lemma cache_hit_falsy (c : gmap string CacheEntry) t t' key v ttl :
  truthy v = false →
  cache_hit (Cache.get (Cache.set c t key v ttl) t' key) = None.
Proof.
  intros Hv. unfold Cache.get, Cache.set.
  case_bool_decide; rewrite lookup_insert_eq; cbn [expiry value];
    case_bool_decide; cbn [cache_hit]; by rewrite ?Hv.
Qed.

(** When neither tier has anything to offer, [get_members] asks the
    upstream. *)
Lemma get_members_asks (w : world) :
  misses w "members" → misses w "members_raw" →
  ∃ rest,
    new_events w (get_members w).2
    = EvCacheRead "members" :: EvCacheRead "members_raw"
      :: EvHttp members_request :: rest.
Proof.
  unfold misses. intros Hm Hraw.
  unfold get_members. rewrite bind_run, get_from_cache_run.
  cbn [cache now with_trace]. rewrite Hm.
  unfold get_members_from_raw. rewrite bind_run, get_from_cache_run.
  cbn [cache now with_trace]. rewrite Hraw.
  set (w2 := with_trace _ (with_trace _ w)).
  match goal with |- context [(?m ≫= ?k) w2] =>
    destruct (bind_starts m k w2 [EvHttp members_request]) as [rest Hrest] end.
  { apply request_starts. intros resp. repeat reads_step. }
  { intros a. repeat reads_step. }
  exists rest. apply new_events_app. rewrite Hrest. subst w2. cbn.
  by rewrite <- !app_assoc.
Qed.

(** X13.  An empty member list is stored in the cache but never served from
    it: the look-ups test the cached value for truth, and the empty list is
    falsy.  Once the upstream has answered with the empty list, every later
    call of [get_members], however soon, asks the upstream again. *)
Theorem empty_member_list_is_refetched (w : world) rem dt :
  misses w "members" → misses w "members_raw" →
  fetched w members_request (JList []) rem dt →
  let run := get_members w in
  run.1 = Ok (JList [])
  ∧ new_events w run.2
    = [EvCacheRead "members"; EvCacheRead "members_raw";
       EvHttp members_request;
       EvCacheWrite "members_raw" (JList []) CACHE_TTL;
       EvCacheWrite "members" (JList []) CACHE_TTL]
  ∧ ∀ w', cache w' = cache run.2 →
      ∃ rest,
        new_events w' (get_members w').2
        = EvCacheRead "members" :: EvCacheRead "members_raw"
          :: EvHttp members_request :: rest.
Proof.
  intros Hm Hraw Hfetch. cbv zeta.
  assert (get_members w
          = (Ok (JList []),
             with_cache
               (Cache.set
                  (Cache.set (cache w) (now w + dt) "members_raw" (JList [])
                     CACHE_TTL)
                  (now w + dt) "members" (JList []) CACHE_TTL)
               (with_trace
                  (trace w ++ [EvCacheRead "members"; EvCacheRead "members_raw";
                               EvHttp members_request;
                               EvCacheWrite "members_raw" (JList []) CACHE_TTL;
                               EvCacheWrite "members" (JList []) CACHE_TTL])
                  (answered members_request rem dt w)))) as Hrun.
  { unfold misses in Hm, Hraw.
    unfold get_members. rewrite bind_run, get_from_cache_run.
    cbn [cache now with_trace]. rewrite Hm.
    unfold get_members_from_raw. rewrite bind_run, get_from_cache_run.
    cbn [cache now with_trace]. rewrite Hraw. rewrite bind_run.
    rewrite (fetch_run _ _ (JList []) rem dt) by exact Hfetch.
    rewrite bind_run, set_in_cache_run. cbn [mret M_ret].
    rewrite bind_run. cbn [lift process_members py_iter mbind result_bind
                             map_result].
    rewrite bind_run, set_in_cache_run. cbn.
    by rewrite <- !app_assoc. }
  rewrite Hrun. cbn [fst snd]. split; [done|]. split.
  { apply new_events_app. done. }
  intros w' Hcache. cbn in Hcache. apply get_members_asks; unfold misses.
  - rewrite Hcache. by apply cache_hit_falsy.
  - rewrite Hcache, cache_get_set_ne by done. by apply cache_hit_falsy.
Qed.

(** X14.  When the processed tier has nothing to offer and the raw tier
    holds a truthy value, [get_members] makes no request to the upstream: it
    processes the cached raw list, and stores the processed list when the
    processing succeeds; when it fails, for a raw value that is no list of
    member records, the error is raised and nothing is stored. *)
Theorem get_members_from_raw_tier (w : world) data :
  misses w "members" →
  cache_hit (Cache.get (cache w) (now w) "members_raw") = Some data →
  let run := get_members w in
  match process_members data with
  | Ok l =>
      run.1 = Ok (JList l)
      ∧ new_events w run.2
        = [EvCacheRead "members"; EvCacheRead "members_raw";
           EvCacheWrite "members" (JList l) CACHE_TTL]
  | Exc e =>
      run.1 = Exc e
      ∧ new_events w run.2
        = [EvCacheRead "members"; EvCacheRead "members_raw"]
  end
  ∧ remote run.2 = remote w ∧ now run.2 = now w.
Proof.
  unfold misses. intros Hm Hraw. cbv zeta.
  unfold get_members. rewrite bind_run, get_from_cache_run.
  cbn [cache now with_trace]. rewrite Hm.
  unfold get_members_from_raw. rewrite bind_run, get_from_cache_run.
  cbn [cache now with_trace]. rewrite Hraw. rewrite bind_run.
  cbn [mret M_ret]. rewrite bind_run. cbn [lift].
  destruct (process_members data) as [l|e].
  - rewrite bind_run, set_in_cache_run. cbn [mret M_ret fst snd].
    split; [|done]. split; [done|]. apply new_events_app. cbn.
    by rewrite <- !app_assoc.
  - cbn [fst snd]. split; [|done]. split; [done|]. apply new_events_app. cbn.
    by rewrite <- !app_assoc.
Qed.

(** The inner loop of [get_fronters] finds the first processed member with
    the identifier of the fronter. *)
Lemma find_processed_member_run all_members member :
  Forall (λ m, is_dict m = true) all_members → is_dict member = true →
  find_processed_member all_members member
  = Ok (default JNull (find (same_id member) all_members)).
Proof.
  intros Hall Hmember. destruct member as [| | | | |d]; try done.
  induction Hall as [|m all_members Hm _ IH]; [done|].
  destruct m as [| | | | |dm]; try done.
  cbn [find_processed_member find]. unfold same_id at 1. cbn [field].
  unfold py_get, py_get_default, mbind, result_bind.
  destruct (py_eq (default JNull (dm !! "id")) (default JNull (d !! "id")));
    [done|exact IH].
Qed.

Lemma resolve_fronter_run all_members member :
  Forall (λ m, is_dict m = true) all_members → is_dict member = true →
  resolve_fronter (JList all_members) member
  = Ok (resolved all_members member).
Proof.
  intros Hall Hmember. unfold resolve_fronter, resolved.
  cbn [py_iter mbind result_bind].
  rewrite find_processed_member_run by done.
  destruct (find (same_id member) all_members) as [m|]; cbn; [|done].
  by destruct (truthy m).
Qed.

Lemma resolve_fronters_run all_members members :
  Forall (λ m, is_dict m = true) all_members →
  Forall (λ m, is_dict m = true) members →
  map_result (resolve_fronter (JList all_members)) members
  = Ok (resolved all_members <$> members).
Proof.
  intros Hall Hmembers.
  induction Hmembers as [|member members Hm _ IH]; [done|].
  cbn [map_result]. unfold mbind, result_bind.
  by rewrite resolve_fronter_run, IH.
Qed.

(** X15.  [get_fronters] on a miss, when the upstream answers with a dict
    whose "members" is a list of member dicts and the processed member list
    is in the cache: every fronter is replaced by the first processed member
    with the same identifier, so that a special display name shows in the
    fronting data too; a fronter that is not in the member list is kept as
    the upstream sent it.  The rest of the answer is not touched, and the
    result is stored under "fronters". *)
Theorem get_fronters_resolves_members (w : world) d members all_members rem dt :
  misses w "fronters" →
  fetched w fronters_request (JDict d) rem dt →
  d !! "members" = Some (JList members) →
  cache_hit (Cache.get (cache w) (now w + dt) "members")
  = Some (JList all_members) →
  Forall (λ m, is_dict m = true) all_members →
  Forall (λ m, is_dict m = true) members →
  let run := get_fronters w in
  let data := JDict (<["members" := JList (resolved all_members <$> members)]> d) in
  run.1 = Ok data
  ∧ new_events w run.2
    = [EvCacheRead "fronters"; EvHttp fronters_request; EvCacheRead "members";
       EvCacheWrite "fronters" data CACHE_TTL].
Proof.
  unfold misses. intros Hmiss Hfetch Hd Hhit Hall Hmembers. cbv zeta.
  unfold get_fronters. rewrite bind_run, get_from_cache_run.
  cbn [cache now with_trace]. rewrite Hmiss.
  rewrite (fetch_run _ _ (JDict d) rem dt) by exact Hfetch.
  rewrite bind_run. cbn [lift has_members_key].
  rewrite bool_decide_eq_true_2 by (by rewrite Hd).
  rewrite bind_run, bind_run.
  unfold get_members. rewrite bind_run, get_from_cache_run.
  cbn [cache now with_trace answered with_now with_remote].
  rewrite Hhit. cbn [mret M_ret].
  rewrite Hd. cbn [default from_option id]. rewrite bind_run.
  cbn [lift py_iter]. rewrite bind_run. cbn [lift].
  rewrite resolve_fronters_run by done. cbn [mret M_ret].
  rewrite bind_run, set_in_cache_run. cbn [fst snd]. split; [done|].
  apply new_events_app. cbn. by rewrite <- !app_assoc.
Qed.

End UpstreamMore.

(** *** The connection registry, further *)

Section RegistryMore.
Context `{!Env}.
Import ConnectionManager.

Lemma connect_run (w : world) c g :
  connect c g w
  = match ws_accept c (net w) with
    | (Ok _, n1) =>
        match active_connections w !! g with
        | Some s =>
            (Ok tt, with_active_connections
                      (<[g := s ∪ {[c]}]> (active_connections w))
                      (with_net n1 w))
        | None => (Exc (KeyError g), with_net n1 w)
        end
    | (Exc e, n1) => (Exc e, with_net n1 w)
    end.
Proof.
  unfold connect. rewrite bind_run. unfold accept.
  destruct (ws_accept c (net w)) as [[[]|e] n1]; [|done].
  rewrite bind_run, group_set_run. cbn [active_connections with_net].
  by destruct (active_connections w !! g).
Qed.

Lemma discard_after_add (a : gmap string (gset conn)) g s (c : conn) :
  a !! g = Some s →
  (λ x : gset conn, x ∖ {[c]}) <$> <[g := s ∪ {[c]}]> a
  = (λ x : gset conn, x ∖ {[c]}) <$> a.
Proof.
  intros Hg. apply map_eq. intros k. rewrite !lookup_fmap.
  destruct (decide (g = k)) as [->|Hne].
  - rewrite lookup_insert_eq, Hg. cbn. f_equal.
    by rewrite difference_union_distr_l_L, difference_diag_L,
      (right_id_L ∅ (∪)).
  - by rewrite lookup_insert_ne.
Qed.

(** X16.  [connect].  For a group that the registry holds, once the
    handshake is accepted the connection is in that group and nothing else
    has changed.  For a group that the registry does not hold the handshake
    is accepted all the same and then [KeyError] is raised: the socket is
    open but in no group.  A handshake that fails leaves the registry
    alone. *)
Theorem connect_outcome (w : world) c g :
  let run := connect c g w in
  net run.2 = (ws_accept c (net w)).2
  ∧ match (ws_accept c (net w)).1, active_connections w !! g with
    | Ok _, Some s =>
        run.1 = Ok tt
        ∧ active_connections run.2 = <[g := s ∪ {[c]}]> (active_connections w)
    | Ok _, None =>
        run.1 = Exc (KeyError g)
        ∧ active_connections run.2 = active_connections w
    | Exc e, _ =>
        run.1 = Exc e ∧ active_connections run.2 = active_connections w
    end.
Proof.
  cbv zeta. rewrite connect_run.
  destruct (ws_accept c (net w)) as [[[]|e] n1]; cbn [fst snd].
  - by destruct (active_connections w !! g).
  - done.
Qed.

(** The loop of [websocket_endpoint]: it ends with an exception, sends
    nothing but "pong" to its own socket, and leaves the registry alone. *)
Lemma receive_loop_run (w : world) websocket incoming ending :
  ∃ e outcomes,
    (receive_loop websocket incoming ending w).1 = Exc e
    ∧ active_connections (receive_loop websocket incoming ending w).2
      = active_connections w
    ∧ trace (receive_loop websocket incoming ending w).2
      = trace w ++ (EvSend websocket "pong" <$> outcomes)
    ∧ ((∀ n, (ws_send_text websocket "pong" n).1 = Sent) →
       e = ending
       ∧ outcomes
         = replicate (length (filter (λ data, data = "ping") incoming)) Sent).
Proof.
  revert w. induction incoming as [|data incoming IH]; intros w.
  { exists ending, []. cbn. by rewrite app_nil_r. }
  cbn [receive_loop]. rewrite bind_run.
  destruct (decide (data = "ping")) as [->|Hne].
  - rewrite filter_cons_True by done. cbn [length replicate].
    unfold send_or_raise. rewrite bind_run. unfold send_text.
    destruct (ws_send_text websocket "pong" (net w)) as [o n1] eqn:Hsend.
    set (w1 := with_net n1 _).
    destruct o; cbn [outcome_exn mret M_ret raise].
    + destruct (IH w1) as (e & outcomes & Hr & Ha & Ht & Hsent).
      exists e, (Sent :: outcomes). split; [done|]. split; [by rewrite Ha|].
      split; [rewrite Ht; subst w1; cbn; by rewrite <- app_assoc|].
      intros Hall. destruct (Hsent Hall) as [-> ->]. done.
    + exists WebSocketDisconnect, [SendDisconnected].
      split; [done|]. split; [done|]. split; [done|].
      intros Hall. specialize (Hall (net w)). by rewrite Hsend in Hall.
    + exists e, [SendFailed e].
      split; [done|]. split; [done|]. split; [done|].
      intros Hall. specialize (Hall (net w)). by rewrite Hsend in Hall.
  - rewrite filter_cons_False by done. cbn [mret M_ret]. apply IH.
Qed.

(** X17.  [websocket_endpoint] cleans up after itself.  Once the handshake
    is accepted, however the receive loop ends (the peer goes away, a send
    of "pong" fails, any other exception), the endpoint returns normally and
    the connection is in no group any more, while every other connection
    stays where it was.  All it sends are the "pong" answers to its own
    socket: one for every "ping" when the sends succeed. *)
Theorem websocket_endpoint_cleans_up (w : world) websocket incoming ending s n1 :
  active_connections w !! "all" = Some s →
  ws_accept websocket (net w) = (Ok tt, n1) →
  let run := websocket_endpoint websocket incoming ending w in
  run.1 = Ok tt
  ∧ active_connections run.2
    = (λ x : gset conn, x ∖ {[websocket]}) <$> active_connections w
  ∧ (∃ outcomes, new_events w run.2 = EvSend websocket "pong" <$> outcomes)
  ∧ ((∀ n, (ws_send_text websocket "pong" n).1 = Sent) →
     new_events w run.2
     = replicate (length (filter (λ data, data = "ping") incoming))
         (EvSend websocket "pong" Sent)).
Proof.
  intros Hall Haccept. cbv zeta. unfold websocket_endpoint.
  rewrite bind_run, connect_run, Haccept, Hall. unfold try_except.
  set (w1 := with_active_connections _ _).
  destruct (receive_loop_run w1 websocket incoming ending)
    as (e & outcomes & Hr & Ha & Ht & Hsent).
  destruct (receive_loop websocket incoming ending w1) as [r w2].
  cbn [fst snd] in Hr, Ha, Ht. subst r.
  assert (active_connections w2 !! "all" = Some (s ∪ {[websocket]})) as Hall2.
  { rewrite Ha. subst w1. cbn. by rewrite lookup_insert_eq. }
  rewrite (disconnect_run w2 websocket "all" _ Hall2). cbn [fst snd].
  split; [done|]. split.
  { cbn. rewrite Ha. subst w1. cbn. by apply discard_after_add. }
  assert (new_events w
            (with_active_connections
               ((λ x : gset conn, x ∖ {[websocket]}) <$> active_connections w2)
               w2)
          = EvSend websocket "pong" <$> outcomes) as Hev.
  { apply new_events_app. cbn. rewrite Ht. by subst w1. }
  split; [by exists outcomes|].
  intros Hsends. rewrite Hev. destruct (Hsent Hsends) as [_ ->].
  by rewrite fmap_replicate.
Qed.

Lemma send_text_run (w : world) c message :
  send_text c message w
  = (Ok (ws_send_text c message (net w)).1,
     with_net (ws_send_text c message (net w)).2
       (with_trace
          (trace w ++ [EvSend c message (ws_send_text c message (net w)).1])
          w)).
Proof. unfold send_text. by destruct (ws_send_text c message (net w)). Qed.

(** X18.  [send_personal_message] never raises when the registry holds the
    group "all": a send that goes through leaves the registry as it is, a
    send that raises, whatever the exception, makes the connection leave
    every group, and the exception is swallowed. *)
Theorem send_personal_message_outcome (w : world) message websocket s :
  active_connections w !! "all" = Some s →
  let run := send_personal_message message websocket w in
  let o := (ws_send_text websocket message (net w)).1 in
  run.1 = Ok tt
  ∧ new_events w run.2 = [EvSend websocket message o]
  ∧ active_connections run.2
    = if decide (o = Sent) then active_connections w
      else (λ x : gset conn, x ∖ {[websocket]}) <$> active_connections w.
Proof.
  intros Hall. cbv zeta. unfold send_personal_message.
  rewrite bind_run, send_text_run.
  set (o := (ws_send_text websocket message (net w)).1).
  set (w1 := with_net _ _).
  assert (active_connections w1 !! "all" = Some s) as Hall1 by done.
  destruct o eqn:Ho; cbn [mret M_ret];
    rewrite ?(disconnect_run w1 websocket "all" s Hall1); cbn [fst snd];
    (split; [done|]); (split; [by apply new_events_app|]); done.
Qed.

Lemma discard_discard (a : gmap string (gset conn)) (c : conn) (F : gset conn) :
  (λ x : gset conn, x ∖ F) <$> ((λ x : gset conn, x ∖ {[c]}) <$> a)
  = (λ x : gset conn, x ∖ ({[c]} ∪ F)) <$> a.
Proof.
  apply map_eq. intros k. rewrite !lookup_fmap.
  destruct (a !! k) as [x|]; [|done]. cbn. f_equal.
  by rewrite difference_difference_l_L.
Qed.

Lemma discard_nothing (a : gmap string (gset conn)) :
  (λ x : gset conn, x ∖ ∅) <$> a = a.
Proof.
  apply map_eq. intros k. rewrite lookup_fmap.
  destruct (a !! k) as [x|]; [|done]. cbn. by rewrite difference_empty_L.
Qed.

(** The loop of [broadcast_to_interested_clients]. *)
Lemma interested_sends_run l message (w : world) :
  is_Some (active_connections w !! "authenticated") →
  let os := (send_all l message (net w)).1 in
  (interested_sends l message w).1 = Ok tt
  ∧ trace (interested_sends l message w).2
    = trace w ++ (send_event message <$> os)
  ∧ active_connections (interested_sends l message w).2
    = (λ x : gset conn, x ∖ failed_of os) <$> active_connections w.
Proof.
  cbv zeta. revert w. induction l as [|c l IH]; intros w Hauth.
  { cbn. rewrite app_nil_r. split; [done|]. split; [done|].
    unfold failed_of. cbn. by rewrite discard_nothing. }
  cbn [interested_sends send_all]. rewrite bind_run, send_text_run.
  destruct (ws_send_text c message (net w)) as [o n1] eqn:Hsend.
  cbn [fst snd]. set (w1 := with_net n1 _).
  assert (is_Some (active_connections w1 !! "authenticated")) as Hauth1
    by done.
  assert (net w1 = n1) as Hnet1 by done.
  rewrite bind_run.
  destruct (decide (o = Sent)) as [->|Hne].
  - cbn [mret M_ret]. destruct (IH w1 Hauth1) as (Hr & Ht & Ha).
    rewrite Hnet1 in Ht, Ha.
    destruct (send_all l message n1) as [os n2]. cbn [fst snd] in *.
    rewrite failed_of_cons, decide_True by done.
    split; [done|]. split; [|done].
    rewrite Ht. subst w1. cbn. by rewrite <- app_assoc.
  - destruct Hauth1 as [s1 Hs1].
    assert ((match o with
             | Sent => mret ()
             | _ => disconnect c "authenticated"
             end) w1
            = (Ok tt, with_active_connections
                        ((λ x : gset conn, x ∖ {[c]}) <$> active_connections w1)
                        w1)) as ->.
    { destruct o; [done| |]; by rewrite (disconnect_run w1 c _ s1 Hs1). }
    set (w2 := with_active_connections _ w1).
    destruct (IH w2) as (Hr & Ht & Ha).
    { subst w2. cbn. rewrite lookup_fmap.
      destruct Hauth as [s0 ->]. by eexists. }
    assert (net w2 = n1) as Hnet2 by done. rewrite Hnet2 in Ht, Ha.
    destruct (send_all l message n1) as [os n2]. cbn [fst snd] in *.
    rewrite failed_of_cons, decide_False by done.
    split; [done|]. split.
    + rewrite Ht. subst w2 w1. cbn. by rewrite <- app_assoc.
    + rewrite Ha. subst w2 w1. cbn. apply discard_discard.
Qed.

(** X19.  [broadcast_to_interested_clients] takes no account of the member
    identifiers when it picks the recipients: the message goes to every
    connection of the group "authenticated", whatever [member_ids] is, which
    only shows in the "related_members" field of the message.  A connection
    whose send raises leaves every group, and the others still get the
    message; the call itself returns normally. *)
Theorem broadcast_to_interested_clients_outcome (w : world) member_ids
    message_type data s :
  active_connections w !! "authenticated" = Some s →
  let run := broadcast_to_interested_clients member_ids message_type data w in
  let message := interested_message (now w) member_ids message_type data in
  let os := (send_all (elements s) message (net w)).1 in
  run.1 = Ok tt
  ∧ os.*1 = elements s
  ∧ new_events w run.2 = send_event message <$> os
  ∧ active_connections run.2
    = (λ x : gset conn, x ∖ failed_of os) <$> active_connections w.
Proof.
  intros Hauth. cbv zeta. unfold broadcast_to_interested_clients.
  rewrite bind_run. cbn [gets]. rewrite bind_run, group_set_run, Hauth.
  fold (interested_message (now w) member_ids message_type data).
  destruct (interested_sends_run (elements s)
              (interested_message (now w) member_ids message_type data) w)
    as (Hr & Ht & Ha); [by eexists|].
  split; [done|]. split; [apply send_all_conns|].
  split; [by apply new_events_app|done].
Qed.

(** **** What the registry never does *)

Lemma shrinks_refl (w w' : world) :
  active_connections w' = active_connections w → registry_shrinks w w'.
Proof.
  intros Ha g. rewrite Ha. by destruct (active_connections w !! g).
Qed.

Lemma shrinks_discard (w w' : world) (F : gset conn) :
  active_connections w'
  = (λ x : gset conn, x ∖ F) <$> active_connections w →
  registry_shrinks w w'.
Proof.
  intros Ha g. rewrite Ha, lookup_fmap.
  destruct (active_connections w !! g) as [x|]; cbn; [|done].
  by apply subseteq_difference_l.
Qed.

Lemma shrinks_disconnect (w : world) c g :
  registry_shrinks w (disconnect c g w).2.
Proof.
  destruct (active_connections w !! g) as [x|] eqn:Hg.
  - rewrite (disconnect_run w c g x Hg). by apply (shrinks_discard _ _ {[c]}).
  - rewrite (disconnect_unregistered_group w c g Hg). by apply shrinks_refl.
Qed.

Lemma shrinks_broadcast (w : world) message g :
  registry_shrinks w (broadcast message g w).2.
Proof.
  destruct (active_connections w !! g) as [x|] eqn:Hg.
  - rewrite (broadcast_run message g x w Hg). cbv zeta.
    by eapply shrinks_discard.
  - unfold broadcast. rewrite bind_run. cbn [log modify].
    rewrite bind_run, group_set_run. cbn [active_connections with_trace].
    rewrite Hg. by apply shrinks_refl.
Qed.

(** X20.  No operation on the registry other than [connect] ever puts a
    connection into a group or changes which groups there are: after
    [disconnect], [send_personal_message], [broadcast], [broadcast_json],
    [broadcast_to_interested_clients], a whole run of [websocket_endpoint]
    or [broadcast_frontend_update], whatever their arguments and whether
    they raise or not, every group holds a subset of what it held.  As
    [websocket_endpoint] connects to "all" only, a group "authenticated"
    that is empty stays empty. *)
Theorem registry_never_grows (w : world) (op : registry_op) :
  let w' := (run_op op w).2 in
  registry_shrinks w w'
  ∧ (active_connections w !! "authenticated" = Some ∅ →
     active_connections w' !! "authenticated" = Some ∅).
Proof.
  cbv zeta.
  assert (registry_shrinks w (run_op op w).2) as Hshrinks.
  { destruct op as [c g|message c|message g|data g|ids ty data|c incoming ending
                   |ty data]; cbn [run_op].
    - apply shrinks_disconnect.
    - unfold send_personal_message. rewrite bind_run, send_text_run.
      set (w1 := with_net _ _).
      destruct ((ws_send_text c message (net w)).1);
        [by apply shrinks_refl| |];
        (intros g; specialize (shrinks_disconnect w1 c "all" g); done).
    - apply shrinks_broadcast.
    - apply shrinks_broadcast.
    - unfold broadcast_to_interested_clients.
      rewrite bind_run. cbn [gets]. rewrite bind_run, group_set_run.
      destruct (active_connections w !! "authenticated") as [x|] eqn:Hauth;
        [|by apply shrinks_refl].
      match goal with |- context [interested_sends ?l ?m w] =>
        destruct (interested_sends_run l m w) as (_ & _ & Ha);
          [by eexists|] end.
      by eapply shrinks_discard.
    - unfold websocket_endpoint. rewrite bind_run, connect_run.
      destruct (ws_accept c (net w)) as [[[]|e] n1]; [|by apply shrinks_refl].
      destruct (active_connections w !! "all") as [x|] eqn:Hall;
        [|by apply shrinks_refl].
      unfold try_except. set (w1 := with_active_connections _ _).
      destruct (receive_loop_run w1 c incoming ending)
        as (e & outcomes & Hr & Ha & _).
      destruct (receive_loop c incoming ending w1) as [r w2].
      cbn [fst snd] in Hr, Ha. subst r.
      assert (active_connections w2 !! "all" = Some (x ∪ {[c]})) as Hall2.
      { rewrite Ha. subst w1. cbn. by rewrite lookup_insert_eq. }
      rewrite (disconnect_run w2 c "all" _ Hall2). cbn [snd].
      apply (shrinks_discard _ _ {[c]}). cbn. rewrite Ha. subst w1. cbn.
      by apply discard_after_add.
    - unfold broadcast_frontend_update. rewrite bind_run. cbn [gets].
      apply shrinks_broadcast. }
  split; [exact Hshrinks|]. intros Hauth.
  specialize (Hshrinks "authenticated"). rewrite Hauth in Hshrinks.
  destruct (active_connections (run_op op w).2 !! "authenticated") as [x|];
    [|done].
  f_equal. apply leibniz_equiv. by apply equiv_empty.
Qed.

End RegistryMore.

(** *** The endpoints, further *)

Section EndpointsMore.
Context `{!Env}.
Import ConnectionManager.

Lemma broadcast_frontend_update_run (w : world) data_type data s :
  active_connections w !! "all" = Some s →
  let message := frontend_message (now w) data_type data in
  let os := (send_all (elements s) message (net w)).1 in
  (broadcast_frontend_update data_type data w).1 = Ok tt
  ∧ trace (broadcast_frontend_update data_type data w).2
    = trace w ++ EvBroadcast "all" message :: (send_event message <$> os)
  ∧ os.*1 = elements s.
Proof.
  intros Hall. cbv zeta. unfold broadcast_frontend_update, broadcast_json.
  rewrite bind_run. cbn [gets].
  fold (frontend_message (now w) data_type data).
  rewrite (broadcast_run _ "all" s w Hall). cbv zeta. cbn [fst snd].
  split; [done|]. split; [done|apply send_all_conns].
Qed.

(** Every connection of the group is sent the message. *)
Lemma sent_to_each (s : gset conn) (os : list (conn * send_outcome)) message c :
  os.*1 = elements s → c ∈ s →
  ∃ o, EvSend c message o ∈ send_event message <$> os.
Proof.
  intros Hconns Hc.
  apply elem_of_elements in Hc. rewrite <- Hconns in Hc.
  apply list_elem_of_fmap in Hc as ([c' o] & -> & Hin). exists o.
  apply list_elem_of_fmap. by exists (c', o).
Qed.

(** X21.  [switch_single_front] with a body that is a dict without a truthy
    "member_id" (none at all, [null], the empty string, 0, an empty list):
    the answer is the client error 400, which this endpoint lets through,
    and nothing has happened: no cache write, no request, no broadcast. *)
Theorem switch_single_front_requires_member_id (w : world)
    (d : gmap string json) :
  truthy (default JNull (d !! "member_id")) = false →
  switch_single_front (Ok (JDict d)) w
  = (Exc (HTTPException 400 "member_id is required"), w).
Proof.
  intros Hfalsy. unfold switch_single_front, try_except.
  rewrite bind_run. cbn [lift]. rewrite bind_run.
  cbn [lift py_get py_get_default]. by rewrite Hfalsy.
Qed.

Lemma set_front_refused (w : world) member_ids resp rem dt :
  http_send (switch_request member_ids) (remote w) = (Ok resp, rem, dt) →
  status_code resp ∉ [200; 204] →
  (set_front member_ids w).1 = Exc (switch_refused resp).
Proof.
  intros Hsend Hstatus. unfold set_front.
  rewrite bind_run, set_in_cache_run, bind_run.
  change (client_post _ _) with (client_request (switch_request member_ids)).
  rewrite client_request_run. cbn [remote with_cache with_trace].
  rewrite Hsend. unfold set_front_result.
  by rewrite bool_decide_eq_true_2.
Qed.

(** The body of [switch_front] for a list that is not too long. *)
Lemma switch_front_accepted (w : world) (d : gmap string json) ids :
  d !! "members" = Some (JList ids) → (length ids ≤ MAX_FRONTERS)%nat →
  switch_front (Ok (JDict d)) w
  = try_except
      (_ ← set_front (JList ids);
       fronters_data ← get_fronters;
       _ ← broadcast_fronting_update fronters_data;
       mret (JDict {[ "status" := JStr "success";
                      "message" := JStr "Front updated successfully" ]}))
      reraise_as_500 w.
Proof.
  intros Hd Hlen. unfold switch_front, try_except.
  rewrite bind_run. cbn [lift]. rewrite bind_run.
  cbn [lift py_get_default]. rewrite Hd. cbn [default from_option id].
  by rewrite bool_decide_eq_false_2 by lia.
Qed.

(** X22.  A switch that the upstream refuses.  When the answer to the POST
    has a status other than 200 and 204, [switch_front] answers 500 with the
    status and the body of the upstream in the detail.  By then the cached
    fronters have been dropped; the fronters are not read again and nothing
    is broadcast. *)
Theorem switch_front_refused_by_upstream (w : world) (d : gmap string json)
    ids resp rem dt :
  d !! "members" = Some (JList ids) → (length ids ≤ MAX_FRONTERS)%nat →
  http_send (switch_request (JList ids)) (remote w) = (Ok resp, rem, dt) →
  status_code resp ∉ [200; 204] →
  let run := switch_front (Ok (JDict d)) w in
  run.1 = Exc (HTTPException 500 (str_exn (switch_refused resp)))
  ∧ new_events w run.2
    = [EvCacheWrite "fronters" JNull 0; EvHttp (switch_request (JList ids))]
  ∧ (∀ t, Cache.get (cache run.2) t "fronters" = None).
Proof.
  intros Hd Hlen Hsend Hstatus. cbv zeta.
  rewrite (switch_front_accepted w d ids Hd Hlen). unfold try_except.
  rewrite bind_run.
  pose proof (set_front_refused w (JList ids) resp rem dt Hsend Hstatus) as Hr.
  pose proof (set_front_trace (JList ids) w) as Ht.
  assert (cache (set_front (JList ids) w).2
          = Cache.set (cache w) (now w) "fronters" JNull 0) as Hc.
  { unfold set_front. rewrite bind_run, set_in_cache_run, bind_run.
    change (client_post _ _)
      with (client_request (switch_request (JList ids))).
    rewrite client_request_run. cbn [remote with_cache with_trace].
    rewrite Hsend. rewrite (surjective_pairing (set_front_result resp _)).
    by rewrite set_front_result_keeps_world. }
  destruct (set_front (JList ids) w) as [r w1]. cbn [fst snd] in Hr, Ht, Hc.
  subst r. cbn [reraise_as_500 raise fst snd].
  split; [done|]. split; [by apply new_events_app|].
  intros t. rewrite Hc. apply cache_get_invalidated.
Qed.

(** X23.  A switch that goes through reaches every subscriber.  When
    [set_front] and the re-read of the fronters succeed, [switch_front]
    answers with a success and every connection that is in the group "all"
    at that moment is sent the "fronting_update" message with the fronters
    that were just read, whether or not the sends to the others succeed. *)
Theorem switch_front_notifies_subscribers (w w2 : world)
    (d : gmap string json) ids result fronters_data s :
  d !! "members" = Some (JList ids) → (length ids ≤ MAX_FRONTERS)%nat →
  (set_front (JList ids) w).1 = Ok result →
  get_fronters (set_front (JList ids) w).2 = (Ok fronters_data, w2) →
  active_connections w2 !! "all" = Some s →
  let run := switch_front (Ok (JDict d)) w in
  run.1 = Ok (JDict {[ "status" := JStr "success";
                       "message" := JStr "Front updated successfully" ]})
  ∧ ∀ c, c ∈ s →
      ∃ o, EvSend c (frontend_message (now w2) "fronting_update" fronters_data) o
           ∈ new_events w run.2.
Proof.
  intros Hd Hlen Hset Hget Hall. cbv zeta.
  rewrite (switch_front_accepted w d ids Hd Hlen). unfold try_except.
  rewrite bind_run.
  pose proof (set_front_trace (JList ids) w) as Ht1.
  destruct (set_front (JList ids) w) as [r w1]. cbn [fst snd] in *. subst r.
  rewrite bind_run, Hget, bind_run. unfold broadcast_fronting_update.
  destruct (get_fronters_trace w1) as (rest & Ht2 & _).
  rewrite Hget in Ht2. cbn [snd] in Ht2.
  destruct (broadcast_frontend_update_run w2 "fronting_update" fronters_data s
              Hall) as (Hr & Ht3 & Hconns).
  destruct (broadcast_frontend_update "fronting_update" fronters_data w2)
    as [r w3]. cbn [fst snd] in *. subst r. cbn [mret M_ret fst snd].
  split; [done|]. intros c Hc.
  destruct (sent_to_each s _
              (frontend_message (now w2) "fronting_update" fronters_data) c
              Hconns Hc) as [o Ho].
  exists o.
  rewrite (new_events_app w w3
             ([EvCacheWrite "fronters" JNull 0;
               EvHttp (switch_request (JList ids))]
              ++ (EvCacheRead "fronters" :: rest)
              ++ EvBroadcast "all"
                   (frontend_message (now w2) "fronting_update" fronters_data)
                 :: (send_event
                       (frontend_message (now w2) "fronting_update"
                          fronters_data)
                     <$> (send_all (elements s)
                            (frontend_message (now w2) "fronting_update"
                               fronters_data) (net w2)).1)))
    by (by rewrite Ht3, Ht2, Ht1, <- !app_assoc).
  apply elem_of_app. right. apply elem_of_app. right.
  apply elem_of_cons. by right.
Qed.

(** X24.  A switch that goes through upstream but whose re-read fails.
    When [set_front] succeeds and [get_fronters] then raises, [switch_front]
    answers 500 although the switch request has been sent and accepted, and
    no subscriber is told about the new front. *)
Theorem switch_front_reread_fails (w w2 : world) (d : gmap string json)
    ids result e :
  d !! "members" = Some (JList ids) → (length ids ≤ MAX_FRONTERS)%nat →
  (set_front (JList ids) w).1 = Ok result →
  get_fronters (set_front (JList ids) w).2 = (Exc e, w2) →
  let run := switch_front (Ok (JDict d)) w in
  run.1 = Exc (HTTPException 500 (str_exn e))
  ∧ EvHttp (switch_request (JList ids)) ∈ new_events w run.2
  ∧ Forall (λ ev, is_broadcast ev = false) (new_events w run.2).
Proof.
  intros Hd Hlen Hset Hget. cbv zeta.
  rewrite (switch_front_accepted w d ids Hd Hlen). unfold try_except.
  rewrite bind_run.
  pose proof (set_front_trace (JList ids) w) as Ht1.
  destruct (set_front (JList ids) w) as [r w1]. cbn [fst snd] in *. subst r.
  rewrite bind_run, Hget. cbn [reraise_as_500 raise fst snd].
  destruct (get_fronters_trace w1) as (rest & Ht2 & Hrest).
  rewrite Hget in Ht2. cbn [snd] in Ht2.
  rewrite (new_events_app w w2
             ([EvCacheWrite "fronters" JNull 0;
               EvHttp (switch_request (JList ids))]
              ++ EvCacheRead "fronters" :: rest))
    by (by rewrite Ht2, Ht1, <- !app_assoc).
  split; [done|]. split.
  { apply elem_of_app. left. apply elem_of_cons. right.
    by apply list_elem_of_singleton. }
  apply Forall_app. split; [by repeat constructor|].
  constructor; [done|].
  eapply Forall_impl; [exact Hrest|]. intros ev Hev. by destruct ev.
Qed.

(** X25.  [update_mental_state].  Anyone but an administrator is turned
    down with 403 and nothing happens.  For an administrator the state is
    written to its file first; when the registry holds the group "all" the
    answer is a success and every connection of that group is sent the
    "mental_state_update" message with the state, even if some sends
    fail. *)
Theorem update_mental_state_outcome (w : world) state user s :
  active_connections w !! "all" = Some s →
  let run := update_mental_state state user w in
  if is_admin user then
    run.1 = Ok (JDict {[ "success" := JBool true;
                         "message" := JStr "Mental state updated" ]})
    ∧ mental_state_file run.2 = Some (mental_state_data state)
    ∧ ∀ c, c ∈ s →
        ∃ o, EvSend c (frontend_message (now w) "mental_state_update"
                         (mental_state_data state)) o
             ∈ new_events w run.2
  else
    run = (Exc (HTTPException 403 "Admin privileges required"), w).
Proof.
  intros Hall. cbv zeta. unfold update_mental_state.
  destruct (is_admin user); cbn [negb]; [|done].
  unfold try_except. rewrite bind_run. cbn [log modify].
  rewrite bind_run. cbn [modify].
  set (w1 := with_mental_state_file _ _). rewrite bind_run.
  unfold broadcast_mental_state_update.
  assert (active_connections w1 !! "all" = Some s) as Hall1 by done.
  destruct (broadcast_frontend_update_run w1 "mental_state_update"
              (mental_state_data state) s Hall1) as (Hr & Ht & Hconns).
  assert (mental_state_file
            (broadcast_frontend_update "mental_state_update"
               (mental_state_data state) w1).2
          = Some (mental_state_data state)) as Hfile.
  { unfold broadcast_frontend_update, broadcast_json. rewrite bind_run.
    cbn [gets]. by rewrite (broadcast_run _ "all" s w1 Hall1). }
  destruct (broadcast_frontend_update "mental_state_update"
              (mental_state_data state) w1) as [r w2].
  cbn [fst snd] in *. subst r. cbn [mret M_ret fst snd].
  split; [done|]. split; [done|]. intros c Hc.
  destruct (sent_to_each s _
              (frontend_message (now w1) "mental_state_update"
                 (mental_state_data state)) c Hconns Hc) as [o Ho].
  exists o.
  rewrite (new_events_app w w2
             ([EvFileWrite MENTAL_STATE_FILE]
              ++ EvBroadcast "all"
                   (frontend_message (now w1) "mental_state_update"
                      (mental_state_data state))
                 :: (send_event
                       (frontend_message (now w1) "mental_state_update"
                          (mental_state_data state))
                     <$> (send_all (elements s)
                            (frontend_message (now w1) "mental_state_update"
                               (mental_state_data state)) (net w1)).1)))
    by (rewrite Ht; subst w1; cbn; by rewrite <- !app_assoc).
  apply elem_of_app. right. apply elem_of_cons. by right.
Qed.

(** X26.  [admin_refresh].  Anyone but an administrator is turned down with
    403 and nothing is sent.  For an administrator, when the registry holds
    the group "all", the answer is a success and every connection of that
    group is sent the "force_refresh" message; no cache entry, file or
    upstream state is touched. *)
Theorem admin_refresh_outcome (w : world) user s :
  active_connections w !! "all" = Some s →
  let run := admin_refresh user w in
  let message :=
    frontend_message (now w) "force_refresh"
      (JDict {[ "message" := JStr "Admin initiated refresh" ]}) in
  if is_admin user then
    run.1 = Ok (JDict {[ "success" := JBool true;
                         "message" := JStr "Refresh broadcast sent" ]})
    ∧ new_events w run.2
      = EvBroadcast "all" message
        :: (send_event message
            <$> (send_all (elements s) message (net w)).1)
    ∧ (send_all (elements s) message (net w)).1.*1 = elements s
  else
    run = (Exc (HTTPException 403 "Admin privileges required"), w).
Proof.
  intros Hall. cbv zeta. unfold admin_refresh.
  destruct (is_admin user); cbn [negb]; [|done].
  unfold try_except. rewrite bind_run.
  destruct (broadcast_frontend_update_run w "force_refresh"
              (JDict {[ "message" := JStr "Admin initiated refresh" ]}) s Hall)
    as (Hr & Ht & Hconns).
  destruct (broadcast_frontend_update "force_refresh" _ w) as [r w1].
  cbn [fst snd] in *. subst r. cbn [mret M_ret fst snd].
  split; [done|]. split; [by apply new_events_app|done].
Qed.

End EndpointsMore.

(** *** The detail of a member *)

Section MemberDetailMore.
Context `{!Env}.
Variable str_lower : string → string.

Lemma find_member_detail_run members member_id :
  Forall (λ member, has_id_and_name member = true) members →
  find_member_detail str_lower members member_id
  = Ok (find (is_asked_for str_lower member_id) members).
Proof.
  induction 1 as [|member members Hm _ IH]; [done|].
  destruct member as [| | | | |d]; try done.
  cbn [has_id_and_name] in Hm. apply andb_true_iff in Hm as [Hid Hname].
  apply bool_decide_eq_true in Hid as [i Hi].
  destruct (d !! "name") as [[| | |n| |]|] eqn:Hn; try done.
  cbn [find_member_detail find]. unfold is_asked_for at 1, name_of.
  cbn [field py_getitem]. rewrite Hi, Hn. cbn.
  destruct (py_eq i (JStr member_id)); cbn; [done|].
  destruct (decide (str_lower n = str_lower member_id)) as [Heq|Hne].
  - by rewrite bool_decide_eq_true_2.
  - by rewrite bool_decide_eq_false_2.
Qed.

(** X27.  [member_detail] never answers 404.  When the member list is there
    and no member has the identifier or, case aside, the name that is asked
    for, the [HTTPException] with status 404 that the code raises is caught
    by the handler of the same function and answered as 500, with the text
    of the 404 in the detail.  Otherwise the answer is the first member
    that has the identifier or the name. *)
Theorem member_detail_not_found_is_500 (w : world) member_id members :
  (get_members w).1 = Ok (JList members) →
  Forall (λ member, has_id_and_name member = true) members →
  (member_detail str_lower member_id w).1
  = match find (is_asked_for str_lower member_id) members with
    | Some member => Ok member
    | None =>
        Exc (HTTPException 500
               ("Failed to fetch member details: "
                +:+ str_exn (HTTPException 404 "Member not found")))
    end.
Proof.
  intros Hget Hall. unfold member_detail, try_except. rewrite bind_run.
  destruct (get_members w) as [r w1]. cbn [fst] in Hget. subst r.
  rewrite bind_run. cbn [lift py_iter]. rewrite bind_run. cbn [lift].
  rewrite (find_member_detail_run _ _ Hall).
  by destruct (find (is_asked_for str_lower member_id) members).
Qed.

End MemberDetailMore.

(** *** The colour of the member page *)

Section Colors.

Lemma hex_digit_cases (P : Ascii.ascii → Prop) a :
  is_hex_digit a = true →
  Forall P (String.list_ascii_of_string "0123456789abcdefABCDEF") → P a.
Proof.
  intros Ha%bool_decide_eq_true HP.
  by apply (proj1 (Forall_forall _ _) HP).
Qed.

Lemma upper_hex_cases (P : Ascii.ascii → Prop) a :
  is_upper_hex a = true →
  Forall P (String.list_ascii_of_string "0123456789ABCDEF") → P a.
Proof.
  intros Ha%bool_decide_eq_true HP.
  by apply (proj1 (Forall_forall _ _) HP).
Qed.

Lemma upper_of_hex_digit a :
  is_hex_digit a = true → is_upper_hex (ascii_upper a) = true.
Proof.
  intros Ha.
  apply (hex_digit_cases (λ a, is_upper_hex (ascii_upper a) = true) a Ha).
  cbn [String.list_ascii_of_string].
  repeat (constructor; [by vm_compute|]). constructor.
Qed.

Lemma upper_hex_fixed a :
  is_upper_hex a = true →
  a ≠ hash_char ∧ is_hex_digit a = true ∧ ascii_upper a = a.
Proof.
  intros Ha.
  apply (upper_hex_cases
           (λ a, a ≠ hash_char ∧ is_hex_digit a = true ∧ ascii_upper a = a)
           a Ha).
  cbn [String.list_ascii_of_string].
  repeat (constructor; [by vm_compute|]). constructor.
Qed.

Lemma string_upper_length c :
  String.length (string_upper c) = String.length c.
Proof. induction c as [|a c IH]; [done|]. cbn. by rewrite IH. Qed.

Lemma string_upper_hex c :
  forallb is_hex_digit (String.list_ascii_of_string c) = true →
  forallb is_upper_hex (String.list_ascii_of_string (string_upper c)) = true.
Proof.
  induction c as [|a c IH]; [done|]. cbn.
  intros [Ha Hc]%andb_true_iff.
  by rewrite upper_of_hex_digit, IH.
Qed.

Lemma upper_hex_string_fixed c :
  forallb is_upper_hex (String.list_ascii_of_string c) = true →
  forallb is_hex_digit (String.list_ascii_of_string c) = true
  ∧ string_upper c = c
  ∧ lstrip_hash c = c.
Proof.
  induction c as [|a c IH]; [done|]. cbn.
  intros [Ha Hc]%andb_true_iff.
  destruct (upper_hex_fixed a Ha) as (Hne & Hhex & Hup).
  destruct (IH Hc) as (Hall & Hfix & _).
  rewrite Hhex, Hall, Hup, Hfix. by rewrite decide_False.
Qed.

(** X28.  [normalize_hex], the helper of [serve_member_page], always yields
    a colour of the form "#" followed by six upper-case hexadecimal digits,
    whatever it is given (with the default "#FF69B4"): a value that is not a
    string, or not six hexadecimal digits after its leading "#" signs, gives
    the default.  Normalizing twice changes nothing. *)
Theorem normalize_hex_canonical (color : json) :
  let out := normalize_hex color DEFAULT_COLOR in
  is_canonical_color out = true
  ∧ normalize_hex (JStr out) DEFAULT_COLOR = out.
Proof.
  cbv zeta.
  assert (∀ s, is_canonical_color s = true →
               normalize_hex (JStr s) DEFAULT_COLOR = s) as Hfixed.
  { intros [|a c]; [done|]. cbn [is_canonical_color].
    intros [[->%bool_decide_eq_true Hlen]%andb_true_iff Hc]%andb_true_iff.
    destruct (upper_hex_string_fixed c Hc) as (Hall & Hfix & Hstrip).
    unfold normalize_hex. rewrite decide_False by done.
    cbn [lstrip_hash]. rewrite decide_True by done.
    by rewrite Hstrip, Hlen, Hall, Hfix. }
  assert (is_canonical_color (normalize_hex color DEFAULT_COLOR) = true)
    as Hcanon.
  { unfold normalize_hex. destruct color as [| | |s| |]; try done.
    destruct (decide (s = "")); [done|].
    destruct (bool_decide (String.length (lstrip_hash s) = 6)) eqn:Hlen;
      [|done].
    destruct (forallb is_hex_digit
                (String.list_ascii_of_string (lstrip_hash s))) eqn:Hall;
      [|done].
    cbn [andb is_canonical_color].
    rewrite bool_decide_eq_true_2 by done.
    rewrite string_upper_length, Hlen. by rewrite string_upper_hex. }
  split; [exact Hcanon|]. by apply Hfixed.
Qed.

End Colors.

(** ** The code at work in the concrete environment *)

#[local] Existing Instance Demo.env.

(** C7, an instance: "abcde" (the identifier) and "Jinx" (the name) are both
    keys; the tags of the name are returned and attached. *)
Lemma tags_resolved_by_name_first_witness :
  let w := with_member_tags_file
             (Some {[ "abcde" := ["Host"]; "Jinx" := ["Arcane"] ]})
             (Demo.start 200) in
  let d : gmap string json := {[ "id" := JStr "abcde"; "name" := JStr "Jinx" ]} in
  (get_member_tags_by_id (JStr "abcde") (JStr "Jinx") w).1 = Ok ["Arcane"]
  ∧ (enrich_member (JDict d) w).1
    = Ok (JDict (<["tags" := JList [JStr "Arcane"]]> d)).
Proof.
  intros w d.
  destruct (tags_resolved_by_name_first w d "abcde" "Jinx" ["Host"] ["Arcane"])
    as [Hby_id Henrich]; [reflexivity | reflexivity |].
  split; [exact Hby_id|]. apply Henrich; reflexivity.
Defined.

(** C7 as stated fails: with both keys present the list of the identifier,
    ["Host"], is not what comes back. *)
Lemma identifier_does_not_take_precedence :
  let w := with_member_tags_file
             (Some {[ "abcde" := ["Host"]; "Jinx" := ["Arcane"] ]})
             (Demo.start 200) in
  loaded_member_tags w !! "abcde" = Some ["Host"]
  ∧ loaded_member_tags w !! "Jinx" = Some ["Arcane"]
  ∧ (get_member_tags_by_id (JStr "abcde") (JStr "Jinx") w).1 ≠ Ok ["Host"].
Proof.
  intros w. split; [reflexivity|]. split; [reflexivity|].
  vm_compute. discriminate.
Qed.

(** C10 as stated fails: with no tag file yet, a removal that finds nothing
    returns [False] and has nevertheless written the file. *)
Lemma remove_member_tag_failure_writes :
  let w := Demo.start 200 in
  let run := remove_member_tag "nobody" "x" w in
  run.1 = Ok false
  ∧ member_tags_file w = None
  ∧ member_tags_file run.2 = Some DEFAULT_MEMBER_TAGS
  ∧ new_events w run.2 = [EvFileWrite MEMBER_TAGS_FILE].
Proof. repeat split; vm_compute; reflexivity. Qed.

(** C6, an instance: the upstream answers 204 with no body. *)
Lemma set_front_outcome_witness :
  (set_front (JList [JStr "abcde"]) (Demo.start 204)).1 = Ok JNull.
Proof.
  exact (set_front_outcome (Demo.start 204) (JList [JStr "abcde"])
           (Response 204 "") 204 1 eq_refl).
Defined.

(** C6 as stated fails: 201 is a 2xx status, and [set_front] raises. *)
Lemma set_front_rejects_201 :
  let w := Demo.start 201 in
  http_send (switch_request (JList [])) (remote w)
    = (Ok (Response 201 ""), 201, 1)
  ∧ (200 ≤ 201 ≤ 299)%nat
  ∧ (set_front (JList []) w).1
    = Exc (PyException "Failed to set front: 201 - ").
Proof. split; [reflexivity|]. split; [lia|]. vm_compute. reflexivity. Qed.

(** C5, an instance: six members where five are allowed. *)
Lemma over_limit_switch_is_500_witness :
  let w := Demo.start 200 in
  let ids := replicate 6 (JStr "abcde") in
  switch_front (Ok (JDict {[ "members" := JList ids ]})) w
  = (Exc (HTTPException 500
            "400: Cannot have more than 5 members fronting at once"), w)
  ∧ switch_multiple_fronters {[ "member_ids" := JList ids ]} w
    = (Exc (HTTPException 500
              "400: Cannot have more than 5 members fronting at once"), w).
Proof.
  intros w ids.
  destruct (over_limit_switch_is_500 w ids) as [Hswitch Hmulti];
    [vm_compute; lia|].
  split; [apply Hswitch|apply Hmulti]; reflexivity.
Defined.



(** C4, an instance: connections 1 and 2 are in "all", the socket of 2 is
    dead. *)
Lemma broadcast_isolates_failures_witness :
  let w := with_net {[2]}
             (with_active_connections
                {[ "all" := {[1; 2]}; "authenticated" := {[2]} ]}
                (Demo.start 200)) in
  let run := ConnectionManager.broadcast "hello" "all" w in
  run.1 = Ok tt
  ∧ EvSend 1 "hello" Sent ∈ new_events w run.2
  ∧ active_connections run.2 = {[ "all" := {[1]}; "authenticated" := ∅ ]}.
Proof.
  intros w run.
  destruct (broadcast_isolates_failures w "hello" "all" {[1; 2]})
    as (Hok & Hevs & Hall); [reflexivity|].
  subst run. split; [exact Hok|]. split; [|reflexivity].
  rewrite Hevs. apply list_elem_of_In. vm_compute. tauto.
Defined.

(** C9, an instance: a cold cache, and an upstream whose first member is
    named "system". *)
Lemma system_member_shown_as_Unsure_witness :
  let d : gmap string json := {[ "id" := JStr "abcde"; "name" := JStr "system" ]} in
  ∃ l (d' : gmap string json),
    (get_members (Demo.start 200)).1 = Ok (JList l)
    ∧ length l = 2
    ∧ l !! 0 = Some (JDict d')
    ∧ d' !! "display_name" = Some (JStr "Unsure")
    ∧ d' !! "is_special" = Some (JBool true)
    ∧ d' !! "original_name" = Some (JStr "system")
    ∧ ∀ k, k ∉ ["display_name"; "is_special"; "original_name"] →
           d' !! k = d !! k.
Proof.
  intros d.
  apply (system_member_shown_as_Unsure (Demo.start 200)
           [ JDict {[ "id" := JStr "abcde"; "name" := JStr "system" ]};
             JDict {[ "id" := JStr "fghij"; "name" := JStr "Jinx" ]} ] 0 d).
  - reflexivity.
  - apply (@raw_fetched Demo.env _ _ (Response 200 "members") 200 1);
      reflexivity.
  - repeat constructor.
  - reflexivity.
  - reflexivity.
Defined.

(** C9 as stated fails: a record named "system" that has a field
    [original_name] of its own comes back with that field overwritten, so
    not all its other fields are unchanged. *)
Lemma system_member_original_name_overwritten :
  let d : gmap string json :=
    {[ "name" := JStr "system"; "original_name" := JStr "x" ]} in
  let w := with_cache (Cache.set ∅ 1000 "members_raw" (JList [JDict d]) 30)
             (Demo.start 200) in
  ∃ d' : gmap string json,
    (get_members w).1 = Ok (JList [JDict d'])
    ∧ ("original_name" ∉ ["display_name"; "is_special"])
    ∧ d !! "original_name" = Some (JStr "x")
    ∧ d' !! "original_name" = Some (JStr "system").
Proof.
  intros d w.
  exists (<["original_name" := JStr "system"]>
         (<["is_special" := JBool true]>
         (<["display_name" := JStr "Unsure"]> d))).
  split; [vm_compute; reflexivity|].
  split; [rewrite !not_elem_of_cons; repeat split; [done|done|apply not_elem_of_nil]|].
  split; reflexivity.
Qed.

(** C1, an instance: the processed list is in the cache when an
    administrator replaces the tags of "Jinx"; the update succeeds, the raw
    tier is gone, and [get_members] still returns the old processed list. *)
Lemma tag_updates_leave_processed_members_witness :
  let v := JList [ JDict {[ "id" := JStr "fghij"; "name" := JStr "Jinx" ]} ] in
  let w := with_cache
             (Cache.set (Cache.set ∅ 1000 "members_raw" v 30) 1000 "members" v 30)
             (Demo.start 200) in
  let run := update_member_tag_list "Jinx" ["host"] {| is_admin := true |} w in
  is_ok run.1 = true
  ∧ raw_tier_invalidated run.2
  ∧ (get_members run.2).1 = Ok v
  ∧ new_events run.2 (get_members run.2).2 = [EvCacheRead "members"].
Proof.
  intros v w run.
  destruct (tag_updates_leave_processed_members w v) as [Hupdate _];
    [reflexivity|].
  destruct (Hupdate "Jinx" ["host"] {| is_admin := true |})
    as (_ & Hraw & _ & Hget & Hevs).
  assert (is_ok run.1 = true) as Hok by reflexivity.
  split; [exact Hok|]. split; [exact (Hraw Hok)|]. split; [exact Hget|exact Hevs].
Defined.


(** *** The further properties at work *)

(** X2, an instance: "Jinx" has the tag "Arcane" only; "host" is added and
    removed again, and the tags are as before. *)
Lemma add_then_remove_member_tag_witness :
  let w := Demo.start 200 in
  let w1 := (add_member_tag "Jinx" "host" w).2 in
  let out := remove_member_tag "Jinx" "host" w1 in
  loaded_member_tags w1 !! "Jinx" = Some ["Arcane"; "host"]
  ∧ out.1 = Ok true
  ∧ loaded_member_tags out.2 = loaded_member_tags w.
Proof.
  intros w w1 out.
  destruct (add_then_remove_member_tag w "Jinx" "host") as (Hr & _ & Hsame);
    [reflexivity|].
  split; [reflexivity|]. split; [exact Hr|].
  apply Hsame. exists ["Arcane"]. reflexivity.
Defined.

(** X4, an instance: "pets" is a sub-system and "dogs" is not; the request
    that names both is refused because of "dogs" and "pets" is not stored
    either. *)
Lemma update_member_tag_list_rejects_invalid_tag_witness :
  let w := with_subsystems_file (Some [ {| label := "pets" |} ])
             (Demo.start 200) in
  let run := update_member_tag_list "Jinx" ["pets"; "dogs"; "host"]
               {| is_admin := true |} w in
  run.1 = Exc (HTTPException 400
                 "Invalid tag 'dogs'. Must be one of: pets, valorant, vocaloids, host")
  ∧ member_tags_file run.2 = None
  ∧ cache run.2 = ∅.
Proof.
  intros w run.
  destruct (update_member_tag_list_rejects_invalid_tag w "Jinx" ["pets"] "dogs"
              ["host"] {| is_admin := true |})
    as (Hr & Hf & _ & Hc).
  - reflexivity.
  - constructor; [|constructor]. apply list_elem_of_In. vm_compute. tauto.
  - intros Hin. apply list_elem_of_In in Hin. vm_compute in Hin.
    destruct Hin as [Hin|[Hin|[]]]; discriminate.
  - split; [exact Hr|]. split; [exact Hf|exact Hc].
Defined.

(** X5, an instance. *)
Lemma update_member_tag_list_stores_tags_witness :
  let w := with_subsystems_file (Some [ {| label := "pets" |} ])
             (Demo.start 200) in
  let run := update_member_tag_list "Jinx" ["pets"; "host"]
               {| is_admin := true |} w in
  loaded_member_tags w !! "Jinx" = Some ["Arcane"]
  ∧ loaded_member_tags run.2 !! "Jinx" = Some ["pets"; "host"]
  ∧ (get_member_tags_by_id (JStr "fghij") (JStr "Jinx") run.2).1
    = Ok ["pets"; "host"].
Proof.
  intros w run.
  destruct (update_member_tag_list_stores_tags w "Jinx" ["pets"; "host"]
              {| is_admin := true |})
    as (_ & Hl & Hget).
  - reflexivity.
  - repeat constructor; apply list_elem_of_In; vm_compute; tauto.
  - split; [reflexivity|]. split; [|apply Hget].
    subst run. rewrite Hl. reflexivity.
Defined.

(** X6, an instance: "host" is added to "Jinx", and a second request to add
    it is answered with "info". *)
Lemma add_single_member_tag_outcome_witness :
  let w := Demo.start 200 in
  let run := add_single_member_tag "Jinx" "host" {| is_admin := true |} w in
  run.1 = Ok (JDict {[ "status" := JStr "success";
                       "message" := JStr "Added tag 'host' to Jinx" ]})
  ∧ loaded_member_tags run.2 !! "Jinx" = Some ["Arcane"; "host"]
  ∧ raw_tier_invalidated run.2.
Proof.
  intros w run.
  destruct (add_single_member_tag_outcome w "Jinx" "host" {| is_admin := true |})
    as (_ & _ & Hadd); [reflexivity|].
  destruct Hadd as (Hr & Hl & Hraw).
  - apply list_elem_of_In. vm_compute. tauto.
  - reflexivity.
  - split; [exact Hr|]. split; [|exact Hraw].
    subst run. rewrite Hl. reflexivity.
Defined.

(** X7, an instance: "Jinx" does not have the tag "host". *)
Lemma remove_single_member_tag_outcome_witness :
  let w := Demo.start 200 in
  let run := remove_single_member_tag "Jinx" "host" {| is_admin := true |} w in
  run.1 = Exc (HTTPException 404 "Tag 'host' not found for Jinx")
  ∧ (remove_single_member_tag "Jinx" "Arcane" {| is_admin := true |} w).1
    = Ok (JDict {[ "status" := JStr "success";
                   "message" := JStr "Removed tag 'Arcane' from Jinx" ]}).
Proof.
  intros w run.
  destruct (remove_single_member_tag_outcome w "Jinx" "host"
              {| is_admin := true |}) as [Hnot _]; [reflexivity|].
  destruct (remove_single_member_tag_outcome w "Jinx" "Arcane"
              {| is_admin := true |}) as [_ Hhas]; [reflexivity|].
  split; [apply Hnot; reflexivity|apply Hhas; reflexivity].
Defined.

(** X8, an instance: the two members of the upstream; "Jinx" has a tag under
    her name, "system" has none. *)
Lemma enrich_members_with_tags_outcome_witness :
  let w := Demo.start 200 in
  let jinx : gmap string json := {[ "id" := JStr "fghij"; "name" := JStr "Jinx" ]} in
  let sys : gmap string json := {[ "id" := JStr "abcde"; "name" := JStr "system" ]} in
  (enrich_members_with_tags [JDict sys; JDict jinx] w).1
  = Ok [ JDict (<["tags" := JList []]> sys);
         JDict (<["tags" := JList [JStr "Arcane"]]> jinx) ].
Proof.
  intros w jinx sys.
  destruct (enrich_members_with_tags_outcome w [JDict sys; JDict jinx])
    as [Hr _]; [repeat constructor|].
  rewrite Hr. reflexivity.
Defined.

(** X9, an instance: the filter "Arcane" keeps "Jinx", and "system" too as
    long as untagged members are asked for; "V" has another tag and is left
    out. *)
Lemma filter_members_by_subsystem_outcome_witness :
  let w := Demo.start 200 in
  let jinx : gmap string json := {[ "id" := JStr "fghij"; "name" := JStr "Jinx" ]} in
  let sys : gmap string json := {[ "id" := JStr "abcde"; "name" := JStr "system" ]} in
  let v : gmap string json := {[ "id" := JStr "klmno"; "name" := JStr "V" ]} in
  (filter_members_by_subsystem [JDict sys; JDict v; JDict jinx]
     (Some "Arcane") true w).1
  = Ok [ JDict (<["tags" := JList []]> sys);
         JDict (<["tags" := JList [JStr "Arcane"]]> jinx) ]
  ∧ (filter_members_by_subsystem [JDict sys; JDict v; JDict jinx]
       (Some "Arcane") false w).1
    = Ok [ JDict (<["tags" := JList [JStr "Arcane"]]> jinx) ].
Proof.
  intros w jinx sys v.
  destruct (filter_members_by_subsystem_outcome w [JDict sys; JDict v; JDict jinx]
              "Arcane" true) as (_ & _ & Hwith); [repeat constructor|].
  destruct (filter_members_by_subsystem_outcome w [JDict sys; JDict v; JDict jinx]
              "Arcane" false) as (_ & _ & Hwithout); [repeat constructor|].
  split.
  - rewrite Hwith by discriminate. reflexivity.
  - rewrite Hwithout by discriminate. reflexivity.
Defined.

(** X10, an instance: with the sub-system "Arcane" configured, "Jinx" is in
    its group, "system" is untagged, and "V", whose only tag "Cyberpunk" is
    no sub-system, is in no group; there is no group "Cyberpunk". *)
Lemma get_members_by_subsystem_outcome_witness :
  let w := with_subsystems_file (Some [ {| label := "Arcane" |} ])
             (Demo.start 200) in
  let jinx : gmap string json := {[ "id" := JStr "fghij"; "name" := JStr "Jinx" ]} in
  let sys : gmap string json := {[ "id" := JStr "abcde"; "name" := JStr "system" ]} in
  let v : gmap string json := {[ "id" := JStr "klmno"; "name" := JStr "V" ]} in
  ∃ result,
    (get_members_by_subsystem [JDict sys; JDict v; JDict jinx] w).1 = Ok result
    ∧ result !! "Arcane" = Some [ JDict (<["tags" := JList [JStr "Arcane"]]> jinx) ]
    ∧ result !! "untagged" = Some [ JDict (<["tags" := JList []]> sys) ]
    ∧ result !! "Cyberpunk" = None.
Proof.
  intros w jinx sys v.
  destruct (get_members_by_subsystem_outcome w [JDict sys; JDict v; JDict jinx])
    as (result & Hr & Hgroups); [repeat constructor|].
  exists result. split; [exact Hr|].
  destruct (Hgroups "Arcane") as [Harcane _].
  destruct (Hgroups "untagged") as [Huntagged _].
  destruct (Hgroups "Cyberpunk") as [_ Hcyber].
  split; [|split].
  - rewrite Harcane; [reflexivity|]. left. apply list_elem_of_In. vm_compute. tauto.
  - rewrite Huntagged; [reflexivity|]. right. left. reflexivity.
  - apply Hcyber. intros [Hin|[Heq|[Heq _]]]; [|discriminate|discriminate].
    apply list_elem_of_In in Hin. vm_compute in Hin.
    destruct Hin as [Hin|[]]. discriminate.
Defined.

(** X11, an instance: the system document is fetched at time 1000, stored
    at time 1002 and served from the cache at time 1031; at time 1032 the
    upstream is asked again. *)
Lemma get_system_reads_through_witness :
  let w := EmptySystem.empty_start in
  let run := get_system w in
  run.1 = Ok EmptySystem.system_doc
  ∧ now run.2 = 1002
  ∧ get_system (with_now 1031 run.2)
    = (Ok EmptySystem.system_doc,
       with_trace (trace run.2 ++ [EvCacheRead "system"]) (with_now 1031 run.2))
  ∧ ∃ evs, new_events (with_now 1032 run.2) (get_system (with_now 1032 run.2)).2
           = EvCacheRead "system" :: EvHttp system_request :: evs.
Proof.
  intros w run.
  destruct (get_system_reads_through w EmptySystem.system_doc 200 2)
    as (Hr & _ & Hcached).
  - reflexivity.
  - exists (Response 200 "system"). repeat split; reflexivity.
  - split; [exact Hr|]. split; [reflexivity|].
    assert (truthy EmptySystem.system_doc = true) as Ht by reflexivity.
    assert (0 < CACHE_TTL)%nat as Httl by (vm_compute; lia).
    split.
    + destruct (Hcached Ht Httl (with_now 1031 run.2)) as [Hhit _];
        [reflexivity|].
      apply Hhit. vm_compute. lia.
    + destruct (Hcached Ht Httl (with_now 1032 run.2)) as [_ Hmiss];
        [reflexivity|].
      apply Hmiss. vm_compute. lia.
Defined.

(** X12, an instance: the upstream of [Demo] answers the request for the
    system with 404. *)
Lemma failed_read_is_not_cached_witness :
  let w := Demo.start 200 in
  (get_system w).1 = Exc (HTTPStatusError 404)
  ∧ cache (get_system w).2 = ∅
  ∧ new_events w (get_system w).2 = [EvCacheRead "system"; EvHttp system_request].
Proof.
  intros w.
  destruct (failed_read_is_not_cached w ReadSystem (HTTPStatusError 404) 200 1)
    as (Hr & Hc & Hev).
  - repeat constructor.
  - apply (status_is_error _ _ _ _ _ (Response 404 "")); reflexivity.
  - split; [exact Hr|]. split; [exact Hc|exact Hev].
Defined.

(** X13, an instance: a system without members. *)
Lemma empty_member_list_is_refetched_witness :
  let w := EmptySystem.empty_start in
  let run := get_members w in
  run.1 = Ok (JList [])
  ∧ ∃ rest,
      new_events run.2 (get_members run.2).2
      = EvCacheRead "members" :: EvCacheRead "members_raw"
        :: EvHttp members_request :: rest.
Proof.
  intros w run.
  destruct (empty_member_list_is_refetched w 200 2) as (Hr & _ & Hagain).
  - reflexivity.
  - reflexivity.
  - exists (Response 200 "nobody"). repeat split; reflexivity.
  - split; [exact Hr|]. apply Hagain. reflexivity.
Defined.

(** X14, an instance: the raw list is in the cache, the processed list is
    not. *)
Lemma get_members_from_raw_tier_witness :
  let w := with_cache (Cache.set ∅ 1000 "members_raw" Demo.members_doc 30)
             (Demo.start 200) in
  let run := get_members w in
  is_ok run.1 = true
  ∧ remote run.2 = remote w ∧ now run.2 = now w.
Proof.
  intros w run.
  destruct (get_members_from_raw_tier w Demo.members_doc) as (_ & Hrem & Hnow).
  - reflexivity.
  - reflexivity.
  - split; [reflexivity|]. split; [exact Hrem|exact Hnow].
Defined.

(** X15, an instance: the member "system" fronts; in the fronting data it
    has the display name "Unsure". *)
Lemma get_fronters_resolves_members_witness :
  let unsure : json :=
    JDict {[ "id" := JStr "abcde"; "name" := JStr "system";
             "display_name" := JStr "Unsure"; "is_special" := JBool true;
             "original_name" := JStr "system" ]} in
  let jinx : json := JDict {[ "id" := JStr "fghij"; "name" := JStr "Jinx" ]} in
  let w := with_cache
             (Cache.set ∅ 1000 "members" (JList [unsure; jinx]) 30)
             (Demo.start 200) in
  (get_fronters w).1
  = Ok (JDict {[ "id" := JStr "sw1"; "members" := JList [unsure] ]}).
Proof.
  intros unsure jinx w.
  destruct (get_fronters_resolves_members w
              {[ "id" := JStr "sw1";
                 "members" := JList [ JDict {[ "id" := JStr "abcde";
                                               "name" := JStr "system" ]} ] ]}
              [ JDict {[ "id" := JStr "abcde"; "name" := JStr "system" ]} ]
              [unsure; jinx] 200 1) as [Hr _].
  - reflexivity.
  - exists (Response 200 "fronters"). repeat split; reflexivity.
  - reflexivity.
  - reflexivity.
  - repeat constructor.
  - repeat constructor.
  - rewrite Hr. reflexivity.
Defined.

(** X17, an instance: connection 3 joins, sends two pings and goes away;
    connection 1 stays where it was. *)
Lemma websocket_endpoint_cleans_up_witness :
  let w := with_active_connections
             {[ "all" := {[1]}; "authenticated" := ∅ ]} (Demo.start 200) in
  let run := websocket_endpoint 3 ["ping"; "hello"; "ping"] WebSocketDisconnect w in
  run.1 = Ok tt
  ∧ active_connections run.2 = {[ "all" := {[1]}; "authenticated" := ∅ ]}
  ∧ new_events w run.2 = [EvSend 3 "pong" Sent; EvSend 3 "pong" Sent].
Proof.
  intros w run.
  destruct (websocket_endpoint_cleans_up w 3 ["ping"; "hello"; "ping"]
              WebSocketDisconnect {[1]} ∅) as (Hr & Ha & _ & Hev).
  - reflexivity.
  - reflexivity.
  - split; [exact Hr|]. split; [subst run; rewrite Ha; reflexivity|].
    reflexivity.
Defined.

(** X18, an instance: the socket of connection 2 is dead. *)
Lemma send_personal_message_outcome_witness :
  let w := with_net {[2]}
             (with_active_connections
                {[ "all" := {[1; 2]}; "authenticated" := {[2]} ]}
                (Demo.start 200)) in
  let run := send_personal_message "hello" 2 w in
  run.1 = Ok tt
  ∧ active_connections run.2 = {[ "all" := {[1]}; "authenticated" := ∅ ]}.
Proof.
  intros w run.
  destruct (send_personal_message_outcome w "hello" 2 {[1; 2]})
    as (Hr & _ & Ha); [reflexivity|].
  split; [exact Hr|]. subst run. rewrite Ha. reflexivity.
Defined.

(** X19, an instance: the members named in the call play no part in who
    gets the message. *)
Lemma broadcast_to_interested_clients_outcome_witness :
  let w := with_net {[2]}
             (with_active_connections
                {[ "all" := {[1; 2; 3]}; "authenticated" := {[2; 3]} ]}
                (Demo.start 200)) in
  let run := broadcast_to_interested_clients ["abcde"] "cofront_update"
               (JDict ∅) w in
  run.1 = Ok tt
  ∧ new_events w run.2
    = [EvSend 2 "cofront_update" (SendFailed (RuntimeError "closed"));
       EvSend 3 "cofront_update" Sent]
  ∧ active_connections run.2
    = {[ "all" := {[1; 3]}; "authenticated" := {[3]} ]}.
Proof.
  intros w run.
  destruct (broadcast_to_interested_clients_outcome w ["abcde"] "cofront_update"
              (JDict ∅) {[2; 3]}) as (Hr & _ & Hev & Ha); [reflexivity|].
  split; [exact Hr|]. subst run. split.
  - rewrite Hev. reflexivity.
  - rewrite Ha. reflexivity.
Defined.

(** X21, an instance: the empty string as "member_id". *)
Lemma switch_single_front_requires_member_id_witness :
  let w := Demo.start 200 in
  switch_single_front (Ok (JDict {[ "member_id" := JStr "" ]})) w
  = (Exc (HTTPException 400 "member_id is required"), w).
Proof.
  intros w.
  apply (switch_single_front_requires_member_id w {[ "member_id" := JStr "" ]}).
  reflexivity.
Defined.

(** X22, an instance: the upstream answers the switch with 403. *)
Lemma switch_front_refused_by_upstream_witness :
  let w := Demo.start 403 in
  let run := switch_front
               (Ok (JDict {[ "members" := JList [JStr "abcde"] ]})) w in
  run.1 = Exc (HTTPException 500 "Failed to set front: 403 - ")
  ∧ new_events w run.2
    = [EvCacheWrite "fronters" JNull 0;
       EvHttp (switch_request (JList [JStr "abcde"]))].
Proof.
  intros w run.
  destruct (switch_front_refused_by_upstream w
              {[ "members" := JList [JStr "abcde"] ]} [JStr "abcde"]
              (Response 403 "") 403 1) as (Hr & Hev & _).
  - reflexivity.
  - vm_compute. lia.
  - reflexivity.
  - intros Hin. apply list_elem_of_In in Hin. vm_compute in Hin.
    destruct Hin as [Hin|[Hin|[]]]; discriminate.
  - split; [exact Hr|exact Hev].
Defined.

(** X23, an instance: two subscribers, one of them on a dead socket; both
    are sent the update and the answer is a success. *)
Lemma switch_front_notifies_subscribers_witness :
  let w := with_net {[2]}
             (with_active_connections
                {[ "all" := {[1; 2]}; "authenticated" := ∅ ]}
                (Demo.start 204)) in
  let run := switch_front
               (Ok (JDict {[ "members" := JList [JStr "abcde"] ]})) w in
  is_ok run.1 = true
  ∧ (∃ o, EvSend 1 "fronting_update" o ∈ new_events w run.2)
  ∧ (∃ o, EvSend 2 "fronting_update" o ∈ new_events w run.2).
Proof.
  intros w run.
  pose (w1 := (set_front (JList [JStr "abcde"]) w).2).
  pose (w2 := (get_fronters w1).2).
  pose (fd := JDict {[ "id" := JStr "sw1";
                       "members" :=
                         JList [ JDict {[ "id" := JStr "abcde";
                                          "name" := JStr "system";
                                          "display_name" := JStr "Unsure";
                                          "is_special" := JBool true;
                                          "original_name" := JStr "system" ]} ] ]}).
  assert ((set_front (JList [JStr "abcde"]) w).1 = Ok JNull) as Hset
    by (vm_compute; reflexivity).
  assert ((get_fronters w1).1 = Ok fd) as Hfd by (vm_compute; reflexivity).
  assert (get_fronters (set_front (JList [JStr "abcde"]) w).2 = (Ok fd, w2))
    as Hget.
  { fold w1. rewrite (surjective_pairing (get_fronters w1)). by rewrite Hfd. }
  assert (active_connections w2 !! "all" = Some {[1; 2]}) as Hall
    by (vm_compute; reflexivity).
  destruct (switch_front_notifies_subscribers w w2
              {[ "members" := JList [JStr "abcde"] ]} [JStr "abcde"] JNull
              fd {[1; 2]}) as (Hr & Hsends).
  - reflexivity.
  - vm_compute. lia.
  - exact Hset.
  - exact Hget.
  - exact Hall.
  - split; [subst run; by rewrite Hr|].
    split; apply Hsends; apply elem_of_union; [left|right];
      by apply elem_of_singleton.
Defined.

(** X24, an instance: the switch is accepted, and the answer of the upstream
    to the request for the fronters is then no JSON. *)
Lemma switch_front_reread_fails_witness :
  let w := EmptySystem.empty_start in
  let run := switch_front
               (Ok (JDict {[ "members" := JList [JStr "abcde"] ]})) w in
  run.1 = Exc (HTTPException 500 "error")
  ∧ EvHttp (switch_request (JList [JStr "abcde"])) ∈ new_events w run.2.
Proof.
  intros w run.
  pose (w1 := (set_front (JList [JStr "abcde"]) w).2).
  pose (w2 := (get_fronters w1).2).
  assert ((set_front (JList [JStr "abcde"]) w).1 = Ok JNull) as Hset
    by (vm_compute; reflexivity).
  assert ((get_fronters w1).1 = Exc (HTTPStatusError 404)) as Hfail
    by (vm_compute; reflexivity).
  assert (get_fronters (set_front (JList [JStr "abcde"]) w).2
          = (Exc (HTTPStatusError 404), w2)) as Hget.
  { fold w1. rewrite (surjective_pairing (get_fronters w1)). by rewrite Hfail. }
  destruct (switch_front_reread_fails w w2
              {[ "members" := JList [JStr "abcde"] ]} [JStr "abcde"] JNull
              (HTTPStatusError 404)) as (Hr & Hsent & _).
  - reflexivity.
  - vm_compute. lia.
  - exact Hset.
  - exact Hget.
  - split; [subst run; rewrite Hr; reflexivity|exact Hsent].
Defined.

(** X25, an instance. *)
Lemma update_mental_state_outcome_witness :
  let w := with_active_connections
             {[ "all" := {[1]}; "authenticated" := ∅ ]} (Demo.start 200) in
  let state := {| level := "safe"; updated_at := 1000; notes := None |} in
  let run := update_mental_state state {| is_admin := true |} w in
  is_ok run.1 = true
  ∧ mental_state_file run.2 = Some (mental_state_data state)
  ∧ ∃ o, EvSend 1 "mental_state_update" o ∈ new_events w run.2.
Proof.
  intros w state run.
  pose proof (update_mental_state_outcome w state {| is_admin := true |} {[1]}
                eq_refl) as Hout.
  cbn [is_admin] in Hout. destruct Hout as (Hr & Hf & Hsends).
  split; [subst run; by rewrite Hr|]. split; [exact Hf|].
  apply Hsends. by apply elem_of_singleton.
Defined.

(** X26, an instance. *)
Lemma admin_refresh_outcome_witness :
  let w := with_active_connections
             {[ "all" := {[1]}; "authenticated" := ∅ ]} (Demo.start 200) in
  (admin_refresh {| is_admin := false |} w).1
  = Exc (HTTPException 403 "Admin privileges required")
  ∧ new_events w (admin_refresh {| is_admin := true |} w).2
    = [EvBroadcast "all" "force_refresh"; EvSend 1 "force_refresh" Sent].
Proof.
  intros w.
  pose proof (admin_refresh_outcome w {| is_admin := false |} {[1]} eq_refl)
    as Hno.
  pose proof (admin_refresh_outcome w {| is_admin := true |} {[1]} eq_refl)
    as Hyes.
  cbn [is_admin] in Hno, Hyes. destruct Hyes as (_ & Hev & _).
  split; [by rewrite Hno|]. rewrite Hev. reflexivity.
Defined.

(** X27, an instance: nobody is called "nobody"; the text of the 404 ends up
    in the detail of a 500. *)
Lemma member_detail_not_found_is_500_witness :
  let w := Demo.start 200 in
  (member_detail string_upper "nobody" w).1
  = Exc (HTTPException 500
           "Failed to fetch member details: 404: Member not found")
  ∧ is_ok (member_detail string_upper "jinx" w).1 = true.
Proof.
  intros w.
  pose proof (member_detail_not_found_is_500 string_upper w "nobody"
                [ JDict {[ "id" := JStr "abcde"; "name" := JStr "system";
                           "display_name" := JStr "Unsure";
                           "is_special" := JBool true;
                           "original_name" := JStr "system" ]};
                  JDict {[ "id" := JStr "fghij"; "name" := JStr "Jinx" ]} ]
                eq_refl) as Hnobody.
  pose proof (member_detail_not_found_is_500 string_upper w "jinx"
                [ JDict {[ "id" := JStr "abcde"; "name" := JStr "system";
                           "display_name" := JStr "Unsure";
                           "is_special" := JBool true;
                           "original_name" := JStr "system" ]};
                  JDict {[ "id" := JStr "fghij"; "name" := JStr "Jinx" ]} ]
                eq_refl) as Hjinx.
  split.
  - rewrite Hnobody by (repeat constructor). reflexivity.
  - rewrite Hjinx by (repeat constructor). reflexivity.
Defined.

